(** * FinnPos: the tagger's option record (src/tagger/TaggerOptions.cc)

    A shallow embedding of [TaggerOptions]: the text-config constructor,
    the binary [store]/[load] pair and [operator==], together with the
    parts of the C and C++ run-time the code leans on ([atoi], [atof],
    [std::getline], [std::string::find], IEEE 754 single and double
    precision arithmetic).

    Conventions.
    - [unsigned int] and [int] are 32 bits wide and are carried as [Z]
      with the wrap-around written out ([to_uint], [to_sint]); [long] is
      64 bits wide.
    - [float] and [double] are IEEE 754 binary32 and binary64, carried as
      [spec_float] (the Standard Library's specification of floating
      point numbers) at precision 24/emax 128 and 53/1024.
    - A function that can throw returns a [result]; state that outlives a
      throw (the line counter, the stream, the record under [load]) is
      passed explicitly and returned beside the outcome. *)

From Stdlib Require Import ZArith NArith Bool List String Ascii Lia.
From Stdlib Require Import SpecFloat.
Import ListNotations.

Local Open Scope string_scope.
Local Open Scope Z_scope.

(* ================================================================== *)
(** * Machine integers *)

Module CInt.

Definition UINT_MOD : Z := 2 ^ 32.
Definition INT_MIN : Z := - 2 ^ 31.
Definition INT_MAX : Z := 2 ^ 31 - 1.
Definition LONG_MIN : Z := - 2 ^ 63.
Definition LONG_MAX : Z := 2 ^ 63 - 1.

(** Conversion to [unsigned int]: reduction modulo 2^32. *)
Definition to_uint (z : Z) : Z := z mod UINT_MOD.

(** Conversion to [int]: the representative of [z] modulo 2^32 that lies
    in [INT_MIN .. INT_MAX]. *)
Definition to_sint (z : Z) : Z := (z - INT_MIN) mod UINT_MOD + INT_MIN.

Definition is_uint (z : Z) : Prop := 0 <= z < UINT_MOD.
Definition is_sint (z : Z) : Prop := INT_MIN <= z <= INT_MAX.

(** Conversion of an integer to [bool]: non-zero is [true]. *)
Definition to_bool (z : Z) : bool := negb (z =? 0).

(** Conversion of a [bool] to an integer. *)
Definition of_bool (b : bool) : Z := if b then 1 else 0.

End CInt.

(* ================================================================== *)
(** * IEEE 754 arithmetic *)

Module IEEE.

(** [float] is binary32, [double] is binary64. *)
Definition float : Type := spec_float.
Definition double : Type := spec_float.

Definition float_prec : Z := 24.
Definition float_emax : Z := 128.
Definition double_prec : Z := 53.
Definition double_emax : Z := 1024.

(** The well-formed values of each format. *)
Definition is_float (f : float) : Prop := valid_binary float_prec float_emax f = true.
Definition is_double (d : double) : Prop := valid_binary double_prec double_emax d = true.

Definition is_finite (f : spec_float) : bool :=
  match f with
  | S754_zero _ | S754_finite _ _ _ => true
  | S754_infinity _ | S754_nan => false
  end.

(** [m * 2^e] rounded to nearest, ties to even. [szero] is the sign of
    the result when [m] is zero. *)
Definition round_float (m e : Z) (szero : bool) : float :=
  binary_normalize float_prec float_emax m e szero.

Definition round_double (m e : Z) (szero : bool) : double :=
  binary_normalize double_prec double_emax m e szero.

(** [(-1)^s * (n / d) * 2^e2] rounded to nearest even at precision
    [prec]. The quotient is taken with at least [prec + 2] significant
    bits and a sticky bit for the remainder, so that the final rounding
    sees on which side of every representable number and of every
    midpoint the exact value lies. *)
Definition round_ratio (prec emax : Z) (s : bool) (n d : positive) (e2 : Z)
  : spec_float :=
  let k := Z.max 0 (prec + 3 + Z.log2 (Zpos d) - Z.log2 (Zpos n)) in
  let (q, r) := Z.div_eucl (Z.shiftl (Zpos n) k) (Zpos d) in
  let mant := 2 * q + (if r =? 0 then 0 else 1) in
  binary_normalize prec emax (cond_Zopp s mant) (e2 - k - 1) s.

(** The [double] nearest to the decimal number [(-1)^s * m * 10^e10]. *)
Definition double_of_decimal (s : bool) (m : N) (e10 : Z) : double :=
  match m with
  | N0 => S754_zero s
  | Npos p =>
      if 0 <=? e10
      then round_ratio double_prec double_emax s (p * Z.to_pos (10 ^ e10)) 1 0
      else round_ratio double_prec double_emax s p (Z.to_pos (10 ^ (- e10))) 0
  end.

(** The [double] nearest to [(-1)^s * m * 2^e2] (hexadecimal literals). *)
Definition double_of_binary (s : bool) (m : N) (e2 : Z) : double :=
  match m with
  | N0 => S754_zero s
  | Npos p => round_double (cond_Zopp s (Zpos p)) e2 s
  end.

(** Conversion [double -> float]: rounding to nearest even. *)
Definition float_of_double (x : double) : float :=
  match x with
  | S754_finite s m e => round_float (cond_Zopp s (Zpos m)) e s
  | _ => x
  end.

(** Conversion [float -> double]: exact; the result is the binary64
    representation of the same number. *)
Definition double_of_float (x : float) : double :=
  match x with
  | S754_finite s m e => round_double (cond_Zopp s (Zpos m)) e s
  | _ => x
  end.

(** Conversion of an integer ([int], [unsigned int], an enumerator or a
    [bool]) to [float]: rounding to nearest even. *)
Definition float_of_Z (z : Z) : float := round_float z 0 false.

(** The integer part of a finite number, rounding toward zero. *)
Definition truncate (x : spec_float) : option Z :=
  match x with
  | S754_zero _ => Some 0
  | S754_finite s m e =>
      Some (cond_Zopp s (if 0 <=? e then Zpos m * 2 ^ e else Zpos m / 2 ^ (- e)))
  | S754_infinity _ | S754_nan => None
  end.

(** [static_cast<unsigned int>(x)]. C++ defines the conversion only when
    the truncated value fits the type. Where it does not, the value
    below is the one x86-64 code produces ([cvttss2si] into a 64-bit
    register, of which the low half is kept; the 64-bit "indefinite"
    value has a zero low half). *)
Definition uint_of_float (x : float) : Z :=
  match truncate x with
  | Some z =>
      if (CInt.LONG_MIN <=? z) && (z <=? CInt.LONG_MAX) then CInt.to_uint z else 0
  | None => 0
  end.

(** [static_cast<int>(x)]; outside the range of [int], the 32-bit
    "indefinite" value [INT_MIN] of [cvttss2si]. *)
Definition sint_of_float (x : float) : Z :=
  match truncate x with
  | Some z =>
      if (CInt.INT_MIN <=? z) && (z <=? CInt.INT_MAX) then z else CInt.INT_MIN
  | None => CInt.INT_MIN
  end.

Definition float_sub : float -> float -> float := SFsub float_prec float_emax.

(** [fabs] on [double]. *)
Definition fabs : double -> double := SFabs.

(** [x < y] on two values of the same format. *)
Definition lt (x y : spec_float) : bool := SFltb x y.

Definition float_zero : float := S754_zero false.

(** The numbers that carry no minus sign (NaN among them). *)
Definition unsigned (x : spec_float) : Prop :=
  match x with
  | S754_zero s | S754_infinity s | S754_finite s _ _ => s = false
  | S754_nan => True
  end.

(** The numbers with a minus sign that are not zero. *)
Definition negative (x : spec_float) : Prop :=
  match x with
  | S754_finite s _ _ | S754_infinity s => s = true
  | _ => False
  end.

End IEEE.

(* ================================================================== *)
(** * The C library: character classes, [atoi], [atof] *)

Module Libc.

Import IEEE.

Definition code (c : ascii) : Z := Z.of_N (N_of_ascii c).

(** [isspace] in the C locale: space, and the controls HT, LF, VT, FF, CR. *)
Definition isspace (c : ascii) : bool :=
  (code c =? 32) || ((9 <=? code c) && (code c <=? 13)).

(** The value of [c] as a digit of the given base (10 or 16). *)
Definition digit_value (base : Z) (c : ascii) : option Z :=
  let n := code c in
  if (48 <=? n) && (n <=? 57) then Some (n - 48)
  else if (base =? 16) && (97 <=? n) && (n <=? 102) then Some (n - 87)
  else if (base =? 16) && (65 <=? n) && (n <=? 70) then Some (n - 55)
  else None.

Fixpoint skip_space (s : string) : string :=
  match s with
  | String c r => if isspace c then skip_space r else s
  | EmptyString => s
  end.

(** An optional sign: [true] for a minus. *)
Definition read_sign (s : string) : bool * string :=
  match s with
  | String "-" r => (true, r)
  | String "+" r => (false, r)
  | _ => (false, s)
  end.

(** The longest run of digits at the head of [s], read on top of the
    value [acc]: the value, the number of digits read, what follows. *)
Fixpoint read_digits (base : Z) (s : string) (acc : Z) : Z * Z * string :=
  match s with
  | String c r =>
      match digit_value base c with
      | Some d =>
          let '(v, n, rest) := read_digits base r (acc * base + d) in (v, n + 1, rest)
      | None => (acc, 0, s)
      end
  | EmptyString => (acc, 0, s)
  end.

(** [strtol(s, NULL, 10)]: white space, an optional sign, decimal
    digits; 0 when there is no digit; the value is clamped to the range
    of [long]. *)
Definition strtol (s : string) : Z :=
  let '(neg, r) := read_sign (skip_space s) in
  let '(v, _, _) := read_digits 10 r 0 in
  let z := if neg then - v else v in
  Z.max CInt.LONG_MIN (Z.min CInt.LONG_MAX z).

(** [atoi(s)] is [(int) strtol(s, NULL, 10)]. The C standard leaves the
    result open when the value does not fit an [int]; the conversion
    written here is the one the GNU C library performs. *)
Definition atoi (s : string) : Z := CInt.to_sint (strtol s).

Definition lower (c : ascii) : ascii :=
  if (65 <=? code c) && (code c <=? 90)
  then ascii_of_N (Z.to_N (code c + 32)) else c.

(** [word] (in lower case) heads [s], letter case apart. *)
Fixpoint starts_with_nocase (word s : string) : bool :=
  match word, s with
  | EmptyString, _ => true
  | String w word', String c s' =>
      Ascii.eqb w (lower c) && starts_with_nocase word' s'
  | String _ _, EmptyString => false
  end.

(** The exponent part of a literal: the marker ([e] or [p], either
    case), an optional sign and at least one decimal digit; 0 when the
    text has no such part. *)
Definition read_exponent (marker : ascii) (s : string) : Z :=
  match s with
  | String c r =>
      if Ascii.eqb marker (lower c) then
        let '(neg, r1) := read_sign r in
        let '(v, n, _) := read_digits 10 r1 0 in
        if n =? 0 then 0 else if neg then - v else v
      else 0
  | EmptyString => 0
  end.

(** Digits, an optional point, digits: the digits as one integer, and
    the number of digits before and after the point. *)
Definition read_mantissa (base : Z) (s : string) : Z * Z * Z * string :=
  let '(ip, ni, s1) := read_digits base s 0 in
  match s1 with
  | String "." r =>
      let '(fp, nf, s2) := read_digits base r ip in (fp, ni, nf, s2)
  | _ => (ip, ni, 0, s1)
  end.

(** A decimal floating literal: [Some (m, e)] for the number [m * 10^e]. *)
Definition decimal_literal (s : string) : option (N * Z) :=
  let '(m, ni, nf, rest) := read_mantissa 10 s in
  if ni + nf =? 0 then None
  else Some (Z.to_N m, read_exponent "e" rest - nf).

(** A hexadecimal floating literal: [Some (m, e)] for [m * 2^e]. *)
Definition hex_literal (s : string) : option (N * Z) :=
  match s with
  | String "0" (String x r) =>
      if Ascii.eqb (lower x) "x" then
        let '(m, ni, nf, rest) := read_mantissa 16 r in
        if ni + nf =? 0 then None
        else Some (Z.to_N m, read_exponent "p" rest - 4 * nf)
      else None
  | _ => None
  end.

(** [strtod(s, NULL)]: white space, an optional sign, then an infinity,
    a NaN, a hexadecimal or a decimal literal, converted to the nearest
    [double]; [+0.0] when the text holds no number. *)
Definition strtod (s : string) : double :=
  let '(neg, r) := read_sign (skip_space s) in
  if starts_with_nocase "inf" r then S754_infinity neg
  else if starts_with_nocase "nan" r then S754_nan
  else
    match hex_literal r with
    | Some (m, e2) => double_of_binary neg m e2
    | None =>
        match decimal_literal r with
        | Some (m, e10) => double_of_decimal neg m e10
        | None => S754_zero false
        end
    end.

Definition atof (s : string) : double := strtod s.

End Libc.

(* ================================================================== *)
(** * [std::string] and [std::istream] *)

Module Std.

Definition LF : ascii := "010"%char.
Definition HT : ascii := "009"%char.
Definition CR : ascii := "013"%char.
Definition SP : ascii := " "%char.

(** [pat] is read at the head of [str]. *)
Fixpoint starts_with (pat str : string) : bool :=
  match pat with
  | EmptyString => true
  | String a pat' =>
      match str with
      | EmptyString => false
      | String b str' => Ascii.eqb a b && starts_with pat' str'
      end
  end.

(** [str.find(pat)]: the first position at which [pat] occurs in [str];
    [None] is [std::string::npos]. *)
Fixpoint find (str pat : string) : option nat :=
  if starts_with pat str then Some 0%nat
  else
    match str with
    | EmptyString => None
    | String _ r => option_map S (find r pat)
    end.

(** [str.substr(pos)], for [pos <= str.size()]. *)
Fixpoint substr (str : string) (pos : nat) : string :=
  match pos, str with
  | O, _ => str
  | S p, String _ r => substr r p
  | S _, EmptyString => EmptyString
  end.

(** A character stream: the characters not read yet and two of the
    state flags of [std::ios]. *)
Record istream : Type := mk_istream {
  buffer : string;
  eofbit : bool;
  failbit : bool
}.

(** [std::istringstream in(text)]. *)
Definition istringstream (text : string) : istream :=
  {| buffer := text; eofbit := false; failbit := false |}.

(** [static_cast<bool>(in)], the test of [while (in)]: [!in.fail()]. *)
Definition good_for_loop (i : istream) : bool := negb (failbit i).

(** The characters up to the first line feed, and what follows the line
    feed; [None] when the text ends before a line feed is met. *)
Fixpoint read_line (s : string) : string * option string :=
  match s with
  | EmptyString => (EmptyString, None)
  | String c r =>
      if Ascii.eqb c LF then (EmptyString, Some r)
      else let '(l, rest) := read_line r in (String c l, rest)
  end.

(** [std::getline(in, line)] into an empty [line]. On a stream that is
    not good nothing is read and [failbit] is set. Otherwise characters
    are moved to the line until a line feed (which is dropped) or the end
    of the text (which sets [eofbit]); reading no character at all sets
    [failbit] too. *)
Definition getline (i : istream) : string * istream :=
  if eofbit i || failbit i then
    (EmptyString, {| buffer := buffer i; eofbit := eofbit i; failbit := true |})
  else
    match read_line (buffer i) with
    | (line, Some rest) =>
        (line, {| buffer := rest; eofbit := false; failbit := false |})
    | (line, None) =>
        (line, {| buffer := EmptyString; eofbit := true;
                  failbit := (String.length line =? 0)%nat |})
    end.

End Std.

(* ================================================================== *)
(** * Exceptions *)

(** The exception classes of exceptions.hh that this file throws. *)
Inductive exn : Type :=
| SyntaxError
| NumericalRangeError
| ReadFailed
| BadBinary.

(** The outcome of a call that may throw. *)
Inductive result (A : Type) : Type :=
| Return (a : A)
| Throw (e : exn).

Arguments Return {A} a.
Arguments Throw {A} e.

Definition bind {A B : Type} (r : result A) (k : A -> result B) : result B :=
  match r with
  | Return a => k a
  | Throw e => Throw e
  end.

Notation "x <- r ;; k" := (bind r (fun x => k))
  (at level 61, r at next level, right associativity).

Definition exn_eqb (a b : exn) : bool :=
  match a, b with
  | SyntaxError, SyntaxError
  | NumericalRangeError, NumericalRangeError
  | ReadFailed, ReadFailed
  | BadBinary, BadBinary => true
  | _, _ => false
  end.

(** [throws r e]: the call ended by throwing [e]. *)
Definition throws {A : Type} (r : result A) (e : exn) : bool :=
  match r with
  | Throw e' => exn_eqb e' e
  | Return _ => false
  end.

(* ================================================================== *)
(** * The option record *)

(** Modelled from the spec: the declarations of TaggerOptions.hh, which
    is not among the sources. The three enumerations are unscoped C++
    enumerations whose enumerators count from 0 in the order the spec
    lists them; a field of such a type holds an integer ([load] casts an
    arbitrary [float] to it), so the types are carried as [Z] with the
    enumerators as constants. The record's fields have the types of the
    spec's table: [unsigned int] counts, a signed [beam], four [float]s
    and a [bool]. *)
Definition Estimator : Type := Z.
Definition AVG_PERC : Estimator := 0.
Definition ML : Estimator := 1.

Definition Inference : Type := Z.
Definition MAP : Inference := 0.
Definition MARGINAL : Inference := 1.

Definition Regularization : Type := Z.
Definition NONE : Regularization := 0.
Definition L1 : Regularization := 1.
Definition L2 : Regularization := 2.

Record TaggerOptions : Type := mkTaggerOptions {
  estimator : Estimator;
  inference : Inference;
  suffix_length : Z;
  degree : Z;
  max_train_passes : Z;
  max_lemmatizer_passes : Z;
  max_useless_passes : Z;
  guess_mass : IEEE.float;
  beam : Z;
  beam_mass : IEEE.float;
  regularization : Regularization;
  delta : IEEE.float;
  sigma : IEEE.float;
  use_label_dictionary : bool
}.

(** Assignment to one field. *)
Definition set_estimator (v : Estimator) (r : TaggerOptions) : TaggerOptions :=
  mkTaggerOptions v (inference r) (suffix_length r) (degree r)
    (max_train_passes r) (max_lemmatizer_passes r) (max_useless_passes r)
    (guess_mass r) (beam r) (beam_mass r) (regularization r) (delta r)
    (sigma r) (use_label_dictionary r).

Definition set_inference (v : Inference) (r : TaggerOptions) : TaggerOptions :=
  mkTaggerOptions (estimator r) v (suffix_length r) (degree r)
    (max_train_passes r) (max_lemmatizer_passes r) (max_useless_passes r)
    (guess_mass r) (beam r) (beam_mass r) (regularization r) (delta r)
    (sigma r) (use_label_dictionary r).

Definition set_suffix_length (v : Z) (r : TaggerOptions) : TaggerOptions :=
  mkTaggerOptions (estimator r) (inference r) v (degree r)
    (max_train_passes r) (max_lemmatizer_passes r) (max_useless_passes r)
    (guess_mass r) (beam r) (beam_mass r) (regularization r) (delta r)
    (sigma r) (use_label_dictionary r).

Definition set_degree (v : Z) (r : TaggerOptions) : TaggerOptions :=
  mkTaggerOptions (estimator r) (inference r) (suffix_length r) v
    (max_train_passes r) (max_lemmatizer_passes r) (max_useless_passes r)
    (guess_mass r) (beam r) (beam_mass r) (regularization r) (delta r)
    (sigma r) (use_label_dictionary r).

Definition set_max_train_passes (v : Z) (r : TaggerOptions) : TaggerOptions :=
  mkTaggerOptions (estimator r) (inference r) (suffix_length r) (degree r)
    v (max_lemmatizer_passes r) (max_useless_passes r)
    (guess_mass r) (beam r) (beam_mass r) (regularization r) (delta r)
    (sigma r) (use_label_dictionary r).

Definition set_max_lemmatizer_passes (v : Z) (r : TaggerOptions) : TaggerOptions :=
  mkTaggerOptions (estimator r) (inference r) (suffix_length r) (degree r)
    (max_train_passes r) v (max_useless_passes r)
    (guess_mass r) (beam r) (beam_mass r) (regularization r) (delta r)
    (sigma r) (use_label_dictionary r).

Definition set_max_useless_passes (v : Z) (r : TaggerOptions) : TaggerOptions :=
  mkTaggerOptions (estimator r) (inference r) (suffix_length r) (degree r)
    (max_train_passes r) (max_lemmatizer_passes r) v
    (guess_mass r) (beam r) (beam_mass r) (regularization r) (delta r)
    (sigma r) (use_label_dictionary r).

Definition set_guess_mass (v : IEEE.float) (r : TaggerOptions) : TaggerOptions :=
  mkTaggerOptions (estimator r) (inference r) (suffix_length r) (degree r)
    (max_train_passes r) (max_lemmatizer_passes r) (max_useless_passes r)
    v (beam r) (beam_mass r) (regularization r) (delta r)
    (sigma r) (use_label_dictionary r).

Definition set_beam (v : Z) (r : TaggerOptions) : TaggerOptions :=
  mkTaggerOptions (estimator r) (inference r) (suffix_length r) (degree r)
    (max_train_passes r) (max_lemmatizer_passes r) (max_useless_passes r)
    (guess_mass r) v (beam_mass r) (regularization r) (delta r)
    (sigma r) (use_label_dictionary r).

Definition set_beam_mass (v : IEEE.float) (r : TaggerOptions) : TaggerOptions :=
  mkTaggerOptions (estimator r) (inference r) (suffix_length r) (degree r)
    (max_train_passes r) (max_lemmatizer_passes r) (max_useless_passes r)
    (guess_mass r) (beam r) v (regularization r) (delta r)
    (sigma r) (use_label_dictionary r).

Definition set_regularization (v : Regularization) (r : TaggerOptions) : TaggerOptions :=
  mkTaggerOptions (estimator r) (inference r) (suffix_length r) (degree r)
    (max_train_passes r) (max_lemmatizer_passes r) (max_useless_passes r)
    (guess_mass r) (beam r) (beam_mass r) v (delta r)
    (sigma r) (use_label_dictionary r).

Definition set_delta (v : IEEE.float) (r : TaggerOptions) : TaggerOptions :=
  mkTaggerOptions (estimator r) (inference r) (suffix_length r) (degree r)
    (max_train_passes r) (max_lemmatizer_passes r) (max_useless_passes r)
    (guess_mass r) (beam r) (beam_mass r) (regularization r) v
    (sigma r) (use_label_dictionary r).

Definition set_sigma (v : IEEE.float) (r : TaggerOptions) : TaggerOptions :=
  mkTaggerOptions (estimator r) (inference r) (suffix_length r) (degree r)
    (max_train_passes r) (max_lemmatizer_passes r) (max_useless_passes r)
    (guess_mass r) (beam r) (beam_mass r) (regularization r) (delta r)
    v (use_label_dictionary r).

Definition set_use_label_dictionary (v : bool) (r : TaggerOptions) : TaggerOptions :=
  mkTaggerOptions (estimator r) (inference r) (suffix_length r) (degree r)
    (max_train_passes r) (max_lemmatizer_passes r) (max_useless_passes r)
    (guess_mass r) (beam r) (beam_mass r) (regularization r) (delta r)
    (sigma r) v.

(* ================================================================== *)
(** * The text-config constructor *)

Import Std.

(** [bool float_eq(float f1, float f2)]: [fabs(f1 - f2) < 0.001]. The
    difference is a [float]; [fabs] and the comparison with the literal
    are in [double]. *)
Definition float_eq (f1 f2 : IEEE.float) : bool :=
  IEEE.lt (IEEE.fabs (IEEE.double_of_float (IEEE.float_sub f1 f2)))
          (IEEE.double_of_decimal false 1 (-3)).

Definition estimator_id : string := "estimator=".
Definition inference_id : string := "inference=".
Definition suffix_length_id : string := "suffix_length=".
Definition degree_id : string := "degree=".
Definition max_train_passes_id : string := "max_train_passes=".
Definition max_lemmatizer_passes_id : string := "max_lemmatizer_passes=".
Definition max_useless_passes_id : string := "max_useless_passes=".
Definition guess_mass_id : string := "guess_mass=".
Definition beam_id : string := "beam=".
Definition beam_mass_id : string := "beam_mass=".
Definition regularization_id : string := "regularization=".
Definition delta_id : string := "delta=".
Definition sigma_id : string := "sigma=".
Definition use_label_dictionary_id : string := "use_label_dictionary=".

(** [despace]: the line without its spaces, tabs and carriage returns. *)
Fixpoint despace (line : string) : string :=
  match line with
  | EmptyString => EmptyString
  | String c r =>
      if negb (Ascii.eqb c SP) && negb (Ascii.eqb c HT) && negb (Ascii.eqb c CR)
      then String c (despace r)
      else despace r
  end.

(** [line.find(id) != std::string::npos]. *)
Definition found (line id : string) : bool :=
  match find line id with
  | Some _ => true
  | None => false
  end.

(** [str.find(pat) == 0]. *)
Definition found_at_0 (str pat : string) : bool :=
  match find str pat with
  | Some O => true
  | _ => false
  end.

(** [strip(str, prefix)]: what follows the first occurrence of [prefix].
    The code asserts that there is one. *)
Definition strip (str prefix : string) : string :=
  match find str prefix with
  | Some prefix_start => substr str (prefix_start + String.length prefix)
  | None => EmptyString
  end.

Definition get_estimator (str : string) : result Estimator :=
  if found_at_0 str "AVG_PERC" then Return AVG_PERC
  else if found_at_0 str "ML" then Return ML
  else Throw SyntaxError.

Definition get_inference (str : string) : result Inference :=
  if found_at_0 str "MAP" then Return MAP
  else if found_at_0 str "MARGINAL" then Return MARGINAL
  else Throw SyntaxError.

Definition get_regularization (str : string) : result Regularization :=
  if found_at_0 str "NONE" then Return NONE
  else if found_at_0 str "L1" then Return L1
  else if found_at_0 str "L2" then Return L2
  else Throw SyntaxError.

(** [get_uint]: [atoi], refused when negative. *)
Definition get_uint (str : string) : result Z :=
  let i := Libc.atoi str in
  if i <? 0 then Throw NumericalRangeError
  else Return (CInt.to_uint i).

(** [get_int]: [atoi]; the declared return type is [unsigned int]. *)
Definition get_int (str : string) : Z :=
  let i := Libc.atoi str in
  CInt.to_uint i.

(** [get_float]: [atof] narrowed to [float], refused when below zero. *)
Definition get_float (str : string) : result IEEE.float :=
  let f := IEEE.float_of_double (Libc.atof str) in
  if IEEE.lt f IEEE.float_zero then Throw NumericalRangeError
  else Return f.

(** The member initialisers of the stream constructor. *)
Definition defaults : TaggerOptions := {|
  estimator := AVG_PERC;
  inference := MAP;
  suffix_length := 10;
  degree := 2;
  max_train_passes := 50;
  max_lemmatizer_passes := 50;
  max_useless_passes := 3;
  guess_mass := IEEE.float_of_double (IEEE.double_of_decimal false 99 (-2));
  beam := -1;
  beam_mass := IEEE.float_of_Z (-1);
  regularization := NONE;
  delta := IEEE.float_of_Z (-1);
  sigma := IEEE.float_of_Z (-1);
  use_label_dictionary := CInt.to_bool 1
|}.

(** The chain of tests on one line that is neither empty nor a comment:
    the first identifier found in the line, in the order of the chain,
    decides the field; the value is what follows that identifier. *)
Definition assign_line (line : string) (this : TaggerOptions)
  : result TaggerOptions :=
  if found line estimator_id then
    v <- get_estimator (strip line estimator_id) ;;
    Return (set_estimator v this)
  else if found line inference_id then
    v <- get_inference (strip line inference_id) ;;
    Return (set_inference v this)
  else if found line suffix_length_id then
    v <- get_uint (strip line suffix_length_id) ;;
    Return (set_suffix_length v this)
  else if found line degree_id then
    v <- get_uint (strip line degree_id) ;;
    Return (set_degree v this)
  else if found line max_train_passes_id then
    v <- get_uint (strip line max_train_passes_id) ;;
    Return (set_max_train_passes v this)
  else if found line max_lemmatizer_passes_id then
    v <- get_uint (strip line max_lemmatizer_passes_id) ;;
    Return (set_max_lemmatizer_passes v this)
  else if found line max_useless_passes_id then
    v <- get_uint (strip line max_useless_passes_id) ;;
    Return (set_max_useless_passes v this)
  else if found line guess_mass_id then
    v <- get_float (strip line guess_mass_id) ;;
    Return (set_guess_mass v this)
  else if found line beam_id then
    Return (set_beam (CInt.to_sint (get_int (strip line beam_id))) this)
  else if found line beam_mass_id then
    v <- get_float (strip line beam_mass_id) ;;
    Return (set_beam_mass v this)
  else if found line regularization_id then
    v <- get_regularization (strip line regularization_id) ;;
    Return (set_regularization v this)
  else if found line delta_id then
    v <- get_float (strip line delta_id) ;;
    Return (set_delta v this)
  else if found line sigma_id then
    v <- get_float (strip line sigma_id) ;;
    Return (set_sigma v this)
  else if found line use_label_dictionary_id then
    v <- get_uint (strip line use_label_dictionary_id) ;;
    Return (set_use_label_dictionary (CInt.to_bool v) this)
  else Throw SyntaxError.

(** What the body of the loop does with a line after [despace] and
    [++counter]: an empty line and a line that starts with [#] are
    skipped. *)
Definition process_line (line : string) (this : TaggerOptions)
  : result TaggerOptions :=
  match line with
  | EmptyString => Return this
  | String c _ => if Ascii.eqb c "#" then Return this else assign_line line this
  end.

(** [++counter] on an [unsigned int]. *)
Definition incr (counter : Z) : Z := CInt.to_uint (counter + 1).

(** The state a run of the constructor leaves behind: how it ended, the
    stream, and the caller's counter. *)
Record parse_end : Type := mk_parse_end {
  outcome : result TaggerOptions;
  stream_after : istream;
  counter_after : Z
}.

(** The loop [while (in) { getline; despace; ++counter; ... }]. One unit
    of [fuel] is spent per round; [None] when the fuel runs out. *)
Fixpoint parse_loop (fuel : nat) (this : TaggerOptions) (i : istream)
  (counter : Z) : option parse_end :=
  match fuel with
  | O => None
  | S fuel' =>
      if good_for_loop i then
        let '(line, i') := getline i in
        let line := despace line in
        let counter := incr counter in
        match process_line line this with
        | Return this' => parse_loop fuel' this' i' counter
        | Throw e => Some (mk_parse_end (Throw e) i' counter)
        end
      else Some (mk_parse_end (Return this) i counter)
  end.

(** Rounds of the loop that a stream can still take: one per line left,
    one for the read that meets the end of the text, one for the test
    that leaves the loop. *)
Definition rounds_bound (i : istream) : nat := S (S (String.length (buffer i))).

(** [TaggerOptions::TaggerOptions(std::istream &in, unsigned int &counter)]. *)
Definition TaggerOptions_of_stream (i : istream) (counter : Z) : option parse_end :=
  parse_loop (rounds_bound i) defaults i counter.

(* ================================================================== *)
(** * The binary codec *)

(** The vector reader and writer of io.hh, which is not among the
    sources, are parameters of [store] and [load]: the streams they work
    on, the test [in.fail()], and [read_vector] / [write_vector] at the
    two element types the record uses. [read_vector] returns the vector
    it filled and the stream it leaves. [ostringstream] is an empty
    output stream and [str_istringstream out] is
    [std::istringstream(out.str())]. *)
Class VectorIO : Type := {
  bin_istream : Type;
  bin_ostream : Type;
  fail : bin_istream -> bool;
  read_vector_string : bin_istream -> bool -> list string * bin_istream;
  read_vector_float : bin_istream -> bool -> list IEEE.float * bin_istream;
  write_vector_string : bin_ostream -> list string -> bin_ostream;
  write_vector_float : bin_ostream -> list IEEE.float -> bin_ostream;
  ostringstream : bin_ostream;
  str_istringstream : bin_ostream -> bin_istream
}.

(** The names [store] writes, in the order it writes them. *)
Definition store_field_names : list string :=
  [ "estimator"; "inference"; "suffix_length"; "degree"; "max_train_passes";
    "max_lemmatizer_passes"; "max_useless_passes"; "guess_mass"; "beam";
    "beam_mass"; "regularization"; "delta"; "sigma"; "use_label_dictionary" ].

(** The values [store] writes: every field converted to [float]. *)
Definition store_fields (this : TaggerOptions) : list IEEE.float :=
  [ IEEE.float_of_Z (estimator this);
    IEEE.float_of_Z (inference this);
    IEEE.float_of_Z (suffix_length this);
    IEEE.float_of_Z (degree this);
    IEEE.float_of_Z (max_train_passes this);
    IEEE.float_of_Z (max_lemmatizer_passes this);
    IEEE.float_of_Z (max_useless_passes this);
    guess_mass this;
    IEEE.float_of_Z (beam this);
    beam_mass this;
    IEEE.float_of_Z (regularization this);
    delta this;
    sigma this;
    IEEE.float_of_Z (CInt.of_bool (use_label_dictionary this)) ].

(** The line [load] writes to [msg_out] for a name it does not know. *)
Definition unknown_parameter_message (name : string) : string :=
  "Found unknown parameter name " ++ name ++ ". "
    ++ "Please, update your FinnPos version." ++ String LF EmptyString.

(** One round of the loop of [load]: the chain of comparisons of
    [field_names[i]], on the record and the message stream. *)
Definition load_field (name : string) (value : IEEE.float)
  (st : TaggerOptions * string) : TaggerOptions * string :=
  let '(this, msg_out) := st in
  if String.eqb name "estimator" then
    (set_estimator (IEEE.uint_of_float value) this, msg_out)
  else if String.eqb name "inference" then
    (set_inference (IEEE.uint_of_float value) this, msg_out)
  else if String.eqb name "suffix_length" then
    (set_suffix_length (IEEE.uint_of_float value) this, msg_out)
  else if String.eqb name "degree" then
    (set_degree (IEEE.uint_of_float value) this, msg_out)
  else if String.eqb name "max_train_passes" then
    (set_max_train_passes (IEEE.uint_of_float value) this, msg_out)
  else if String.eqb name "max_lemmatizer_passes" then
    (set_max_lemmatizer_passes (IEEE.uint_of_float value) this, msg_out)
  else if String.eqb name "max_useless_passes" then
    (set_max_useless_passes (IEEE.uint_of_float value) this, msg_out)
  else if String.eqb name "guess_mass" then
    (set_guess_mass value this, msg_out)
  else if String.eqb name "beam" then
    (set_beam (IEEE.sint_of_float value) this, msg_out)
  else if String.eqb name "beam_mass" then
    (set_beam_mass value this, msg_out)
  else if String.eqb name "regularization" then
    (set_regularization (IEEE.uint_of_float value) this, msg_out)
  else if String.eqb name "delta" then
    (set_delta value this, msg_out)
  else if String.eqb name "sigma" then
    (set_sigma value this, msg_out)
  else if String.eqb name "use_label_dictionary" then
    (set_use_label_dictionary (CInt.to_bool (IEEE.uint_of_float value)) this, msg_out)
  else
    (this, msg_out ++ unknown_parameter_message name).

(** The loop [for (i = 0; i < field_names.size(); ++i)] over the two
    vectors, which have the same size when the loop is reached. *)
Fixpoint load_fields (field_names : list string) (fields : list IEEE.float)
  (st : TaggerOptions * string) : TaggerOptions * string :=
  match field_names, fields with
  | name :: field_names', value :: fields' =>
      load_fields field_names' fields' (load_field name value st)
  | _, _ => st
  end.

Section Codec.

Context {io : VectorIO}.

(** What a call of [load] leaves behind: how it ended, the record it was
    called on, the message stream, the input stream. *)
Record load_end : Type := mk_load_end {
  load_outcome : result unit;
  this_after : TaggerOptions;
  msg_out_after : string;
  in_after : bin_istream
}.

(** [void TaggerOptions::store(std::ostream &out) const]. *)
Definition store (this : TaggerOptions) (out : bin_ostream) : bin_ostream :=
  write_vector_float (write_vector_string out store_field_names) (store_fields this).

(** [void TaggerOptions::load(std::istream &in, std::ostream &msg_out,
    bool reverse_bytes)]. *)
Definition load (this : TaggerOptions) (i : bin_istream) (msg_out : string)
  (reverse_bytes : bool) : load_end :=
  let '(field_names, i1) := read_vector_string i reverse_bytes in
  let '(fields, i2) := read_vector_float i1 reverse_bytes in
  if fail i2 then mk_load_end (Throw ReadFailed) this msg_out i2
  else if negb (List.length field_names =? List.length fields)%nat then
    mk_load_end (Throw BadBinary) this msg_out i2
  else
    let '(this', msg_out') := load_fields field_names fields (this, msg_out) in
    mk_load_end (Return tt) this' msg_out' i2.

End Codec.

(* ================================================================== *)
(** * Equality *)

(** An object in memory: where it is and what it holds. *)
Record object : Type := mk_object {
  address : N;
  contents : TaggerOptions
}.

(** [bool TaggerOptions::operator==(const TaggerOptions &another) const]. *)
Definition operator_eq (this another : object) : bool :=
  if (address this =? address another)%N then true
  else
    let a := contents this in
    let b := contents another in
    (estimator a =? estimator b) &&
    (inference a =? inference b) &&
    (suffix_length a =? suffix_length b) &&
    (degree a =? degree b) &&
    (max_train_passes a =? max_train_passes b) &&
    (max_lemmatizer_passes a =? max_lemmatizer_passes b) &&
    float_eq (guess_mass a) (guess_mass b) &&
    (beam a =? beam b) &&
    float_eq (beam_mass a) (beam_mass b) &&
    (regularization a =? regularization b) &&
    float_eq (delta a) (delta b) &&
    float_eq (sigma a) (sigma b) &&
    Bool.eqb (use_label_dictionary a) (use_label_dictionary b).

(* ================================================================== *)
(** * The fields as a table

    Both the constructor and [load] are chains of tests, one per field,
    in the order of the record. The definitions below name the fields
    and say, per field, what each chain does; the lemmas of the next
    part show that the chains are these tables. *)

Inductive field : Type :=
| F_estimator | F_inference | F_suffix_length | F_degree
| F_max_train_passes | F_max_lemmatizer_passes | F_max_useless_passes
| F_guess_mass | F_beam | F_beam_mass | F_regularization | F_delta
| F_sigma | F_use_label_dictionary.

Definition all_fields : list field :=
  [ F_estimator; F_inference; F_suffix_length; F_degree; F_max_train_passes;
    F_max_lemmatizer_passes; F_max_useless_passes; F_guess_mass; F_beam;
    F_beam_mass; F_regularization; F_delta; F_sigma; F_use_label_dictionary ].

Definition field_eqb (a b : field) : bool :=
  match a, b with
  | F_estimator, F_estimator | F_inference, F_inference
  | F_suffix_length, F_suffix_length | F_degree, F_degree
  | F_max_train_passes, F_max_train_passes
  | F_max_lemmatizer_passes, F_max_lemmatizer_passes
  | F_max_useless_passes, F_max_useless_passes
  | F_guess_mass, F_guess_mass | F_beam, F_beam | F_beam_mass, F_beam_mass
  | F_regularization, F_regularization | F_delta, F_delta
  | F_sigma, F_sigma | F_use_label_dictionary, F_use_label_dictionary => true
  | _, _ => false
  end.

(** The name [store] writes and [load] compares with. *)
Definition field_name (f : field) : string :=
  match f with
  | F_estimator => "estimator"
  | F_inference => "inference"
  | F_suffix_length => "suffix_length"
  | F_degree => "degree"
  | F_max_train_passes => "max_train_passes"
  | F_max_lemmatizer_passes => "max_lemmatizer_passes"
  | F_max_useless_passes => "max_useless_passes"
  | F_guess_mass => "guess_mass"
  | F_beam => "beam"
  | F_beam_mass => "beam_mass"
  | F_regularization => "regularization"
  | F_delta => "delta"
  | F_sigma => "sigma"
  | F_use_label_dictionary => "use_label_dictionary"
  end.

(** The identifier the constructor looks for in a line. *)
Definition field_id (f : field) : string :=
  match f with
  | F_estimator => estimator_id
  | F_inference => inference_id
  | F_suffix_length => suffix_length_id
  | F_degree => degree_id
  | F_max_train_passes => max_train_passes_id
  | F_max_lemmatizer_passes => max_lemmatizer_passes_id
  | F_max_useless_passes => max_useless_passes_id
  | F_guess_mass => guess_mass_id
  | F_beam => beam_id
  | F_beam_mass => beam_mass_id
  | F_regularization => regularization_id
  | F_delta => delta_id
  | F_sigma => sigma_id
  | F_use_label_dictionary => use_label_dictionary_id
  end.

(** What a field holds. *)
Inductive value : Type :=
| V_int (z : Z)
| V_float (x : IEEE.float)
| V_bool (b : bool).

(** The value of a field of a record. *)
Definition get_field (f : field) (r : TaggerOptions) : value :=
  match f with
  | F_estimator => V_int (estimator r)
  | F_inference => V_int (inference r)
  | F_suffix_length => V_int (suffix_length r)
  | F_degree => V_int (degree r)
  | F_max_train_passes => V_int (max_train_passes r)
  | F_max_lemmatizer_passes => V_int (max_lemmatizer_passes r)
  | F_max_useless_passes => V_int (max_useless_passes r)
  | F_guess_mass => V_float (guess_mass r)
  | F_beam => V_int (beam r)
  | F_beam_mass => V_float (beam_mass r)
  | F_regularization => V_int (regularization r)
  | F_delta => V_float (delta r)
  | F_sigma => V_float (sigma r)
  | F_use_label_dictionary => V_bool (use_label_dictionary r)
  end.

(** [static_cast] of a loaded [float] to the type of the field. *)
Definition cast (f : field) (x : IEEE.float) : value :=
  match f with
  | F_guess_mass | F_beam_mass | F_delta | F_sigma => V_float x
  | F_beam => V_int (IEEE.sint_of_float x)
  | F_use_label_dictionary => V_bool (CInt.to_bool (IEEE.uint_of_float x))
  | _ => V_int (IEEE.uint_of_float x)
  end.

(** The assignment [load] makes for a pair whose name is that of [f]. *)
Definition load_into (f : field) (x : IEEE.float) (this : TaggerOptions)
  : TaggerOptions :=
  match f with
  | F_estimator => set_estimator (IEEE.uint_of_float x) this
  | F_inference => set_inference (IEEE.uint_of_float x) this
  | F_suffix_length => set_suffix_length (IEEE.uint_of_float x) this
  | F_degree => set_degree (IEEE.uint_of_float x) this
  | F_max_train_passes => set_max_train_passes (IEEE.uint_of_float x) this
  | F_max_lemmatizer_passes => set_max_lemmatizer_passes (IEEE.uint_of_float x) this
  | F_max_useless_passes => set_max_useless_passes (IEEE.uint_of_float x) this
  | F_guess_mass => set_guess_mass x this
  | F_beam => set_beam (IEEE.sint_of_float x) this
  | F_beam_mass => set_beam_mass x this
  | F_regularization => set_regularization (IEEE.uint_of_float x) this
  | F_delta => set_delta x this
  | F_sigma => set_sigma x this
  | F_use_label_dictionary =>
      set_use_label_dictionary (CInt.to_bool (IEEE.uint_of_float x)) this
  end.

(** The field whose name is [name], if there is one. *)
Definition field_of_name (name : string) : option field :=
  List.find (fun f => String.eqb name (field_name f)) all_fields.

Definition known (name : string) : bool :=
  match field_of_name name with
  | Some _ => true
  | None => false
  end.

(** The branch the constructor takes for a line that is neither empty
    nor a comment: the first field of the chain whose identifier occurs
    in the line. *)
Definition selected (line : string) : option field :=
  List.find (fun f => found line (field_id f)) all_fields.

(** What the constructor does with the text that follows the identifier
    of [f]. *)
Definition parse_into (f : field) (text : string) (this : TaggerOptions)
  : result TaggerOptions :=
  match f with
  | F_estimator => v <- get_estimator text ;; Return (set_estimator v this)
  | F_inference => v <- get_inference text ;; Return (set_inference v this)
  | F_suffix_length => v <- get_uint text ;; Return (set_suffix_length v this)
  | F_degree => v <- get_uint text ;; Return (set_degree v this)
  | F_max_train_passes => v <- get_uint text ;; Return (set_max_train_passes v this)
  | F_max_lemmatizer_passes =>
      v <- get_uint text ;; Return (set_max_lemmatizer_passes v this)
  | F_max_useless_passes =>
      v <- get_uint text ;; Return (set_max_useless_passes v this)
  | F_guess_mass => v <- get_float text ;; Return (set_guess_mass v this)
  | F_beam => Return (set_beam (CInt.to_sint (get_int text)) this)
  | F_beam_mass => v <- get_float text ;; Return (set_beam_mass v this)
  | F_regularization =>
      v <- get_regularization text ;; Return (set_regularization v this)
  | F_delta => v <- get_float text ;; Return (set_delta v this)
  | F_sigma => v <- get_float text ;; Return (set_sigma v this)
  | F_use_label_dictionary =>
      v <- get_uint text ;; Return (set_use_label_dictionary (CInt.to_bool v) this)
  end.

(** The fields read with [get_uint], and those read with [get_float]. *)
Definition reads_uint (f : field) : bool :=
  match f with
  | F_suffix_length | F_degree | F_max_train_passes | F_max_lemmatizer_passes
  | F_max_useless_passes | F_use_label_dictionary => true
  | _ => false
  end.

Definition reads_float (f : field) : bool :=
  match f with
  | F_guess_mass | F_beam_mass | F_delta | F_sigma => true
  | _ => false
  end.

(** The line as the loop sees it is not skipped, and the chain takes the
    branch of [f] for it. *)
Definition line_sets (line : string) (f : field) : bool :=
  match despace line with
  | EmptyString => false
  | String c _ as l =>
      negb (Ascii.eqb c "#") &&
      match selected l with
      | Some f' => field_eqb f' f
      | None => false
      end
  end.

(** The text from which the value of a line is read. *)
Definition value_text (line : string) (f : field) : string :=
  strip (despace line) (field_id f).

(* ================================================================== *)
(** * The lines a text is read as *)

(** The text cut at its line feeds. *)
Fixpoint split_lines (s : string) : list string :=
  match s with
  | EmptyString => [EmptyString]
  | String c r =>
      if Ascii.eqb c LF then EmptyString :: split_lines r
      else
        match split_lines r with
        | l :: ls => String c l :: ls
        | [] => [String c EmptyString]
        end
  end.

(** The lines the loop of the constructor gets from [std::getline], one
    per round: the lines of the text and then, as the loop tests the
    stream before it reads, the empty line that the read at the end of
    the text leaves. *)
Definition lines_read (text : string) : list string :=
  let ls := split_lines text in
  match List.last ls EmptyString with
  | EmptyString => ls
  | String _ _ => ls ++ [EmptyString]
  end.

(** The loop over the lines: the outcome and the counter. *)
Fixpoint run_lines (ls : list string) (this : TaggerOptions) (counter : Z)
  : result TaggerOptions * Z :=
  match ls with
  | [] => (Return this, counter)
  | l :: ls' =>
      match process_line (despace l) this with
      | Return this' => run_lines ls' this' (incr counter)
      | Throw e => (Throw e, incr counter)
      end
  end.

(** A line the loop skips: empty once its blanks are removed, or a
    comment. *)
Definition skipped (line : string) : bool :=
  match despace line with
  | EmptyString => true
  | String c _ => Ascii.eqb c "#"
  end.

(** A line the loop passes without throwing. *)
Definition accepted (line : string) : bool :=
  match process_line (despace line) defaults with
  | Return _ => true
  | Throw _ => false
  end.

(** A line that is not skipped and holds none of the identifiers. *)
Definition unrecognized (line : string) : bool :=
  match despace line with
  | EmptyString => false
  | String c _ as l =>
      negb (Ascii.eqb c "#") &&
      match selected l with
      | Some _ => false
      | None => true
      end
  end.

(** The lines up to and with the first one the loop throws on. *)
Fixpoint lines_processed (ls : list string) : list string :=
  match ls with
  | [] => []
  | l :: ls' => if accepted l then l :: lines_processed ls' else [l]
  end.

(** No line feed in the text. *)
Fixpoint one_line (s : string) : bool :=
  match s with
  | EmptyString => true
  | String c r => negb (Ascii.eqb c LF) && one_line r
  end.

(** Each line followed by a line feed. *)
Definition unlines (ls : list string) : string :=
  List.fold_right (fun l acc => l ++ String LF acc) EmptyString ls.

(** What may follow a line in a text: nothing, or a line feed and more. *)
Definition ends_line (tail : string) : bool :=
  match tail with
  | EmptyString => true
  | String c _ => Ascii.eqb c LF
  end.

(** The last character of the text is an equals sign. *)
Fixpoint ends_with_equals (p : string) : bool :=
  match p with
  | EmptyString => false
  | String c EmptyString => Ascii.eqb c "="
  | String _ r => ends_with_equals r
  end.

(** No equals sign in the text. *)
Fixpoint no_equals (v : string) : bool :=
  match v with
  | EmptyString => true
  | String c r => negb (Ascii.eqb c "=") && no_equals r
  end.

(** A run of decimal digits, and the number it writes. *)
Fixpoint all_digits (s : string) : bool :=
  match s with
  | EmptyString => true
  | String c r => (48 <=? Libc.code c) && (Libc.code c <=? 57) && all_digits r
  end.

Fixpoint decimal_from (s : string) (acc : Z) : Z :=
  match s with
  | EmptyString => acc
  | String c r => decimal_from r (acc * 10 + (Libc.code c - 48))
  end.

Definition decimal_value (s : string) : Z := decimal_from s 0.

(* ================================================================== *)
(** * A reference vector reader and writer *)

Module RefIO.

(** Modelled from the spec: [write_vector] and [read_vector] of io.hh,
    which is not among the sources. The spec (sections 4.2 and 6) gives
    a stream of length-prefixed homogeneous sequences, first the strings
    and then the 32-bit floating point values, and gives no byte layout;
    the streams here hold the values themselves: a length, then that
    many elements. They stand for streams read with the [reverse_bytes]
    that fits their writer, so the flag is not looked at. A read that
    does not find a length and that many elements of its type sets
    [failbit], and a stream whose [failbit] is set reads nothing. *)
Inductive datum : Type :=
| Size (n : nat)
| Text (s : string)
| Number (x : IEEE.float).

Record stream : Type := mk_stream {
  data : list datum;
  failed : bool
}.

Fixpoint take_strings (n : nat) (d : list datum) : option (list string * list datum) :=
  match n with
  | O => Some ([], d)
  | S n' =>
      match d with
      | Text s :: d' =>
          match take_strings n' d' with
          | Some (l, rest) => Some (s :: l, rest)
          | None => None
          end
      | _ => None
      end
  end.

Fixpoint take_floats (n : nat) (d : list datum) : option (list IEEE.float * list datum) :=
  match n with
  | O => Some ([], d)
  | S n' =>
      match d with
      | Number x :: d' =>
          match take_floats n' d' with
          | Some (l, rest) => Some (x :: l, rest)
          | None => None
          end
      | _ => None
      end
  end.

Definition read_with {A : Type} (take : nat -> list datum -> option (list A * list datum))
  (i : stream) (reverse_bytes : bool) : list A * stream :=
  if failed i then ([], i)
  else
    match data i with
    | Size n :: d =>
        match take n d with
        | Some (l, rest) => (l, mk_stream rest false)
        | None => ([], mk_stream d true)
        end
    | _ => ([], mk_stream (data i) true)
    end.

Definition write_strings (o : list datum) (v : list string) : list datum :=
  o ++ Size (List.length v) :: List.map Text v.

Definition write_floats (o : list datum) (v : list IEEE.float) : list datum :=
  o ++ Size (List.length v) :: List.map Number v.

#[export] Instance io : VectorIO := {|
  bin_istream := stream;
  bin_ostream := list datum;
  fail := failed;
  read_vector_string := read_with take_strings;
  read_vector_float := read_with take_floats;
  write_vector_string := write_strings;
  write_vector_float := write_floats;
  ostringstream := [];
  str_istringstream := fun o => mk_stream o false
|}.

(** A binary record: the two vectors, in a stream ready to be read. *)
Definition binary (names : list string) (values : list IEEE.float) : stream :=
  str_istringstream (write_vector_float (write_vector_string ostringstream names) values).

End RefIO.

(** What [load] needs of the reader and the writer for a record to come
    back: the two vectors written to an empty [std::ostringstream] are
    the vectors read, in the same byte order, from a
    [std::istringstream] on its text, and the stream is left without
    fault. *)
Definition reads_back (io : VectorIO) : Prop :=
  forall (names : list string) (values : list IEEE.float),
    exists i1 i2 : bin_istream,
      read_vector_string
        (str_istringstream
           (write_vector_float (write_vector_string ostringstream names) values))
        false = (names, i1) /\
      read_vector_float i1 false = (values, i2) /\
      fail i2 = false.

(** [store] to a fresh [std::ostringstream], then [load] from its text
    into the record [fresh], with [msg_out] empty and [reverse_bytes]
    false: the test at the end of [main]. *)
Definition store_then_load {io : VectorIO} (r fresh : TaggerOptions) : load_end :=
  load fresh (str_istringstream (store r ostringstream)) EmptyString false.

(** The records that [store] writes without loss. *)
Record storable (r : TaggerOptions) : Prop := {
  st_estimator : 0 <= estimator r <= 2 ^ 24;
  st_inference : 0 <= inference r <= 2 ^ 24;
  st_suffix_length : 0 <= suffix_length r <= 2 ^ 24;
  st_degree : 0 <= degree r <= 2 ^ 24;
  st_max_train_passes : 0 <= max_train_passes r <= 2 ^ 24;
  st_max_lemmatizer_passes : 0 <= max_lemmatizer_passes r <= 2 ^ 24;
  st_max_useless_passes : 0 <= max_useless_passes r <= 2 ^ 24;
  st_beam : - 2 ^ 24 <= beam r <= 2 ^ 24;
  st_regularization : 0 <= regularization r <= 2 ^ 24;
  st_guess_mass : IEEE.is_finite (guess_mass r) = true;
  st_beam_mass : IEEE.is_finite (beam_mass r) = true;
  st_delta : IEEE.is_finite (delta r) = true;
  st_sigma : IEEE.is_finite (sigma r) = true
}.

(** The effect of one (name, value) pair on the record: the assignment
    of its field when the name is known, nothing otherwise. *)
Definition assign_pair (p : string * IEEE.float) (r : TaggerOptions) : TaggerOptions :=
  match field_of_name (fst p) with
  | Some f => load_into f (snd p) r
  | None => r
  end.

(** The pairs applied one after the other, from the first to the last. *)
Definition assign_all (pairs : list (string * IEEE.float)) (r : TaggerOptions)
  : TaggerOptions :=
  List.fold_left (fun acc p => assign_pair p acc) pairs r.

(** The pairs whose name is known, in the order of the input. *)
Definition known_pairs (names : list string) (values : list IEEE.float)
  : list (string * IEEE.float) :=
  List.filter (fun p => known (fst p)) (List.combine names values).

(** The text written to [msg_out]: one message per unknown name, in the
    order of the input. *)
Definition diagnostics (names : list string) : string :=
  List.fold_right (fun n acc => unknown_parameter_message n ++ acc) EmptyString
    (List.filter (fun n => negb (known n)) names).

(** The two vectors [load] reads and the stream they leave. *)
Definition read_vectors {io : VectorIO} (i : bin_istream) (reverse_bytes : bool)
  : list string * list IEEE.float * bin_istream :=
  let '(field_names, i1) := read_vector_string i reverse_bytes in
  let '(fields, i2) := read_vector_float i1 reverse_bytes in
  (field_names, fields, i2).

(* ================================================================== *)
(** * Blanks, tokens and stored values *)



(** The first character is the comment mark. *)
Definition starts_comment (s : string) : bool :=
  match s with
  | String c _ => Ascii.eqb c "#"
  | EmptyString => false
  end.

(** The three fields read with an enumeration reader, and the tokens
    each reader tests, in the order it tests them, with the enumerator
    it returns. *)
Definition reads_enum (f : field) : bool :=
  match f with
  | F_estimator | F_inference | F_regularization => true
  | _ => false
  end.

Definition enum_tokens (f : field) : list (string * Z) :=
  match f with
  | F_estimator => [ ("AVG_PERC", AVG_PERC); ("ML", ML) ]
  | F_inference => [ ("MAP", MAP); ("MARGINAL", MARGINAL) ]
  | F_regularization => [ ("NONE", NONE); ("L1", L1); ("L2", L2) ]
  | _ => []
  end.

(** The [float] that [store] writes for a field. *)
Definition stored_value (f : field) (r : TaggerOptions) : IEEE.float :=
  match f with
  | F_estimator => IEEE.float_of_Z (estimator r)
  | F_inference => IEEE.float_of_Z (inference r)
  | F_suffix_length => IEEE.float_of_Z (suffix_length r)
  | F_degree => IEEE.float_of_Z (degree r)
  | F_max_train_passes => IEEE.float_of_Z (max_train_passes r)
  | F_max_lemmatizer_passes => IEEE.float_of_Z (max_lemmatizer_passes r)
  | F_max_useless_passes => IEEE.float_of_Z (max_useless_passes r)
  | F_guess_mass => guess_mass r
  | F_beam => IEEE.float_of_Z (beam r)
  | F_beam_mass => beam_mass r
  | F_regularization => IEEE.float_of_Z (regularization r)
  | F_delta => delta r
  | F_sigma => sigma r
  | F_use_label_dictionary => IEEE.float_of_Z (CInt.of_bool (use_label_dictionary r))
  end.

(** The four [float] fields of a record are finite. *)
Definition floats_finite (r : TaggerOptions) : bool :=
  IEEE.is_finite (guess_mass r) && IEEE.is_finite (beam_mass r) &&
  IEEE.is_finite (delta r) && IEEE.is_finite (sigma r).

(** The first [n] characters of a string. *)
Fixpoint take (n : nat) (s : string) : string :=
  match n, s with
  | S n', String c r => String c (take n' r)
  | _, _ => EmptyString
  end.

(** A digit of base ten. *)
Definition is_digit (c : ascii) : bool :=
  (48 <=? Libc.code c) && (Libc.code c <=? 57).

(** The first character is a digit of base ten. *)
Definition starts_with_digit (s : string) : bool :=
  match s with
  | String c _ => is_digit c
  | EmptyString => false
  end.

(** The first character is one that [strtol] or [strtod] may read as
    the start of a number: a digit, white space, a sign, a point, or
    the first letter of [inf] and [nan] in either case. *)
Definition may_start_number (s : string) : bool :=
  match s with
  | EmptyString => false
  | String c _ =>
      is_digit c || Libc.isspace c || Ascii.eqb c "-" || Ascii.eqb c "+" ||
      Ascii.eqb c "." || Ascii.eqb (Libc.lower c) "i" || Ascii.eqb (Libc.lower c) "n"
  end.

(** The line feeds of a text, and whether the text stops in the middle
    of a line. *)
Fixpoint line_feeds (s : string) : nat :=
  match s with
  | EmptyString => O
  | String c r => if Ascii.eqb c LF then S (line_feeds r) else line_feeds r
  end.

Fixpoint unfinished (s : string) : bool :=
  match s with
  | EmptyString => false
  | String c EmptyString => negb (Ascii.eqb c LF)
  | String _ r => unfinished r
  end.

(* ================================================================== *)
(** * Sample inputs *)

Module Samples.

(** The first five lines of the faulty text of the test in the source
    file, and its sixth line, whose key is misspelt. *)
Definition five_lines : list string :=
  [ "sigma = 1"; "delta = 2"; "regularization=L1"; "beam=3"; "guess_mass=0.9999" ].

Definition misspelt_line : string := "max_useless_passeSSS =5".

Definition after_misspelt_line : string :=
  String LF ("max_train_passes =6" ++ String LF EmptyString).

(** A text of a comment, a blank line and an empty line. *)
Definition comments_only : string := unlines [ "# tagger options"; "   "; "" ].

(** Two objects that differ in [max_useless_passes] only. *)
Definition three_passes : object := mk_object 1 defaults.
Definition four_passes : object := mk_object 2 (set_max_useless_passes 4 defaults).

(** A record with a suffix length one above 2^24. *)
Definition long_suffix : TaggerOptions := set_suffix_length 16777217 defaults.

(** A binary record with a name that [load] does not know, and one whose
    two vectors differ in length. *)
Definition with_unknown_name : RefIO.stream :=
  RefIO.binary [ "degree"; "use_unstructured_sl"; "beam" ]
               [ IEEE.float_of_Z 4; IEEE.float_of_Z 1; IEEE.float_of_Z 20 ].

Definition short_of_a_value : RefIO.stream :=
  RefIO.binary [ "degree"; "beam" ] [ IEEE.float_of_Z 4 ].

(** A binary record that names [degree] twice. *)
Definition degree_twice : RefIO.stream :=
  RefIO.binary [ "degree"; "beam"; "degree" ]
               [ IEEE.float_of_Z 4; IEEE.float_of_Z 20; IEEE.float_of_Z 5 ].

End Samples.

(* ================================================================== *)
(** * Properties *)

(** ** Strings *)

Lemma append_nil_r (s : string) : s ++ "" = s.
Proof. induction s; simpl; congruence. Qed.

Lemma append_assoc (a b c : string) : (a ++ b) ++ c = a ++ b ++ c.
Proof. induction a; simpl; congruence. Qed.

(** ** Conversions between integers and [float] *)

Module FloatFacts.
Import IEEE.

Lemma digits2_pos_bounds (p : positive) :
  2 ^ (Zpos (digits2_pos p) - 1) <= Zpos p < 2 ^ Zpos (digits2_pos p).
Proof.
  induction p as [p IH | p IH | ]; simpl digits2_pos.
  - rewrite Pos2Z.inj_succ.
    replace (Z.succ (Zpos (digits2_pos p)) - 1) with (Z.succ (Zpos (digits2_pos p) - 1)) by lia.
    rewrite !Z.pow_succ_r by lia. lia.
  - rewrite Pos2Z.inj_succ.
    replace (Z.succ (Zpos (digits2_pos p)) - 1) with (Z.succ (Zpos (digits2_pos p) - 1)) by lia.
    rewrite !Z.pow_succ_r by lia. lia.
  - simpl. lia.
Qed.

Lemma iter_xO_digits (k p : positive) :
  digits2_pos (Pos.iter xO p k) = (digits2_pos p + k)%positive.
Proof.
  induction k as [ | k IH] using Pos.peano_ind.
  - simpl. lia.
  - rewrite Pos.iter_succ. simpl. rewrite IH. lia.
Qed.

Lemma iter_xO_value (k p : positive) :
  Zpos (Pos.iter xO p k) = Zpos p * 2 ^ Zpos k.
Proof.
  induction k as [ | k IH] using Pos.peano_ind.
  - simpl. lia.
  - rewrite Pos.iter_succ, Pos2Z.inj_xO, IH, Pos2Z.inj_succ, Z.pow_succ_r by lia. lia.
Qed.

Lemma shr_fexp_full (m : positive) (e : Z) :
  Zpos (digits2_pos m) = float_prec -> -149 <= e ->
  shr_fexp float_prec float_emax (Zpos m) e loc_Exact =
  (Build_shr_record (Zpos m) false false, e).
Proof.
  intros Hd He. unfold shr_fexp.
  assert (Hz : fexp float_prec float_emax (Zdigits2 (Zpos m) + e) - e = 0).
  { unfold Zdigits2. rewrite Hd. unfold fexp, emin, float_prec, float_emax. lia. }
  rewrite Hz. reflexivity.
Qed.

(** A mantissa of full width within the exponent range is kept as it is. *)
Lemma binary_round_aux_full (s : bool) (m : positive) (e : Z) :
  Zpos (digits2_pos m) = float_prec -> -149 <= e <= 104 ->
  binary_round_aux float_prec float_emax s (Zpos m) e loc_Exact = S754_finite s m e.
Proof.
  intros Hd He.
  unfold binary_round_aux. rewrite shr_fexp_full by (assumption || lia).
  cbn [shr_m loc_of_shr_record round_nearest_even].
  rewrite shr_fexp_full by (assumption || lia).
  cbn [shr_m]. unfold float_emax, float_prec.
  destruct (Z.leb_spec e (128 - 24)); [reflexivity | lia].
Qed.

Lemma round_float_small (s : bool) (p : positive) :
  Zpos p < 2 ^ 24 ->
  exists m e, binary_round float_prec float_emax s p 0 = S754_finite s m e /\
              -23 <= e <= 0 /\ Zpos m = Zpos p * 2 ^ (- e).
Proof.
  intros Hp. pose proof (digits2_pos_bounds p) as Hb.
  assert (Hd : Zpos (digits2_pos p) <= 24).
  { destruct (Z.le_gt_cases (Zpos (digits2_pos p)) 24) as [H | H]; [exact H | ].
    assert (2 ^ 24 <= 2 ^ (Zpos (digits2_pos p) - 1)) by (apply Z.pow_le_mono_r; lia). lia. }
  unfold binary_round. unfold fexp at 1, emin, float_prec, float_emax.
  rewrite Z.add_0_r.
  replace (Z.max (Zpos (digits2_pos p) - 24) (3 - 128 - 24)) with (Zpos (digits2_pos p) - 24) by lia.
  unfold shl_align. rewrite Z.sub_0_r.
  destruct (Zpos (digits2_pos p) - 24) as [ | k | k] eqn:Hk; try lia.
  - exists p, 0. split; [ | split; [lia | simpl; lia]].
    apply (binary_round_aux_full s p 0); unfold float_prec; lia.
  - exists (Pos.iter xO p k), (Zneg k). split; [ | split].
    + apply binary_round_aux_full; [ | lia].
      rewrite iter_xO_digits. unfold float_prec. lia.
    + lia.
    + rewrite iter_xO_value. reflexivity.
Qed.

Lemma truncate_float_of_Z (z : Z) :
  Z.abs z <= 2 ^ 24 -> truncate (float_of_Z z) = Some z.
Proof.
  intros Hz.
  assert (Hc : Z.abs z = 2 ^ 24 \/ Z.abs z < 2 ^ 24) by lia.
  destruct Hc as [Hc | Hc].
  - assert (Hz' : z = 2 ^ 24 \/ z = - 2 ^ 24) by lia.
    destruct Hz' as [-> | ->]; reflexivity.
  - destruct z as [ | p | p]; [reflexivity | | ];
      unfold float_of_Z, round_float, binary_normalize.
    + destruct (round_float_small false p) as (m & e & -> & He & Hm); [lia | ].
      unfold truncate, cond_Zopp. destruct (Z.leb_spec 0 e).
      * replace e with 0 in * by lia. simpl in Hm. f_equal. lia.
      * rewrite Hm, Z.div_mul; [reflexivity | ]. apply Z.pow_nonzero; lia.
    + destruct (round_float_small true p) as (m & e & -> & He & Hm); [lia | ].
      unfold truncate, cond_Zopp. destruct (Z.leb_spec 0 e).
      * replace e with 0 in * by lia. simpl in Hm. f_equal. lia.
      * rewrite Hm, Z.div_mul; [reflexivity | ]. apply Z.pow_nonzero; lia.
Qed.

Lemma uint_of_float_of_Z (z : Z) :
  0 <= z <= 2 ^ 24 -> uint_of_float (float_of_Z z) = z.
Proof.
  intros Hz. unfold uint_of_float. rewrite truncate_float_of_Z by lia.
  unfold CInt.LONG_MIN, CInt.LONG_MAX, CInt.to_uint, CInt.UINT_MOD.
  destruct (Z.leb_spec (- 2 ^ 63) z); [ | lia].
  destruct (Z.leb_spec z (2 ^ 63 - 1)); [ | lia].
  simpl andb. cbv iota. apply Z.mod_small. lia.
Qed.

Lemma sint_of_float_of_Z (z : Z) :
  - 2 ^ 24 <= z <= 2 ^ 24 -> sint_of_float (float_of_Z z) = z.
Proof.
  intros Hz. unfold sint_of_float. rewrite truncate_float_of_Z by lia.
  unfold CInt.INT_MIN, CInt.INT_MAX.
  destruct (Z.leb_spec (- 2 ^ 31) z); [ | lia].
  destruct (Z.leb_spec z (2 ^ 31 - 1)); [ | lia].
  reflexivity.
Qed.

(** A finite number differs from itself by [+0], which is below 0.001. *)
Lemma float_eq_refl (x : float) : is_finite x = true -> float_eq x x = true.
Proof.
  destruct x as [s | s | | s m e]; simpl; try discriminate; intros _.
  - destruct s; reflexivity.
  - unfold float_eq, float_sub, SFsub.
    rewrite Z.min_id. unfold shl_align. rewrite Z.sub_diag. cbn [fst].
    reflexivity.
Qed.

End FloatFacts.

(** ** The chain of [load] *)

Lemma field_of_name_field_name (f : field) : field_of_name (field_name f) = Some f.
Proof. destruct f; reflexivity. Qed.

Lemma field_of_name_sound (name : string) (f : field) :
  field_of_name name = Some f -> name = field_name f.
Proof.
  unfold field_of_name. intros H. apply List.find_some in H.
  destruct H as [_ H]. apply String.eqb_eq in H. exact H.
Qed.

(** The chain of [load] is the table [load_into]. *)
Lemma load_field_table (name : string) (x : IEEE.float) (this : TaggerOptions) (msg : string) :
  load_field name x (this, msg) =
  match field_of_name name with
  | Some f => (load_into f x this, msg)
  | None => (this, msg ++ unknown_parameter_message name)
  end.
Proof.
  unfold load_field, field_of_name, all_fields.
  cbn [List.find field_name load_into].
  repeat (match goal with
          | |- context [String.eqb name ?s] => destruct (String.eqb name s); [reflexivity | ]
          end).
  reflexivity.
Qed.

Lemma get_load_into (f : field) (x : IEEE.float) (r : TaggerOptions) :
  get_field f (load_into f x r) = cast f x.
Proof. destruct f; reflexivity. Qed.

Lemma get_load_into_other (f g : field) (x : IEEE.float) (r : TaggerOptions) :
  f <> g -> get_field g (load_into f x r) = get_field g r.
Proof. intros H. destruct f, g; try reflexivity; contradiction H; reflexivity. Qed.

Lemma load_fields_spec (names : list string) (values : list IEEE.float) :
  List.length names = List.length values ->
  forall (this : TaggerOptions) (msg : string),
    load_fields names values (this, msg) =
    (assign_all (List.combine names values) this, msg ++ diagnostics names).
Proof.
  revert values. induction names as [ | n names IH]; intros [ | v values] Hlen this msg;
    try discriminate.
  - unfold diagnostics. simpl. now rewrite append_nil_r.
  - injection Hlen as Hlen. cbn [load_fields]. rewrite load_field_table.
    unfold assign_all, assign_pair, diagnostics, known in *.
    cbn [List.combine List.fold_left fst snd List.filter].
    destruct (field_of_name n) as [f | ]; cbn [negb List.fold_right].
    + apply IH. exact Hlen.
    + rewrite IH by exact Hlen. now rewrite append_assoc.
Qed.

Lemma assign_all_app (p q : list (string * IEEE.float)) (r : TaggerOptions) :
  assign_all (p ++ q) r = assign_all q (assign_all p r).
Proof. unfold assign_all. apply List.fold_left_app. Qed.

(** Pairs with an unknown name change nothing. *)
Lemma assign_all_known (pairs : list (string * IEEE.float)) (r : TaggerOptions) :
  assign_all pairs r = assign_all (List.filter (fun p => known (fst p)) pairs) r.
Proof.
  revert r. induction pairs as [ | p pairs IH]; intros r; [reflexivity | ].
  cbn [List.filter]. unfold known.
  destruct (field_of_name (fst p)) as [f | ] eqn:E.
  - unfold assign_all in *. cbn [List.fold_left]. apply IH.
  - unfold assign_all in *. cbn [List.fold_left]. unfold assign_pair at 2. rewrite E. apply IH.
Qed.

(** Pairs that do not name [f] leave the field [f] as it was. *)
Lemma assign_all_other (f : field) (pairs : list (string * IEEE.float)) :
  List.Forall (fun p => fst p <> field_name f) pairs ->
  forall r, get_field f (assign_all pairs r) = get_field f r.
Proof.
  induction 1 as [ | p pairs Hp _ IH]; intros r; [reflexivity | ].
  unfold assign_all in *. cbn [List.fold_left]. rewrite IH.
  unfold assign_pair. destruct (field_of_name (fst p)) as [g | ] eqn:E; [ | reflexivity].
  apply get_load_into_other. intros ->. apply Hp. now apply field_of_name_sound.
Qed.

Lemma assign_all_last (f : field) (x : IEEE.float)
  (before after : list (string * IEEE.float)) (r : TaggerOptions) :
  List.Forall (fun p => fst p <> field_name f) after ->
  get_field f (assign_all (before ++ (field_name f, x) :: after) r) = cast f x.
Proof.
  intros H. rewrite assign_all_app.
  change ((field_name f, x) :: after) with (List.app [(field_name f, x)] after).
  rewrite assign_all_app, assign_all_other by exact H.
  unfold assign_all, assign_pair. cbn [List.fold_left fst snd].
  rewrite field_of_name_field_name. apply get_load_into.
Qed.

Section LoadFacts.
Context {io : VectorIO}.

Lemma load_unfold (this : TaggerOptions) (i : bin_istream) (msg : string) (rb : bool) :
  load this i msg rb =
  let '(names, values, i2) := read_vectors i rb in
  if fail i2 then mk_load_end (Throw ReadFailed) this msg i2
  else if negb (List.length names =? List.length values)%nat then
    mk_load_end (Throw BadBinary) this msg i2
  else mk_load_end (Return tt) (assign_all (List.combine names values) this)
         (msg ++ diagnostics names) i2.
Proof.
  unfold load, read_vectors.
  destruct (read_vector_string i rb) as [names i1].
  destruct (read_vector_float i1 rb) as [values i2].
  destruct (fail i2); [reflexivity | ].
  destruct (Nat.eqb_spec (List.length names) (List.length values)) as [E | E]; [ | reflexivity].
  cbn [negb]. rewrite load_fields_spec by exact E. reflexivity.
Qed.

End LoadFacts.

(** ** The chain of the constructor *)

(** [strip] calls [substr] within the string: an occurrence of the
    prefix ends inside it. *)
Lemma find_in_range (pat str : string) (pos : nat) :
  find str pat = Some pos -> (pos + String.length pat <= String.length str)%nat.
Proof.
  assert (Hs : forall p s, starts_with p s = true -> (String.length p <= String.length s)%nat).
  { induction p as [ | a p IH]; intros [ | b s] H; cbn in *; try lia; try discriminate.
    apply andb_true_iff in H as [_ H]. apply IH in H. lia. }
  revert pos. induction str as [ | c str IH]; intros pos; cbn [find].
  - destruct (starts_with pat EmptyString) eqn:E; [ | discriminate].
    intros [= <-]. apply Hs in E. simpl in *. lia.
  - destruct (starts_with pat (String c str)) eqn:E.
    + intros [= <-]. apply Hs in E. simpl in *. lia.
    + destruct (find str pat) as [q | ]; [ | discriminate].
      intros [= <-]. specialize (IH q eq_refl). simpl. lia.
Qed.

(** The chain of the constructor is the table [parse_into]. *)
Lemma assign_line_table (line : string) (this : TaggerOptions) :
  assign_line line this =
  match selected line with
  | Some f => parse_into f (strip line (field_id f)) this
  | None => Throw SyntaxError
  end.
Proof.
  unfold assign_line, selected, all_fields.
  cbn [List.find field_id parse_into].
  repeat (match goal with
          | |- context [found line ?s] => destruct (found line s); [reflexivity | ]
          end).
  reflexivity.
Qed.

(** Whether a line is passed, and with which exception it is not, does
    not depend on the record. *)
Lemma parse_into_throw (f : field) (text : string) (this this' : TaggerOptions) (e : exn) :
  parse_into f text this = Throw e -> parse_into f text this' = Throw e.
Proof.
  destruct f; cbn [parse_into]; unfold bind;
    try (destruct (get_uint text); congruence);
    try (destruct (get_float text); congruence);
    try (destruct (get_estimator text); congruence);
    try (destruct (get_inference text); congruence);
    try (destruct (get_regularization text); congruence).
Qed.

Lemma process_line_throw (l : string) (this this' : TaggerOptions) (e : exn) :
  process_line l this = Throw e -> process_line l this' = Throw e.
Proof.
  unfold process_line. destruct l as [ | c l]; [congruence | ].
  destruct (Ascii.eqb c "#"); [congruence | ].
  rewrite !assign_line_table. destruct (selected (String c l)); [ | congruence].
  apply parse_into_throw.
Qed.

Lemma accepted_returns (line : string) (this : TaggerOptions) :
  accepted line = true -> exists this', process_line (despace line) this = Return this'.
Proof.
  unfold accepted. intros H.
  destruct (process_line (despace line) this) as [this' | e] eqn:E; [eauto | ].
  rewrite (process_line_throw _ _ defaults _ E) in H. discriminate.
Qed.

Lemma unrecognized_throws (line : string) (this : TaggerOptions) :
  unrecognized line = true -> process_line (despace line) this = Throw SyntaxError.
Proof.
  unfold unrecognized, process_line. destruct (despace line) as [ | c l]; [discriminate | ].
  destruct (Ascii.eqb c "#"); [discriminate | ]. cbn [negb andb].
  rewrite assign_line_table. destruct (selected (String c l)); [discriminate | reflexivity].
Qed.

Lemma line_sets_process (line : string) (f : field) (this : TaggerOptions) :
  line_sets line f = true ->
  process_line (despace line) this = parse_into f (value_text line f) this.
Proof.
  unfold line_sets, process_line, value_text. destruct (despace line) as [ | c l]; [discriminate | ].
  destruct (Ascii.eqb c "#"); [discriminate | ]. cbn [negb andb].
  rewrite assign_line_table. destruct (selected (String c l)) as [g | ]; [ | discriminate].
  intros H. destruct f, g; try discriminate H; reflexivity.
Qed.

(** ** Lines *)

Lemma split_lines_not_nil (s : string) : split_lines s <> [].
Proof.
  induction s as [ | c r IH]; cbn [split_lines]; [discriminate | ].
  destruct (Ascii.eqb c LF); [discriminate | ].
  destruct (split_lines r); discriminate.
Qed.

Lemma read_line_split (s : string) :
  match read_line s with
  | (l, Some rest) => split_lines s = l :: split_lines rest /\
                      (String.length rest < String.length s)%nat
  | (l, None) => split_lines s = [l] /\ String.length l = String.length s
  end.
Proof.
  induction s as [ | c r IH]; cbn [read_line split_lines]; [split; reflexivity | ].
  destruct (Ascii.eqb c LF).
  - split; [reflexivity | simpl; lia].
  - destruct (read_line r) as [l [rest | ]]; cbn iota beta in IH |- *.
    + destruct IH as [IH1 IH2]. rewrite IH1. split; [reflexivity | simpl; lia].
    + destruct IH as [IH1 IH2]. rewrite IH1. split; [reflexivity | simpl; lia].
Qed.

Lemma last_cons_not_nil {A : Type} (a d : A) (l : list A) :
  l <> [] -> List.last (a :: l) d = List.last l d.
Proof. destruct l; [congruence | reflexivity]. Qed.

Lemma lines_read_step (s : string) :
  match read_line s with
  | (l, Some rest) => lines_read s = l :: lines_read rest
  | (l, None) =>
      lines_read s = match l with
                     | EmptyString => [EmptyString]
                     | String _ _ => [l; EmptyString]
                     end
  end.
Proof.
  pose proof (read_line_split s) as H. unfold lines_read.
  destruct (read_line s) as [l [rest | ]]; cbn iota beta in H |- *;
    destruct H as [H _]; rewrite H.
  - rewrite last_cons_not_nil by apply split_lines_not_nil.
    destruct (List.last (split_lines rest) EmptyString); reflexivity.
  - destruct l; reflexivity.
Qed.

(** The loop of the constructor on a fresh stream is the loop over the
    lines read. *)
Lemma parse_loop_lines (fuel : nat) :
  forall (b : string) (this : TaggerOptions) (c : Z),
    (String.length b + 2 <= fuel)%nat ->
    exists i' : istream,
      parse_loop fuel this (mk_istream b false false) c =
      Some (mk_parse_end (fst (run_lines (lines_read b) this c)) i'
                         (snd (run_lines (lines_read b) this c))).
Proof.
  induction fuel as [ | fuel IH]; intros b this c Hfuel; [lia | ].
  cbn [parse_loop good_for_loop failbit negb].
  unfold getline. cbn [eofbit failbit buffer orb].
  pose proof (read_line_split b) as Hs. pose proof (lines_read_step b) as Hl.
  destruct (read_line b) as [l [rest | ]].
  - rewrite Hl. cbn [run_lines].
    destruct (process_line (despace l) this) as [this' | e].
    + apply IH. lia.
    + eexists. reflexivity.
  - destruct Hs as [_ Hlen]. destruct l as [ | a l].
    + cbn iota in Hl. rewrite Hl. cbn [run_lines despace process_line String.length Nat.eqb].
      destruct fuel as [ | fuel]; [simpl in *; lia | ].
      cbn [parse_loop good_for_loop failbit negb fst snd]. eexists. reflexivity.
    + cbn iota in Hl. rewrite Hl. cbn [run_lines String.length Nat.eqb].
      destruct (process_line (despace (String a l)) this) as [this' | e].
      * destruct fuel as [ | fuel]; [simpl in *; lia | ].
        cbn [parse_loop good_for_loop failbit negb]. unfold getline.
        cbn [eofbit failbit buffer orb despace process_line].
        destruct fuel as [ | fuel]; [simpl in *; lia | ].
        cbn [parse_loop good_for_loop failbit negb fst snd]. eexists. reflexivity.
      * eexists. reflexivity.
Qed.

Lemma constructor_lines (text : string) (counter : Z) :
  exists i' : istream,
    TaggerOptions_of_stream (istringstream text) counter =
    Some (mk_parse_end (fst (run_lines (lines_read text) defaults counter)) i'
                       (snd (run_lines (lines_read text) defaults counter))).
Proof.
  unfold TaggerOptions_of_stream, istringstream, rounds_bound. apply parse_loop_lines.
  cbn [buffer]. lia.
Qed.

Lemma iter_incr_succ (n : nat) (c : Z) : Nat.iter n incr (incr c) = Nat.iter (S n) incr c.
Proof. induction n as [ | n IH]; [reflexivity | ]. simpl in *. now rewrite IH. Qed.

Lemma run_lines_counter (ls : list string) :
  forall (this : TaggerOptions) (c : Z),
    snd (run_lines ls this c) = Nat.iter (List.length (lines_processed ls)) incr c.
Proof.
  induction ls as [ | l ls IH]; intros this c; [reflexivity | ].
  cbn [run_lines lines_processed].
  destruct (accepted l) eqn:Ha.
  - destruct (accepted_returns l this Ha) as [this' ->].
    rewrite IH. cbn [List.length]. apply iter_incr_succ.
  - unfold accepted in Ha.
    destruct (process_line (despace l) this) as [this' | e] eqn:E.
    + destruct (process_line (despace l) defaults) as [d | e'] eqn:E'; [discriminate | ].
      rewrite (process_line_throw _ _ this _ E') in E. discriminate.
    + reflexivity.
Qed.

(** Accepted lines, then a line the loop throws on. *)
Lemma run_lines_first_throw (valid : list string) (bad : string) (more : list string) (e : exn) :
  List.Forall (fun l => accepted l = true) valid ->
  (forall this, process_line (despace bad) this = Throw e) ->
  forall (this : TaggerOptions) (c : Z),
    run_lines (List.app valid (bad :: more)) this c =
    (Throw e, Nat.iter (S (List.length valid)) incr c).
Proof.
  intros Hv Hb. induction Hv as [ | l valid Hl _ IH]; intros this c.
  - cbn [List.app run_lines]. rewrite Hb. reflexivity.
  - cbn [List.app run_lines]. destruct (accepted_returns l this Hl) as [this' ->].
    rewrite IH. cbn [List.length]. now rewrite iter_incr_succ.
Qed.

Lemma read_line_line (l rest : string) :
  one_line l = true -> read_line (l ++ String LF rest) = (l, Some rest).
Proof.
  induction l as [ | c r IH]; cbn [one_line read_line String.append].
  - now rewrite Ascii.eqb_refl.
  - destruct (Ascii.eqb c LF); [discriminate | ]. cbn [negb andb]. intros H.
    now rewrite IH.
Qed.

Lemma read_line_last (l : string) : one_line l = true -> read_line l = (l, None).
Proof.
  induction l as [ | c r IH]; cbn [one_line read_line]; [reflexivity | ].
  destruct (Ascii.eqb c LF); [discriminate | ]. cbn [negb andb]. intros H.
  now rewrite IH.
Qed.

Lemma lines_read_line (l rest : string) :
  one_line l = true -> lines_read (l ++ String LF rest) = l :: lines_read rest.
Proof.
  intros H. pose proof (lines_read_step (l ++ String LF rest)) as S.
  now rewrite read_line_line in S.
Qed.

(** ** Searching a text that ends with a value *)

Lemma prefix_no_equals (p w : string) :
  ends_with_equals p = true -> no_equals w = true -> starts_with p w = false.
Proof.
  revert w. induction p as [ | c p IH]; intros w Hp Hw; [discriminate | ].
  destruct w as [ | d w]; [reflexivity | ].
  cbn [starts_with]. cbn [no_equals] in Hw. apply andb_true_iff in Hw as [Hd Hw].
  destruct (Ascii.eqb_spec c d) as [-> | _]; [ | reflexivity].
  destruct p as [ | c' p].
  - cbn in Hp. rewrite Hp in Hd. discriminate.
  - apply IH; [exact Hp | exact Hw].
Qed.

Lemma prefix_app_no_equals (p a w : string) :
  ends_with_equals p = true -> no_equals w = true ->
  starts_with p (a ++ w) = starts_with p a.
Proof.
  revert a. induction p as [ | c p IH]; intros a Hp Hw; [discriminate | ].
  destruct a as [ | d a]; cbn [String.append].
  - rewrite prefix_no_equals by assumption. reflexivity.
  - cbn [starts_with]. destruct (Ascii.eqb_spec c d) as [-> | _]; [ | reflexivity].
    destruct p as [ | c' p]; [reflexivity | ]. apply IH; assumption.
Qed.

Lemma find_no_equals (p w : string) :
  ends_with_equals p = true -> no_equals w = true -> find w p = None.
Proof.
  intros Hp. induction w as [ | d w IH]; intros Hw.
  - destruct p; [discriminate | reflexivity].
  - cbn [find]. rewrite prefix_no_equals by assumption.
    cbn [no_equals] in Hw. apply andb_true_iff in Hw as [_ Hw].
    rewrite IH by exact Hw. reflexivity.
Qed.

Lemma find_app_no_equals (p a w : string) :
  ends_with_equals p = true -> no_equals w = true -> find (a ++ w) p = find a p.
Proof.
  intros Hp Hw. induction a as [ | d a IH].
  - cbn [String.append]. rewrite find_no_equals by assumption.
    destruct p; [discriminate | reflexivity].
  - cbn [String.append find].
    change (String d (a ++ w)) with (String d a ++ w).
    rewrite prefix_app_no_equals by assumption. rewrite IH. reflexivity.
Qed.

Lemma field_id_ends_with_equals (f : field) : ends_with_equals (field_id f) = true.
Proof. destruct f; reflexivity. Qed.

Lemma selected_app_no_equals (a w : string) :
  no_equals w = true -> selected (a ++ w) = selected a.
Proof.
  intros Hw. unfold selected, found. 
  induction all_fields as [ | g l IH]; [reflexivity | ].
  cbn [List.find]. rewrite find_app_no_equals by (apply field_id_ends_with_equals || exact Hw).
  rewrite IH. reflexivity.
Qed.

Lemma selected_field_id (f : field) : selected (field_id f) = Some f.
Proof. destruct f; vm_compute; reflexivity. Qed.

Lemma substr_app (a w : string) : substr (a ++ w) (String.length a) = w.
Proof. induction a as [ | c a IH]; [destruct w; reflexivity | exact IH]. Qed.

Lemma strip_field_id (f : field) (w : string) :
  no_equals w = true -> strip (field_id f ++ w) (field_id f) = w.
Proof.
  intros Hw. unfold strip.
  rewrite find_app_no_equals by (apply field_id_ends_with_equals || exact Hw).
  replace (find (field_id f) (field_id f)) with (Some 0%nat) by (destruct f; reflexivity).
  apply substr_app.
Qed.

Lemma despace_app (a b : string) : despace (a ++ b) = despace a ++ despace b.
Proof.
  induction a as [ | c a IH]; [reflexivity | ].
  cbn [String.append despace].
  destruct (negb (Ascii.eqb c SP) && negb (Ascii.eqb c HT) && negb (Ascii.eqb c CR));
    cbn [String.append]; now rewrite IH.
Qed.

Lemma no_equals_despace (v : string) : no_equals v = true -> no_equals (despace v) = true.
Proof.
  induction v as [ | c v IH]; [reflexivity | ].
  cbn [no_equals despace]. intros H. apply andb_true_iff in H as [Hc Hv].
  destruct (negb (Ascii.eqb c SP) && negb (Ascii.eqb c HT) && negb (Ascii.eqb c CR)).
  - cbn [no_equals]. rewrite Hc. cbn [andb]. now apply IH.
  - now apply IH.
Qed.

(** A line made of an identifier and a text without equals sign sets
    the field of the identifier to what the text says. *)
Lemma line_sets_plain (f : field) (v : string) :
  no_equals v = true ->
  line_sets (field_id f ++ v) f = true /\
  value_text (field_id f ++ v) f = despace v.
Proof.
  intros Hv. pose proof (no_equals_despace v Hv) as Hd.
  unfold line_sets, value_text. rewrite despace_app.
  replace (despace (field_id f)) with (field_id f) by (destruct f; reflexivity).
  rewrite strip_field_id by exact Hd. split; [ | reflexivity].
  pose proof (selected_app_no_equals (field_id f) (despace v) Hd) as Hsel.
  rewrite selected_field_id in Hsel.
  destruct (field_id f ++ despace v) as [ | c r] eqn:E.
  - destruct f; discriminate E.
  - rewrite Hsel. replace (Ascii.eqb c "#") with false.
    + destruct f; reflexivity.
    + destruct f; injection E as <- _; reflexivity.
Qed.

(** ** Integer literals under [atoi] *)

Lemma read_digits_all (s : string) :
  all_digits s = true ->
  forall acc, exists n, Libc.read_digits 10 s acc = (decimal_from s acc, n, EmptyString).
Proof.
  induction s as [ | c s IH]; intros H acc; [exists 0; reflexivity | ].
  cbn [all_digits] in H. apply andb_true_iff in H as [Hc Hs].
  cbn [Libc.read_digits decimal_from]. unfold Libc.digit_value. rewrite Hc.
  destruct (IH Hs (acc * 10 + (Libc.code c - 48))) as [n ->]. eexists. reflexivity.
Qed.

Lemma decimal_from_lower (s : string) :
  all_digits s = true -> forall acc, 0 <= acc -> acc <= decimal_from s acc.
Proof.
  induction s as [ | c s IH]; intros H acc Hacc; [simpl; lia | ].
  cbn [all_digits] in H. apply andb_true_iff in H as [Hc Hs].
  apply andb_true_iff in Hc as [Hc1 Hc2]. cbn [decimal_from].
  specialize (IH Hs (acc * 10 + (Libc.code c - 48))). lia.
Qed.

Lemma atoi_negative_literal (ds : string) :
  all_digits ds = true -> 0 <= decimal_value ds <= 2 ^ 31 ->
  Libc.atoi (String "-" ds) = - decimal_value ds.
Proof.
  intros Hd Hv. unfold Libc.atoi, Libc.strtol.
  cbn [Libc.skip_space]. replace (Libc.isspace "-") with false by reflexivity.
  cbn [Libc.read_sign]. destruct (read_digits_all ds Hd 0) as [n ->].
  fold (decimal_value ds).
  unfold CInt.to_sint, CInt.LONG_MIN, CInt.LONG_MAX, CInt.INT_MIN, CInt.UINT_MOD.
  rewrite Z.min_r, Z.max_r by lia.
  rewrite Z.mod_small by lia. lia.
Qed.

Lemma digit_not_space_nor_sign (c : ascii) (s : string) :
  (48 <=? Libc.code c) && (Libc.code c <=? 57) = true ->
  Libc.read_sign (Libc.skip_space (String c s)) = (false, String c s).
Proof.
  intros H. apply andb_true_iff in H as [H1 H2].
  apply Z.leb_le in H1, H2.
  assert (Hsp : Libc.isspace c = false).
  { unfold Libc.isspace. 
    destruct (Z.eqb_spec (Libc.code c) 32); [lia | ].
    destruct (Z.leb_spec (Libc.code c) 13); [lia | ]. now rewrite andb_false_r. }
  cbn [Libc.skip_space]. rewrite Hsp. unfold Libc.read_sign.
  destruct c as [b0 b1 b2 b3 b4 b5 b6 b7].
  destruct b0, b1, b2, b3, b4, b5, b6, b7; try reflexivity; vm_compute in H1, H2; 
    try (exfalso; apply H1; reflexivity); try (exfalso; apply H2; reflexivity).
Qed.

Lemma atoi_literal (ds : string) :
  all_digits ds = true -> decimal_value ds < 2 ^ 31 ->
  Libc.atoi ds = decimal_value ds.
Proof.
  intros Hd Hv.
  assert (H0 : 0 <= decimal_value ds) by (apply (decimal_from_lower ds Hd 0); lia).
  unfold Libc.atoi, Libc.strtol.
  assert (Hs : Libc.read_sign (Libc.skip_space ds) = (false, ds)).
  { destruct ds as [ | c s]; [reflexivity | ].
    cbn [all_digits] in Hd. apply andb_true_iff in Hd as [Hc _].
    now apply digit_not_space_nor_sign. }
  rewrite Hs. destruct (read_digits_all ds Hd 0) as [n ->].
  fold (decimal_value ds).
  unfold CInt.to_sint, CInt.LONG_MIN, CInt.LONG_MAX, CInt.INT_MIN, CInt.UINT_MOD.
  rewrite Z.min_r, Z.max_r by lia.
  rewrite Z.mod_small by lia. lia.
Qed.
(** ** Texts made of lines *)

Lemma lines_read_unlines (valid : list string) (rest : string) :
  List.Forall (fun l => one_line l = true) valid ->
  lines_read (unlines valid ++ rest) = List.app valid (lines_read rest).
Proof.
  induction 1 as [ | l valid Hl _ IH]; [reflexivity | ].
  cbn [unlines List.fold_right List.app].
  rewrite append_assoc. cbn [String.append].
  rewrite lines_read_line by exact Hl. f_equal. exact IH.
Qed.

Lemma lines_read_head (bad tail : string) :
  one_line bad = true -> ends_line tail = true ->
  exists more, lines_read (bad ++ tail) = bad :: more.
Proof.
  intros Hb Ht. destruct tail as [ | c tail].
  - rewrite append_nil_r. pose proof (lines_read_step bad) as S.
    rewrite read_line_last in S by exact Hb. rewrite S.
    destruct bad; eexists; reflexivity.
  - cbn [ends_line] in Ht. apply Ascii.eqb_eq in Ht. subst c.
    rewrite lines_read_line by exact Hb. eexists. reflexivity.
Qed.

(** Lines the loop passes, then a line it throws on: the constructor
    ends with that exception, and the counter has moved once per line,
    the last one included. *)
Lemma constructor_first_throw (valid : list string) (bad tail : string) (e : exn)
  (counter : Z) :
  List.Forall (fun l => one_line l = true /\ accepted l = true) valid ->
  one_line bad = true ->
  ends_line tail = true ->
  (forall this, process_line (despace bad) this = Throw e) ->
  exists i' : istream,
    TaggerOptions_of_stream (istringstream (unlines valid ++ bad ++ tail)) counter =
    Some (mk_parse_end (Throw e) i' (Nat.iter (S (List.length valid)) incr counter)).
Proof.
  intros Hv Hb Ht He.
  destruct (constructor_lines (unlines valid ++ bad ++ tail) counter) as [i' ->].
  destruct (lines_read_head bad tail Hb Ht) as [more Hm].
  rewrite lines_read_unlines, Hm.
  - rewrite (run_lines_first_throw valid bad more e); [eexists; reflexivity | | exact He].
    eapply List.Forall_impl; [ | exact Hv]. now intros l [_ H].
  - eapply List.Forall_impl; [ | exact Hv]. now intros l [H _].
Qed.

(** ** Numbers without a minus sign *)

Module SignFacts.
Import IEEE.

Lemma unsigned_not_below_zero (x : spec_float) : unsigned x -> lt x float_zero = false.
Proof. destruct x as [s | s | | s m e]; cbn; intros H; subst; reflexivity. Qed.

Lemma binary_round_aux_unsigned (prec emax m e : Z) (l : location) :
  unsigned (binary_round_aux prec emax false m e l).
Proof.
  unfold binary_round_aux.
  destruct (shr_fexp prec emax m e l) as [mrs' e'].
  destruct (shr_fexp prec emax _ e' loc_Exact) as [mrs'' e''].
  destruct (shr_m mrs'') as [ | p | p]; cbn; [reflexivity | | exact I].
  destruct (e'' <=? emax - prec); reflexivity.
Qed.

Lemma binary_normalize_unsigned (prec emax m e : Z) :
  0 <= m -> unsigned (binary_normalize prec emax m e false).
Proof.
  intros Hm. destruct m as [ | p | p]; [reflexivity | | lia].
  unfold binary_normalize, binary_round.
  destruct (shl_align _ _ _) as [mz ez]. apply binary_round_aux_unsigned.
Qed.

Lemma round_ratio_unsigned (prec emax : Z) (n d : positive) (e2 : Z) :
  unsigned (round_ratio prec emax false n d e2).
Proof.
  unfold round_ratio.
  set (k := Z.max 0 _).
  pose proof (Z.div_eucl_eq (Z.shiftl (Zpos n) k) (Zpos d)) as Heq.
  pose proof (Z.mod_pos_bound (Z.shiftl (Zpos n) k) (Zpos d)) as Hmod.
  assert (Hq : 0 <= Z.shiftl (Zpos n) k / Zpos d).
  { apply Z.div_pos; [ | lia]. apply Z.shiftl_nonneg. lia. }
  unfold Z.div in Hq.
  destruct (Z.div_eucl (Z.shiftl (Zpos n) k) (Zpos d)) as [q r]. cbn [fst] in Hq.
  cbn [cond_Zopp]. apply binary_normalize_unsigned.
  destruct (r =? 0); lia.
Qed.

Lemma float_of_double_unsigned (x : double) : unsigned x -> unsigned (float_of_double x).
Proof.
  destruct x as [s | s | | s m e]; cbn [unsigned float_of_double]; try (intros; assumption).
  intros ->. cbn [cond_Zopp]. unfold round_float. now apply binary_normalize_unsigned.
Qed.

(** [atof] on a text that does not open with a minus sign. *)
Lemma atof_unsigned (text : string) :
  fst (Libc.read_sign (Libc.skip_space text)) = false -> unsigned (Libc.atof text).
Proof.
  unfold Libc.atof, Libc.strtod.
  destruct (Libc.read_sign (Libc.skip_space text)) as [neg r]. cbn [fst]. intros ->.
  destruct (Libc.starts_with_nocase "inf" r); [reflexivity | ].
  destruct (Libc.starts_with_nocase "nan" r); [exact I | ].
  destruct (Libc.hex_literal r) as [[m e2] | ].
  - unfold double_of_binary. destruct m as [ | p]; [reflexivity | ].
    cbn [cond_Zopp]. unfold round_double. now apply binary_normalize_unsigned.
  - destruct (Libc.decimal_literal r) as [[m e10] | ]; [ | reflexivity].
    unfold double_of_decimal. destruct m as [ | p]; [reflexivity | ].
    destruct (0 <=? e10); apply round_ratio_unsigned.
Qed.

Lemma get_float_unsigned (text : string) :
  fst (Libc.read_sign (Libc.skip_space text)) = false ->
  get_float text = Return (float_of_double (Libc.atof text)).
Proof.
  intros H. unfold get_float.
  rewrite unsigned_not_below_zero; [reflexivity | ].
  now apply float_of_double_unsigned, atof_unsigned.
Qed.

End SignFacts.

(** ** The range checks *)

Lemma get_float_throws (text : string) :
  throws (get_float text) NumericalRangeError =
  IEEE.lt (IEEE.float_of_double (Libc.atof text)) IEEE.float_zero.
Proof. unfold get_float. destruct (IEEE.lt _ _); reflexivity. Qed.

Lemma get_uint_throws (text : string) :
  throws (get_uint text) NumericalRangeError = (Libc.atoi text <? 0).
Proof. unfold get_uint. destruct (Libc.atoi text <? 0); reflexivity. Qed.

Lemma throws_bind {A B : Type} (r : result A) (k : A -> B) (e : exn) :
  throws (x <- r ;; Return (k x)) e = throws r e.
Proof. destruct r; reflexivity. Qed.

Lemma parse_into_float_throws (f : field) (text : string) (this : TaggerOptions) :
  reads_float f = true ->
  throws (parse_into f text this) NumericalRangeError =
  IEEE.lt (IEEE.float_of_double (Libc.atof text)) IEEE.float_zero.
Proof.
  intros H. destruct f; try discriminate H; cbn [parse_into];
    rewrite throws_bind; apply get_float_throws.
Qed.

Lemma parse_into_uint_throws (f : field) (text : string) (this : TaggerOptions) :
  reads_uint f = true ->
  throws (parse_into f text this) NumericalRangeError = (Libc.atoi text <? 0).
Proof.
  intros H. destruct f; try discriminate H; cbn [parse_into];
    rewrite throws_bind; apply get_uint_throws.
Qed.

Lemma throws_true {A : Type} (r : result A) (e : exn) :
  throws r e = true -> r = Throw e.
Proof.
  destruct r as [a | e']; [discriminate | ]. cbn [throws].
  destruct e', e; try discriminate; reflexivity.
Qed.

(** What a field read with [get_float] holds after a line that the
    constructor passes: the number of the text, which is not below 0. *)
Lemma parse_into_float_stores (f : field) (text : string) (this this' : TaggerOptions) :
  reads_float f = true ->
  parse_into f text this = Return this' ->
  get_field f this' = V_float (IEEE.float_of_double (Libc.atof text)) /\
  IEEE.lt (IEEE.float_of_double (Libc.atof text)) IEEE.float_zero = false.
Proof.
  intros H. destruct f; try discriminate H; cbn [parse_into]; unfold get_float;
    destruct (IEEE.lt _ _); cbn [bind]; try discriminate;
    intros [= <-]; split; reflexivity.
Qed.


(** ** Rounding away from zero *)

Module RoundFacts.
Import IEEE.

Lemma Zdigits2_log2 (p : positive) : Zdigits2 (Zpos p) = Z.log2 (Zpos p) + 1.
Proof.
  pose proof (FloatFacts.digits2_pos_bounds p) as H. cbn [Zdigits2].
  assert (Z.log2 (Zpos p) = Zpos (digits2_pos p) - 1); [ | lia].
  apply Z.log2_unique; [lia | ].
  replace (Z.succ (Zpos (digits2_pos p) - 1)) with (Zpos (digits2_pos p)) by lia. exact H.
Qed.

Lemma shr_1_m (mrs : shr_record) :
  0 <= shr_m mrs -> shr_m (shr_1 mrs) = Z.shiftr (shr_m mrs) 1.
Proof.
  destruct mrs as [m r s]. cbn [shr_m]. intros H.
  destruct m as [ | p | p]; [reflexivity | | lia].
  destruct p; reflexivity.
Qed.

Lemma iter_shr_1_m (n : positive) :
  forall mrs : shr_record,
    0 <= shr_m mrs ->
    shr_m (iter_pos shr_1 n mrs) = Z.shiftr (shr_m mrs) (Zpos n).
Proof.
  induction n as [n IH | n IH | ]; intros mrs H; cbn [iter_pos].
  - assert (H1 : 0 <= shr_m (shr_1 mrs)).
    { rewrite shr_1_m by exact H. now apply Z.shiftr_nonneg. }
    assert (H2 : 0 <= shr_m (iter_pos shr_1 n (shr_1 mrs))).
    { rewrite IH by exact H1. now apply Z.shiftr_nonneg. }
    rewrite IH, IH, shr_1_m by assumption.
    rewrite !Z.shiftr_shiftr by lia. f_equal. lia.
  - assert (H2 : 0 <= shr_m (iter_pos shr_1 n mrs)).
    { rewrite IH by exact H. now apply Z.shiftr_nonneg. }
    rewrite IH, IH by assumption.
    rewrite Z.shiftr_shiftr by lia. f_equal. lia.
  - now apply shr_1_m.
Qed.

(** Shifting right: the mantissa is divided, the exponent is raised. *)
Lemma shr_m_spec (mrs : shr_record) (e n : Z) :
  0 <= shr_m mrs ->
  shr_m (fst (shr mrs e n)) = Z.shiftr (shr_m mrs) (Z.max 0 n) /\
  snd (shr mrs e n) = e + Z.max 0 n.
Proof.
  intros H. unfold shr. destruct n as [ | p | p]; cbn [fst snd].
  - split; [now rewrite Z.shiftr_0_r | lia].
  - split; [now apply iter_shr_1_m | lia].
  - split; [now rewrite Z.shiftr_0_r | lia].
Qed.

Lemma round_nearest_even_bounds (m : Z) (l : location) :
  m <= round_nearest_even m l <= m + 1.
Proof.
  unfold round_nearest_even. destruct l as [ | [ | | ]]; try lia.
  destruct (Z.even m); lia.
Qed.

Lemma Zdigits2_pos (m : Z) : 0 < m -> Zdigits2 m = Z.log2 m + 1.
Proof. destruct m as [ | p | p]; try lia. intros _. apply Zdigits2_log2. Qed.

Lemma shiftr_pos (m k : Z) :
  0 < m -> 0 <= k -> k <= Z.log2 m ->
  0 < Z.shiftr m k /\ Z.log2 (Z.shiftr m k) = Z.log2 m - k.
Proof.
  intros Hm Hk Hl. rewrite Z.log2_shiftr by exact Hm.
  split; [ | lia].
  rewrite Z.shiftr_div_pow2 by exact Hk.
  apply Z.div_str_pos. split; [apply Z.pow_pos_nonneg; lia | ].
  apply Z.log2_le_pow2; assumption.
Qed.

Section Round.
Variables prec emax : Z.
Hypothesis prec_pos : 0 < prec.

(** One shift to the canonical exponent keeps a positive number whose
    digits reach above the smallest exponent positive, with its digits
    at the same height. *)
Lemma shr_fexp_pos (m e : Z) (l : location) :
  0 < m -> emin prec emax < Zdigits2 m + e ->
  0 < shr_m (fst (shr_fexp prec emax m e l)) /\
  Zdigits2 (shr_m (fst (shr_fexp prec emax m e l))) + snd (shr_fexp prec emax m e l) =
    Zdigits2 m + e.
Proof.
  intros Hm He. unfold shr_fexp.
  assert (Hrec : shr_m (shr_record_of_loc m l) = m) by (destruct l as [ | [ | | ]]; reflexivity).
  destruct (shr_m_spec (shr_record_of_loc m l) e
              (fexp prec emax (Zdigits2 m + e) - e)) as [H1 H2]; [rewrite Hrec; lia | ].
  rewrite H1, H2, Hrec. rewrite Zdigits2_pos in * by exact Hm.
  set (n := Z.max 0 (fexp prec emax (Z.log2 m + 1 + e) - e)).
  assert (Hn : 0 <= n <= Z.log2 m).
  { subst n. unfold fexp. pose proof (Z.log2_nonneg m). lia. }
  destruct (shiftr_pos m n Hm) as [Hp Hl]; [lia | lia | ].
  split; [exact Hp | ]. rewrite Zdigits2_pos by exact Hp. lia.
Qed.

(** Rounding such a number gives a number of the same sign, not zero,
    whose digits reach at least as high. *)
Lemma binary_round_aux_away (s : bool) (m e : Z) (l : location) :
  0 < m -> emin prec emax < Zdigits2 m + e ->
  match binary_round_aux prec emax s m e l with
  | S754_finite s' m' e' => s' = s /\ Zdigits2 m + e <= Zdigits2 (Zpos m') + e'
  | S754_infinity s' => s' = s
  | _ => False
  end.
Proof.
  intros Hm He. unfold binary_round_aux.
  destruct (shr_fexp_pos m e l Hm He) as [H1 H2].
  destruct (shr_fexp prec emax m e l) as [mrs1 e1]. cbn [fst snd] in H1, H2.
  pose proof (round_nearest_even_bounds (shr_m mrs1) (loc_of_shr_record mrs1)) as Hr.
  set (m2 := round_nearest_even (shr_m mrs1) (loc_of_shr_record mrs1)) in *.
  assert (Hm2 : 0 < m2) by lia.
  assert (Hd2 : Zdigits2 (shr_m mrs1) <= Zdigits2 m2).
  { rewrite !Zdigits2_pos by lia. apply Z.add_le_mono_r. apply Z.log2_le_mono. lia. }
  destruct (shr_fexp_pos m2 e1 loc_Exact Hm2) as [H3 H4]; [lia | ].
  destruct (shr_fexp prec emax m2 e1 loc_Exact) as [mrs3 e3]. cbn [fst snd] in H3, H4.
  destruct (shr_m mrs3) as [ | m3 | m3]; try lia.
  destruct (e3 <=? emax - prec); [ | reflexivity].
  split; [reflexivity | lia].
Qed.

Lemma binary_round_away (s : bool) (p : positive) (e : Z) :
  emin prec emax < Zpos (digits2_pos p) + e ->
  match binary_round prec emax s p e with
  | S754_finite s' m' e' => s' = s /\ Zpos (digits2_pos p) + e <= Zdigits2 (Zpos m') + e'
  | S754_infinity s' => s' = s
  | _ => False
  end.
Proof.
  intros He. unfold binary_round, shl_align.
  destruct (fexp prec emax (Zpos (digits2_pos p) + e) - e) as [ | k | k] eqn:Hk;
    try (apply (binary_round_aux_away s (Zpos p) e loc_Exact); [lia | exact He]).
  pose proof (binary_round_aux_away s (Zpos (Pos.iter xO p k))
                (fexp prec emax (Zpos (digits2_pos p) + e)) loc_Exact) as H.
  cbn [Zdigits2] in H. rewrite FloatFacts.iter_xO_digits in H.
  replace (Zpos (digits2_pos p + k) + fexp prec emax (Zpos (digits2_pos p) + e))
    with (Zpos (digits2_pos p) + e) in H by lia.
  apply H; [lia | exact He].
Qed.

End Round.

Lemma negative_below_zero (x : spec_float) : negative x -> lt x float_zero = true.
Proof. destruct x as [s | s | | s m e]; cbn; intros H; try contradiction; subst; reflexivity. Qed.

(** [-n], for an integer [n] of at least 1, as a [double] and then as a
    [float]. *)
Lemma float_of_negative_integer (p : positive) :
  negative (float_of_double (double_of_decimal true (Npos p) 0)).
Proof.
  unfold double_of_decimal. cbn [Z.leb Z.compare Z.pow Z.to_pos].
  replace (p * 1)%positive with p by lia.
  unfold round_ratio.
  set (k := Z.max 0 (double_prec + 3 + Z.log2 1 - Z.log2 (Zpos p))).
  assert (Hk : 0 <= k) by (subst k; lia).
  pose proof (Z.div_1_r (Z.shiftl (Zpos p) k)) as Hq.
  pose proof (Z.mod_1_r (Z.shiftl (Zpos p) k)) as Hr.
  unfold Z.div, Z.modulo in Hq, Hr.
  destruct (Z.div_eucl (Z.shiftl (Zpos p) k) 1) as [q r]. subst q r.
  cbn [Z.eqb]. rewrite Z.add_0_r.
  assert (Hpos : 0 < Z.shiftl (Zpos p) k).
  { rewrite Z.shiftl_mul_pow2 by exact Hk. apply Z.mul_pos_pos; [lia | ].
    apply Z.pow_pos_nonneg; lia. }
  assert (Hlog : Z.log2 (2 * Z.shiftl (Zpos p) k) = Z.log2 (Zpos p) + k + 1).
  { rewrite Z.log2_double by exact Hpos. rewrite Z.log2_shiftl by lia. lia. }
  destruct (2 * Z.shiftl (Zpos p) k) as [ | x | x] eqn:Hx; try lia.
  cbn [cond_Zopp Z.opp binary_normalize].
  pose proof (binary_round_away double_prec double_emax eq_refl true x (0 - k - 1)) as Hd.
  pose proof (Z.log2_nonneg (Zpos p)) as Hl.
  pose proof (Zdigits2_log2 x) as Hdx. cbn [Zdigits2] in Hdx.
  destruct (binary_round double_prec double_emax true x (0 - k - 1)) as [s | s | | s m' e'].
  - exfalso. apply Hd. unfold emin, double_prec, double_emax. lia.
  - cbn. apply Hd. unfold emin, double_prec, double_emax. lia.
  - exfalso. apply Hd. unfold emin, double_prec, double_emax. lia.
  - destruct Hd as [-> Hd]; [unfold emin, double_prec, double_emax; lia | ].
    cbn [float_of_double cond_Zopp Z.opp]. unfold round_float. cbn [binary_normalize].
    pose proof (binary_round_away float_prec float_emax eq_refl true m' e') as Hf.
    cbn [Zdigits2] in Hd.
    destruct (binary_round float_prec float_emax true m' e') as [s | s | | s m2 e2]; cbn.
    + apply Hf. unfold emin, float_prec, float_emax. lia.
    + apply Hf. unfold emin, float_prec, float_emax. lia.
    + apply Hf. unfold emin, float_prec, float_emax. lia.
    + apply Hf. unfold emin, float_prec, float_emax. lia.
Qed.

End RoundFacts.

(** ** Integer literals under [atof] *)

Lemma digit_cases (c : ascii) :
  (48 <=? Libc.code c) && (Libc.code c <=? 57) = true ->
  Libc.isspace c = false /\ Libc.lower c = c /\
  Ascii.eqb c "=" = false /\ Ascii.eqb c SP = false /\ Ascii.eqb c HT = false /\
  Ascii.eqb c CR = false /\ Ascii.eqb "i" c = false /\ Ascii.eqb "n" c = false /\
  Ascii.eqb c "x" = false /\ Ascii.eqb c "." = false /\ Ascii.eqb "e" c = false.
Proof.
  destruct c as [b0 b1 b2 b3 b4 b5 b6 b7].
  destruct b0, b1, b2, b3, b4, b5, b6, b7; vm_compute; intros H;
    try discriminate H; repeat split.
Qed.

Lemma read_digits_length (s : string) :
  all_digits s = true ->
  forall acc,
    Libc.read_digits 10 s acc = (decimal_from s acc, Z.of_nat (String.length s), EmptyString).
Proof.
  induction s as [ | c s IH]; intros H acc; [reflexivity | ].
  cbn [all_digits] in H. apply andb_true_iff in H as [Hc Hs].
  cbn [Libc.read_digits decimal_from String.length]. unfold Libc.digit_value. rewrite Hc.
  rewrite (IH Hs). f_equal. f_equal. lia.
Qed.

Lemma hex_literal_digits (s : string) : all_digits s = true -> Libc.hex_literal s = None.
Proof.
  destruct s as [ | c [ | x r]]; intros H.
  - reflexivity.
  - destruct c as [b0 b1 b2 b3 b4 b5 b6 b7].
    destruct b0, b1, b2, b3, b4, b5, b6, b7; reflexivity.
  - cbn [all_digits] in H. apply andb_true_iff in H as [_ H].
    apply andb_true_iff in H as [Hx _].
    destruct (digit_cases x Hx) as (_ & Hl & _ & _ & _ & _ & _ & _ & Hxx & _).
    assert (Hb : Ascii.eqb (Libc.lower x) "x" = false) by now rewrite Hl.
    destruct c as [b0 b1 b2 b3 b4 b5 b6 b7].
    destruct b0, b1, b2, b3, b4, b5, b6, b7; cbn [Libc.hex_literal]; try reflexivity.
    now rewrite Hb.
Qed.

Lemma atof_negative_literal (ds : string) :
  all_digits ds = true -> 1 <= decimal_value ds ->
  Libc.atof (String "-" ds) = IEEE.double_of_decimal true (Z.to_N (decimal_value ds)) 0.
Proof.
  intros Hd Hv. unfold Libc.atof, Libc.strtod.
  cbn [Libc.skip_space]. replace (Libc.isspace "-") with false by reflexivity.
  cbn [Libc.read_sign].
  destruct ds as [ | c r]; [vm_compute in Hv; exfalso; apply Hv; reflexivity | ].
  pose proof Hd as Hd'. cbn [all_digits] in Hd'. apply andb_true_iff in Hd' as [Hc _].
  destruct (digit_cases c Hc) as (_ & Hl & _ & _ & _ & _ & Hi & Hn & _).
  cbn [Libc.starts_with_nocase]. rewrite Hl, Hi, Hn. cbn [andb].
  rewrite hex_literal_digits by exact Hd.
  unfold Libc.decimal_literal, Libc.read_mantissa.
  rewrite (read_digits_length _ Hd 0). fold (decimal_value (String c r)).
  cbn [String.length Libc.read_exponent].
  replace (Z.of_nat (S (String.length r)) + 0 =? 0) with false
    by (symmetry; apply Z.eqb_neq; lia).
  reflexivity.
Qed.

(** A minus sign and digits that write a number of at least 1: the
    [float] read is below zero. *)
Lemma get_float_negative_literal (ds : string) :
  all_digits ds = true -> 1 <= decimal_value ds ->
  get_float (String "-" ds) = Throw NumericalRangeError.
Proof.
  intros Hd Hv. unfold get_float. rewrite atof_negative_literal by assumption.
  destruct (decimal_value ds) as [ | p | p] eqn:E; try lia. cbn [Z.to_N].
  rewrite RoundFacts.negative_below_zero; [reflexivity | ].
  apply RoundFacts.float_of_negative_integer.
Qed.

Lemma digits_plain (ds : string) :
  all_digits ds = true -> no_equals ds = true /\ despace ds = ds.
Proof.
  induction ds as [ | c r IH]; intros H; [split; reflexivity | ].
  cbn [all_digits] in H. apply andb_true_iff in H as [Hc Hr].
  destruct (digit_cases c Hc) as (_ & _ & He & Hs & Ht & Hcr & _).
  destruct (IH Hr) as [IH1 IH2].
  cbn [no_equals despace]. rewrite He, Hs, Ht, Hcr, IH1, IH2. split; reflexivity.
Qed.

(** The line [id-ds]. *)
Lemma negative_literal_line (f : field) (ds : string) :
  all_digits ds = true ->
  line_sets (field_id f ++ String "-" ds) f = true /\
  value_text (field_id f ++ String "-" ds) f = String "-" ds.
Proof.
  intros Hd. destruct (digits_plain ds Hd) as [H1 H2].
  destruct (line_sets_plain f (String "-" ds)) as [Hs Hv].
  - cbn [no_equals]. now rewrite H1.
  - split; [exact Hs | ]. rewrite Hv. cbn [despace]. now rewrite H2.
Qed.

(** ** The constructor: defaults and the line counter *)

Lemma run_lines_accepted (ls : list string) :
  List.Forall (fun l => accepted l = true) ls ->
  forall (this : TaggerOptions) (c : Z),
    exists r, run_lines ls this c = (Return r, Nat.iter (List.length ls) incr c).
Proof.
  induction 1 as [ | l ls Hl _ IH]; intros this c; [eexists; reflexivity | ].
  cbn [run_lines]. destruct (accepted_returns l this Hl) as [this' ->].
  destruct (IH this' (incr c)) as [r ->]. exists r.
  cbn [List.length]. now rewrite iter_incr_succ.
Qed.

Lemma run_lines_skipped (ls : list string) :
  List.Forall (fun l => skipped l = true) ls ->
  forall (this : TaggerOptions) (c : Z), fst (run_lines ls this c) = Return this.
Proof.
  induction 1 as [ | l ls Hl _ IH]; intros this c; [reflexivity | ].
  cbn [run_lines]. unfold skipped in Hl. unfold process_line.
  destruct (despace l) as [ | a r]; [apply IH | ]. rewrite Hl. apply IH.
Qed.

(** C4. Parsing an empty text ends well, after one round of the loop,
    and gives the record of the member initialisers: estimator AVG_PERC,
    inference MAP, suffix_length 10, degree 2, max_train_passes 50,
    max_lemmatizer_passes 50, max_useless_passes 3, guess_mass the
    [float] next to 0.99 (equal to 0.99 under [float_eq]), beam -1,
    beam_mass -1, regularization NONE, delta -1, sigma -1,
    use_label_dictionary true. The same record comes out of every text
    in which no line sets a key (all lines blank or comments). *)
Theorem empty_text_gives_defaults :
  (forall counter : Z,
     TaggerOptions_of_stream (istringstream "") counter =
     Some (mk_parse_end
             (Return {| estimator := AVG_PERC;
                        inference := MAP;
                        suffix_length := 10;
                        degree := 2;
                        max_train_passes := 50;
                        max_lemmatizer_passes := 50;
                        max_useless_passes := 3;
                        guess_mass := S754_finite false 16609444 (-24);
                        beam := -1;
                        beam_mass := S754_finite true 8388608 (-23);
                        regularization := NONE;
                        delta := S754_finite true 8388608 (-23);
                        sigma := S754_finite true 8388608 (-23);
                        use_label_dictionary := true |})
             (mk_istream "" true true)
             (incr counter))) /\
  float_eq (S754_finite false 16609444 (-24))
           (IEEE.float_of_double (IEEE.double_of_decimal false 99 (-2))) = true /\
  IEEE.float_of_Z (-1) = S754_finite true 8388608 (-23) /\
  (forall (text : string) (counter : Z),
     List.Forall (fun l => skipped l = true) (lines_read text) ->
     exists e, TaggerOptions_of_stream (istringstream text) counter = Some e /\
               outcome e = Return defaults).
Proof.
  split; [intros counter; reflexivity | ].
  split; [vm_compute; reflexivity | ].
  split; [vm_compute; reflexivity | ].
  intros text counter H.
  destruct (constructor_lines text counter) as [i' E].
  eexists. split; [exact E | ]. cbn [outcome]. now apply run_lines_skipped.
Qed.

(** A text without assignments gives the defaults. *)
Lemma comments_only_gives_defaults :
  exists e, TaggerOptions_of_stream (istringstream Samples.comments_only) 7 = Some e /\
            outcome e = Return defaults.
Proof.
  apply (proj2 (proj2 (proj2 empty_text_gives_defaults)) Samples.comments_only 7).
  repeat constructor.
Defined.

(** The counter after a text that parses: one more than the text has
    lines, as the read that meets the end of the text is a round of the
    loop too. *)
Lemma counter_after_parsed_text (lines : list string) (counter : Z) :
  List.Forall (fun l => one_line l = true /\ accepted l = true) lines ->
  exists e r,
    TaggerOptions_of_stream (istringstream (unlines lines)) counter = Some e /\
    outcome e = Return r /\
    counter_after e = Nat.iter (S (List.length lines)) incr counter.
Proof.
  intros Hl.
  destruct (constructor_lines (unlines lines) counter) as [i' E].
  assert (Hr : lines_read (unlines lines) = List.app lines [EmptyString]).
  { rewrite <- (append_nil_r (unlines lines)). rewrite lines_read_unlines.
    - reflexivity.
    - eapply List.Forall_impl; [ | exact Hl]. now intros l [H _]. }
  rewrite Hr in E.
  destruct (run_lines_accepted (List.app lines [EmptyString])) with (this := defaults) (c := counter)
    as [r Hrun].
  { apply List.Forall_app. split.
    - eapply List.Forall_impl; [ | exact Hl]. now intros l [_ H].
    - constructor; [reflexivity | constructor]. }
  rewrite Hrun in E. cbn [fst snd] in E.
  eexists. exists r. split; [exact E | ]. split; [reflexivity | ]. cbn [counter_after].
  rewrite List.length_app. cbn [List.length]. f_equal. lia.
Qed.

(** The counter after any text: moved once per round of the loop. *)
Lemma counter_moves_once_per_round (text : string) (counter : Z) :
  exists e,
    TaggerOptions_of_stream (istringstream text) counter = Some e /\
    counter_after e =
    Nat.iter (List.length (lines_processed (lines_read text))) incr counter.
Proof.
  destruct (constructor_lines text counter) as [i' E].
  eexists. split; [exact E | ]. cbn [counter_after]. apply run_lines_counter.
Qed.

(** Blank lines and comments are lines the loop passes. *)
Lemma skipped_accepted (line : string) : skipped line = true -> accepted line = true.
Proof.
  unfold skipped, accepted, process_line.
  destruct (despace line) as [ | c r]; [reflexivity | ]. now intros ->.
Qed.

(** The counter after a text that parses has moved once more than there
    are lines. An empty text, in which there is no line to read, leaves
    a counter of 0 at 1, and a text of one line leaves it at 2. *)
Lemma counter_after_whole_text :
  option_map counter_after (TaggerOptions_of_stream (istringstream "") 0) = Some 1 /\
  option_map counter_after
    (TaggerOptions_of_stream (istringstream (unlines ["sigma = 1"])) 0) = Some 2.
Proof. split; vm_compute; reflexivity. Qed.

(** C7. The counter moves once per round of the loop, and the loop
    calls [std::getline] without looking at what it returns. After [k]
    lines that pass (blank lines, comments or assignments) and a line
    the constructor throws on, whatever the exception, the constructor
    ends with that exception and the counter has moved [k + 1] times; in
    particular [k] such lines followed by a line with no known key end
    in [SyntaxError] with the counter moved [k + 1] times. But the read
    that meets the end of the input, which delivers no line, is counted
    as well: a text of the [k] lines alone is parsed to a record and
    leaves the counter moved [k + 1] times, one more than it has
    lines. *)
Theorem counter_counts_lines_read (valid : list string) (bad tail : string) (counter : Z) :
  List.Forall (fun l => one_line l = true /\ accepted l = true) valid ->
  one_line bad = true ->
  ends_line tail = true ->
  (forall e : exn,
     process_line (despace bad) defaults = Throw e ->
     exists end_ : parse_end,
       TaggerOptions_of_stream (istringstream (unlines valid ++ bad ++ tail)) counter =
       Some end_ /\
       outcome end_ = Throw e /\
       counter_after end_ = Nat.iter (S (List.length valid)) incr counter) /\
  (unrecognized bad = true ->
   exists end_ : parse_end,
     TaggerOptions_of_stream (istringstream (unlines valid ++ bad ++ tail)) counter =
     Some end_ /\
     outcome end_ = Throw SyntaxError /\
     counter_after end_ = Nat.iter (S (List.length valid)) incr counter) /\
  (exists (end_ : parse_end) (r : TaggerOptions),
     TaggerOptions_of_stream (istringstream (unlines valid)) counter = Some end_ /\
     outcome end_ = Return r /\
     counter_after end_ = Nat.iter (S (List.length valid)) incr counter).
Proof.
  intros Hv Hb Ht.
  assert (Hthrow : forall e : exn,
             (forall this, process_line (despace bad) this = Throw e) ->
             exists end_ : parse_end,
               TaggerOptions_of_stream (istringstream (unlines valid ++ bad ++ tail)) counter =
               Some end_ /\
               outcome end_ = Throw e /\
               counter_after end_ = Nat.iter (S (List.length valid)) incr counter).
  { intros e He.
    destruct (constructor_first_throw valid bad tail e counter Hv Hb Ht He) as [i' E].
    eexists. split; [exact E | ]. split; reflexivity. }
  split; [ | split].
  - intros e He. apply Hthrow. intros this. now apply (process_line_throw _ defaults).
  - intros Hu. apply Hthrow. intros this. now apply unrecognized_throws.
  - exact (counter_after_parsed_text valid counter Hv).
Qed.

(** The faulty text of the test in the source file: five lines that
    pass, the misspelt key on the sixth, and the counter at 6. The five
    lines alone leave the counter at 6 too, and the empty text, which
    has no line, leaves it at 1. *)
Lemma counter_at_misspelt_line :
  (exists end_ : parse_end,
     TaggerOptions_of_stream
       (istringstream (unlines Samples.five_lines ++ Samples.misspelt_line
                         ++ Samples.after_misspelt_line)) 0 = Some end_ /\
     outcome end_ = Throw SyntaxError /\
     counter_after end_ = Nat.iter 6 incr 0) /\
  (exists (end_ : parse_end) (r : TaggerOptions),
     TaggerOptions_of_stream (istringstream (unlines Samples.five_lines)) 0 = Some end_ /\
     outcome end_ = Return r /\
     counter_after end_ = Nat.iter 6 incr 0) /\
  (exists (end_ : parse_end) (r : TaggerOptions),
     TaggerOptions_of_stream (istringstream EmptyString) 0 = Some end_ /\
     outcome end_ = Return r /\
     counter_after end_ = 1).
Proof.
  pose proof (counter_counts_lines_read
                Samples.five_lines Samples.misspelt_line Samples.after_misspelt_line 0
                ltac:(repeat constructor) eq_refl eq_refl) as (_ & H5 & H5').
  pose proof (counter_counts_lines_read
                [] Samples.misspelt_line Samples.after_misspelt_line 0
                ltac:(constructor) eq_refl eq_refl) as (_ & _ & H0).
  split; [apply H5; reflexivity | ]. split; [exact H5' | exact H0].
Defined.

(** ** The constructor: range checks *)

(** C1, as the claim states it, fails: the line [delta=-5] is refused
    with [NumericalRangeError], and so are [sigma=-5] and [beam_mass=-5]. *)
Lemma negative_delta_is_refused :
  option_map outcome (TaggerOptions_of_stream (istringstream "delta=-5") 0) =
    Some (Throw NumericalRangeError) /\
  option_map outcome (TaggerOptions_of_stream (istringstream "sigma=-5") 0) =
    Some (Throw NumericalRangeError) /\
  option_map outcome (TaggerOptions_of_stream (istringstream "beam_mass=-5") 0) =
    Some (Throw NumericalRangeError).
Proof. repeat split; vm_compute; reflexivity. Qed.

(** C1, amended. A line that sets beam_mass, delta or sigma to a text
    that [atof], narrowed to [float], reads as a number below zero is
    refused with [NumericalRangeError], wherever it stands in the text,
    and nothing is stored; when a line for one of these fields is
    passed, the number stored is not below zero. Every line made of the
    identifier of the field and a text without equals sign sets the
    field, and every negative integer literal (a minus sign and digits
    that write a number of at least 1) is refused. *)
Theorem negative_sentinel_value_refused (f : field) :
  f = F_beam_mass \/ f = F_delta \/ f = F_sigma ->
  (forall (line : string) (this : TaggerOptions),
     line_sets line f = true ->
     IEEE.lt (IEEE.float_of_double (Libc.atof (value_text line f))) IEEE.float_zero = true ->
     process_line (despace line) this = Throw NumericalRangeError /\
     (one_line line = true ->
      forall (valid : list string) (tail : string) (counter : Z),
        List.Forall (fun l => one_line l = true /\ accepted l = true) valid ->
        ends_line tail = true ->
        exists i',
          TaggerOptions_of_stream (istringstream (unlines valid ++ line ++ tail)) counter =
          Some (mk_parse_end (Throw NumericalRangeError) i'
                             (Nat.iter (S (List.length valid)) incr counter)))) /\
  (forall (line : string) (this this' : TaggerOptions),
     line_sets line f = true ->
     process_line (despace line) this = Return this' ->
     get_field f this' = V_float (IEEE.float_of_double (Libc.atof (value_text line f))) /\
     IEEE.lt (IEEE.float_of_double (Libc.atof (value_text line f))) IEEE.float_zero = false) /\
  (forall v : string,
     no_equals v = true ->
     line_sets (field_id f ++ v) f = true /\
     value_text (field_id f ++ v) f = despace v) /\
  (forall (ds : string) (this : TaggerOptions),
     all_digits ds = true -> 1 <= decimal_value ds ->
     process_line (despace (field_id f ++ String "-" ds)) this =
     Throw NumericalRangeError).
Proof.
  intros Hf.
  assert (Hr : reads_float f = true) by (destruct Hf as [-> | [-> | ->]]; reflexivity).
  split; [ | split; [ | split]].
  - intros line this Hs Hneg.
    assert (Hthrow : forall this0, process_line (despace line) this0 = Throw NumericalRangeError).
    { intros this0. rewrite (line_sets_process line f this0 Hs). apply throws_true.
      rewrite parse_into_float_throws by exact Hr. exact Hneg. }
    split; [apply Hthrow | ].
    intros Hl valid tail counter Hv Ht.
    now apply constructor_first_throw.
  - intros line this this' Hs Hret.
    rewrite (line_sets_process line f this Hs) in Hret.
    now apply (parse_into_float_stores f _ this this').
  - intros v Hv. now apply line_sets_plain.
  - intros ds this Hd Hv. destruct (negative_literal_line f ds Hd) as [Hs Ht].
    rewrite (line_sets_process _ f this Hs), Ht.
    destruct Hf as [-> | [-> | ->]]; cbn [parse_into];
      now rewrite get_float_negative_literal.
Qed.

(** The line [delta = -5], met with the record of the defaults. *)
Lemma negative_delta_witness :
  process_line (despace "delta = -5") defaults = Throw NumericalRangeError.
Proof.
  refine (proj1 (proj1 (negative_sentinel_value_refused F_delta _) "delta = -5" defaults _ _)).
  - right. left. reflexivity.
  - reflexivity.
  - vm_compute. reflexivity.
Defined.

(** C8, as the claim states it, fails: [guess_mass=-1e-50] is passed
    (the number rounds to -0 as a [float], and -0 is not below 0), and
    so is [suffix_length=-0.5] ([atoi] reads it as 0). *)
Lemma small_negative_literals_pass :
  option_map outcome (TaggerOptions_of_stream (istringstream "guess_mass=-1e-50") 0) =
    Some (Return (set_guess_mass (S754_zero true) defaults)) /\
  option_map outcome (TaggerOptions_of_stream (istringstream "suffix_length=-0.5") 0) =
    Some (Return (set_suffix_length 0 defaults)).
Proof. split; vm_compute; reflexivity. Qed.

(** C8, amended. For a line that sets a field read with [get_uint]
    (suffix_length, degree, max_train_passes, max_lemmatizer_passes,
    max_useless_passes, use_label_dictionary), [NumericalRangeError] is
    thrown exactly when [atoi] reads a negative number from the value:
    always for a negative integer literal that fits an [int], never for
    a non-negative one that does. For guess_mass it is thrown exactly
    when [atof], narrowed to [float], reads a number below zero:
    always for a negative integer literal, never for a text that does
    not open with a minus sign. *)
Theorem range_check_of_unsigned_fields (f : field) (line : string) (this : TaggerOptions) :
  line_sets line f = true ->
  (reads_uint f = true ->
   throws (process_line (despace line) this) NumericalRangeError =
     (Libc.atoi (value_text line f) <? 0) /\
   (forall ds : string,
      value_text line f = String "-" ds ->
      all_digits ds = true -> 0 < decimal_value ds <= 2 ^ 31 ->
      process_line (despace line) this = Throw NumericalRangeError) /\
   (forall ds : string,
      value_text line f = ds ->
      all_digits ds = true -> decimal_value ds < 2 ^ 31 ->
      exists this', process_line (despace line) this = Return this')) /\
  (f = F_guess_mass ->
   throws (process_line (despace line) this) NumericalRangeError =
     IEEE.lt (IEEE.float_of_double (Libc.atof (value_text line f))) IEEE.float_zero /\
   (fst (Libc.read_sign (Libc.skip_space (value_text line f))) = false ->
    exists this', process_line (despace line) this = Return this') /\
   (forall ds : string,
      value_text line f = String "-" ds ->
      all_digits ds = true -> 1 <= decimal_value ds ->
      process_line (despace line) this = Throw NumericalRangeError)).
Proof.
  intros Hs. rewrite (line_sets_process line f this Hs). split.
  - intros Hu. split; [now apply parse_into_uint_throws | split].
    + intros ds Hv Hd Hr. apply throws_true.
      rewrite parse_into_uint_throws, Hv, atoi_negative_literal by (assumption || lia).
      apply Z.ltb_lt. lia.
    + intros ds Hv Hd Hr.
      assert (H0 : 0 <= decimal_value ds) by (apply (decimal_from_lower ds Hd 0); lia).
      assert (Hget : exists v, get_uint (value_text line f) = Return v).
      { unfold get_uint. rewrite Hv, atoi_literal by assumption.
        destruct (Z.ltb_spec (decimal_value ds) 0); [lia | eexists; reflexivity]. }
      destruct Hget as [v Hget].
      destruct f; try discriminate Hu; cbn [parse_into]; rewrite Hget;
        eexists; reflexivity.
  - intros ->. split; [now apply parse_into_float_throws | split].
    + intros Hsign. cbn [parse_into]. rewrite SignFacts.get_float_unsigned by exact Hsign.
      eexists. reflexivity.
    + intros ds Hv Hd Hr. cbn [parse_into].
      now rewrite Hv, get_float_negative_literal.
Qed.

(** The line [suffix_length = -1], met with the record of the defaults. *)
Lemma negative_suffix_length_witness :
  process_line (despace "suffix_length = -1") defaults = Throw NumericalRangeError.
Proof.
  refine (proj1 (proj2 (proj1 (range_check_of_unsigned_fields
                                 F_suffix_length "suffix_length = -1" defaults _) _))
                "1" _ _ _).
  - reflexivity.
  - reflexivity.
  - reflexivity.
  - reflexivity.
  - vm_compute. split; [reflexivity | discriminate].
Defined.

(** ** The reference reader reads what the reference writer wrote *)

Lemma take_strings_written (names : list string) (rest : list RefIO.datum) :
  RefIO.take_strings (List.length names) (List.app (List.map RefIO.Text names) rest) =
  Some (names, rest).
Proof. induction names as [ | n names IH]; [reflexivity | ]. cbn. now rewrite IH. Qed.

Lemma take_floats_written (values : list IEEE.float) (rest : list RefIO.datum) :
  RefIO.take_floats (List.length values) (List.app (List.map RefIO.Number values) rest) =
  Some (values, rest).
Proof. induction values as [ | v values IH]; [reflexivity | ]. cbn. now rewrite IH. Qed.

Lemma take_floats_all (values : list IEEE.float) :
  RefIO.take_floats (List.length values) (List.map RefIO.Number values) = Some (values, []).
Proof.
  rewrite <- (List.app_nil_r (List.map RefIO.Number values)). apply take_floats_written.
Qed.

Lemma reference_reads_back : reads_back RefIO.io.
Proof.
  intros names values.
  exists (RefIO.mk_stream
            (RefIO.Size (List.length values) :: List.map RefIO.Number values) false),
         (RefIO.mk_stream [] false).
  cbn [read_vector_string read_vector_float write_vector_string write_vector_float
       ostringstream str_istringstream fail RefIO.io].
  unfold RefIO.write_floats, RefIO.write_strings, RefIO.read_with.
  cbn [List.app RefIO.failed RefIO.data].
  rewrite take_strings_written, take_floats_all. repeat split.
Qed.

Lemma assign_all_load_field (pairs : list (string * IEEE.float)) (r : TaggerOptions) :
  assign_all pairs r =
  List.fold_left (fun acc p => fst (load_field (fst p) (snd p) (acc, EmptyString))) pairs r.
Proof.
  revert r. induction pairs as [ | [n x] pairs IH]; intros r; [reflexivity | ].
  unfold assign_all in *. cbn [List.fold_left fst snd]. rewrite IH. f_equal.
  rewrite load_field_table. unfold assign_pair. cbn [fst snd].
  destruct (field_of_name n); reflexivity.
Qed.

Section CodecProperties.
Context {io : VectorIO}.

(** C5. After the two vectors are read, [load] throws [ReadFailed] when
    the stream is in a fault state; otherwise it throws [BadBinary] when
    the vector of names and the vector of values differ in length;
    otherwise it throws nothing. *)
Theorem load_structural_errors (this : TaggerOptions) (i : bin_istream)
  (msg_out : string) (reverse_bytes : bool) :
  load_outcome (load this i msg_out reverse_bytes) =
  let '(field_names, fields, i2) := read_vectors i reverse_bytes in
  if fail i2 then Throw ReadFailed
  else if negb (List.length field_names =? List.length fields)%nat then Throw BadBinary
  else Return tt.
Proof.
  rewrite load_unfold. destruct (read_vectors i reverse_bytes) as [[names values] i2].
  destruct (fail i2); [reflexivity | ].
  destruct (negb (List.length names =? List.length values)%nat); reflexivity.
Qed.

(** C9. When [load] throws [ReadFailed] or [BadBinary], the record it
    was called on holds what it held before the call, and nothing was
    written to the message stream. *)
Theorem load_failure_leaves_record (this : TaggerOptions) (i : bin_istream)
  (msg_out : string) (reverse_bytes : bool) :
  load_outcome (load this i msg_out reverse_bytes) = Throw ReadFailed \/
  load_outcome (load this i msg_out reverse_bytes) = Throw BadBinary ->
  this_after (load this i msg_out reverse_bytes) = this /\
  msg_out_after (load this i msg_out reverse_bytes) = msg_out.
Proof.
  rewrite load_unfold. destruct (read_vectors i reverse_bytes) as [[names values] i2].
  destruct (fail i2); [intros _; split; reflexivity | ].
  destruct (negb (List.length names =? List.length values)%nat);
    [intros _; split; reflexivity | ].
  cbn [load_outcome]. intros [H | H]; discriminate H.
Qed.

(** The messages of a list of names, cut at an unknown name. *)
Lemma diagnostics_split (names : list string) (name : string) :
  List.In name names -> known name = false ->
  exists before after : string,
    diagnostics names = before ++ unknown_parameter_message name ++ after.
Proof.
  unfold diagnostics. intros Hin Hk.
  assert (Hf : List.In name (List.filter (fun n => negb (known n)) names)).
  { apply List.filter_In. split; [exact Hin | now rewrite Hk]. }
  apply List.in_split in Hf as (l1 & l2 & ->).
  exists (List.fold_right (fun n acc => unknown_parameter_message n ++ acc) EmptyString l1).
  exists (List.fold_right (fun n acc => unknown_parameter_message n ++ acc) EmptyString l2).
  induction l1 as [ | n l1 IH]; [reflexivity | ].
  cbn [List.app List.fold_right]. now rewrite IH, append_assoc.
Qed.

Lemma diagnostics_known (names : list string) :
  List.Forall (fun n => known n = true) names -> diagnostics names = EmptyString.
Proof.
  unfold diagnostics. induction 1 as [ | n names Hn _ IH]; [reflexivity | ].
  cbn [List.filter]. now rewrite Hn.
Qed.

(** C6. When the two vectors are read without fault and have the same
    length, [load] throws nothing, whatever the names: it writes one
    message to the message stream for each name it does not know, in
    the order of the names, and the record is what the pairs with a
    known name make of it, each assigned to the field it names. The
    message is the line [Found unknown parameter name NAME. Please,
    update your FinnPos version.]; the stream holds it for every unknown
    name among the names, and gets nothing when every name is known. *)
Theorem load_tolerates_unknown_names (this : TaggerOptions) (i : bin_istream)
  (msg_out : string) (reverse_bytes : bool)
  (field_names : list string) (fields : list IEEE.float) (i2 : bin_istream) :
  read_vectors i reverse_bytes = (field_names, fields, i2) ->
  fail i2 = false ->
  List.length field_names = List.length fields ->
  load_outcome (load this i msg_out reverse_bytes) = Return tt /\
  msg_out_after (load this i msg_out reverse_bytes) =
    msg_out ++ diagnostics field_names /\
  this_after (load this i msg_out reverse_bytes) =
    assign_all (known_pairs field_names fields) this /\
  (forall (f : field) (x : IEEE.float) (r : TaggerOptions),
     assign_pair (field_name f, x) r = load_into f x r /\
     get_field f (load_into f x r) = cast f x) /\
  (forall (name : string) (x : IEEE.float) (r : TaggerOptions),
     known name = false ->
     assign_pair (name, x) r = r /\
     load_field name x (r, msg_out) = (r, msg_out ++ unknown_parameter_message name)) /\
  (forall (name : string) (x : IEEE.float) (r : TaggerOptions),
     known name = false ->
     load_field name x (r, msg_out) =
     (r, msg_out ++ "Found unknown parameter name " ++ name ++ ". "
           ++ "Please, update your FinnPos version." ++ String LF EmptyString)) /\
  (forall name : string,
     List.In name field_names -> known name = false ->
     exists before after : string,
       msg_out_after (load this i msg_out reverse_bytes) =
       msg_out ++ before
         ++ ("Found unknown parameter name " ++ name ++ ". "
               ++ "Please, update your FinnPos version." ++ String LF EmptyString)
         ++ after) /\
  (List.Forall (fun n => known n = true) field_names ->
   msg_out_after (load this i msg_out reverse_bytes) = msg_out).
Proof.
  intros Hread Hfail Hlen. rewrite load_unfold, Hread, Hfail.
  apply Nat.eqb_eq in Hlen. rewrite Hlen. cbn [negb load_outcome msg_out_after this_after].
  assert (Hunknown : forall (name : string) (x : IEEE.float) (r : TaggerOptions),
             known name = false ->
             load_field name x (r, msg_out) = (r, msg_out ++ unknown_parameter_message name)).
  { intros name x r Hk. rewrite load_field_table. unfold known in Hk.
    destruct (field_of_name name); [discriminate | reflexivity]. }
  split; [reflexivity | ]. split; [reflexivity | ].
  split; [unfold known_pairs; apply assign_all_known | ].
  split.
  { intros f x r. split; [ | apply get_load_into].
    unfold assign_pair. cbn [fst snd]. now rewrite field_of_name_field_name. }
  split.
  { intros name x r Hk. split; [ | now apply Hunknown].
    unfold assign_pair, known in *. cbn [fst].
    destruct (field_of_name name); [discriminate | reflexivity]. }
  split; [exact Hunknown | ].
  split.
  - intros name Hin Hk. destruct (diagnostics_split field_names name Hin Hk) as (b & a & ->).
    exists b, a. reflexivity.
  - intros Hall. now rewrite (diagnostics_known field_names Hall), append_nil_r.
Qed.

(** C10. When [load] throws nothing, the pairs have been applied from
    the first to the last; a field whose name occurs in the vector of
    names holds the value paired with the last occurrence of its name,
    cast to the type of the field. *)
Theorem load_last_occurrence_wins (this : TaggerOptions) (i : bin_istream)
  (msg_out : string) (reverse_bytes : bool)
  (field_names : list string) (fields : list IEEE.float) (i2 : bin_istream) :
  read_vectors i reverse_bytes = (field_names, fields, i2) ->
  fail i2 = false ->
  List.length field_names = List.length fields ->
  this_after (load this i msg_out reverse_bytes) =
    List.fold_left (fun acc p => fst (load_field (fst p) (snd p) (acc, EmptyString)))
                   (List.combine field_names fields) this /\
  (forall (f : field) (x : IEEE.float) (before after : list (string * IEEE.float)),
     List.combine field_names fields = List.app before ((field_name f, x) :: after) ->
     List.Forall (fun p => fst p <> field_name f) after ->
     get_field f (this_after (load this i msg_out reverse_bytes)) = cast f x).
Proof.
  intros Hread Hfail Hlen. rewrite load_unfold, Hread, Hfail.
  apply Nat.eqb_eq in Hlen. rewrite Hlen. cbn [negb this_after]. split.
  - apply assign_all_load_field.
  - intros f x before after Hc Ha. rewrite Hc. now apply assign_all_last.
Qed.

End CodecProperties.

(** A binary record short of a value: [load] throws [BadBinary] and the
    record is as it was. *)
Lemma short_record_leaves_defaults :
  this_after (load (io := RefIO.io) defaults Samples.short_of_a_value EmptyString false) = defaults /\
  msg_out_after (load (io := RefIO.io) defaults Samples.short_of_a_value EmptyString false) = EmptyString.
Proof.
  apply (load_failure_leaves_record (io := RefIO.io) defaults Samples.short_of_a_value EmptyString false).
  right. reflexivity.
Defined.

(** A binary record with one unknown name among two known ones: the
    message stream gets the one line, and the two known fields their
    values. *)
Lemma unknown_name_witness :
  load_outcome (load (io := RefIO.io) defaults Samples.with_unknown_name EmptyString false) = Return tt /\
  msg_out_after (load (io := RefIO.io) defaults Samples.with_unknown_name EmptyString false) =
    EmptyString ++ diagnostics [ "degree"; "use_unstructured_sl"; "beam" ] /\
  this_after (load (io := RefIO.io) defaults Samples.with_unknown_name EmptyString false) =
    assign_all
      (known_pairs [ "degree"; "use_unstructured_sl"; "beam" ]
                   [ IEEE.float_of_Z 4; IEEE.float_of_Z 1; IEEE.float_of_Z 20 ])
      defaults /\
  msg_out_after (load (io := RefIO.io) defaults Samples.with_unknown_name EmptyString false) =
    "Found unknown parameter name use_unstructured_sl. Please, update your FinnPos version."
      ++ String LF EmptyString /\
  this_after (load (io := RefIO.io) defaults Samples.with_unknown_name EmptyString false) =
    set_beam 20 (set_degree 4 defaults).
Proof.
  pose proof (load_tolerates_unknown_names (io := RefIO.io) defaults Samples.with_unknown_name EmptyString false
                [ "degree"; "use_unstructured_sl"; "beam" ]
                [ IEEE.float_of_Z 4; IEEE.float_of_Z 1; IEEE.float_of_Z 20 ]
                (RefIO.mk_stream [] false) eq_refl eq_refl eq_refl) as H.
  destruct H as (H1 & H2 & H3 & _).
  split; [exact H1 | ]. split; [exact H2 | ]. split; [exact H3 | ].
  split; [rewrite H2; reflexivity | rewrite H3; reflexivity].
Defined.

(** A binary record that names [degree] twice: the second value stays. *)
Lemma degree_twice_witness :
  get_field F_degree (this_after (load (io := RefIO.io) defaults Samples.degree_twice EmptyString false)) =
  cast F_degree (IEEE.float_of_Z 5).
Proof.
  apply (proj2 (load_last_occurrence_wins (io := RefIO.io) defaults Samples.degree_twice EmptyString false
                  [ "degree"; "beam"; "degree" ]
                  [ IEEE.float_of_Z 4; IEEE.float_of_Z 20; IEEE.float_of_Z 5 ]
                  (RefIO.mk_stream [] false) eq_refl eq_refl eq_refl)
               F_degree (IEEE.float_of_Z 5)
               [ ("degree", IEEE.float_of_Z 4); ("beam", IEEE.float_of_Z 20) ] []).
  - reflexivity.
  - constructor.
Defined.

(** ** Round trip *)

Lemma roundtrip_bool (b : bool) :
  CInt.to_bool (IEEE.uint_of_float (IEEE.float_of_Z (CInt.of_bool b))) = b.
Proof. destruct b; reflexivity. Qed.

Lemma operator_eq_same (a b : N) (r : TaggerOptions) :
  IEEE.is_finite (guess_mass r) = true -> IEEE.is_finite (beam_mass r) = true ->
  IEEE.is_finite (delta r) = true -> IEEE.is_finite (sigma r) = true ->
  operator_eq (mk_object a r) (mk_object b r) = true.
Proof.
  intros Hg Hb Hd Hs. unfold operator_eq. cbn [address contents].
  destruct (a =? b)%N; [reflexivity | ].
  rewrite !Z.eqb_refl, !FloatFacts.float_eq_refl by assumption.
  now rewrite Bool.eqb_reflx.
Qed.

Lemma record_ext (a b : TaggerOptions) :
  (forall f : field, get_field f a = get_field f b) -> a = b.
Proof.
  intros H. destruct a, b.
  pose proof (H F_estimator) as H1. pose proof (H F_inference) as H2.
  pose proof (H F_suffix_length) as H3. pose proof (H F_degree) as H4.
  pose proof (H F_max_train_passes) as H5. pose proof (H F_max_lemmatizer_passes) as H6.
  pose proof (H F_max_useless_passes) as H7. pose proof (H F_guess_mass) as H8.
  pose proof (H F_beam) as H9. pose proof (H F_beam_mass) as H10.
  pose proof (H F_regularization) as H11. pose proof (H F_delta) as H12.
  pose proof (H F_sigma) as H13. pose proof (H F_use_label_dictionary) as H14.
  clear H. simpl in *.
  injection H1 as ->. injection H2 as ->. injection H3 as ->. injection H4 as ->.
  injection H5 as ->. injection H6 as ->. injection H7 as ->. injection H8 as ->.
  injection H9 as ->. injection H10 as ->. injection H11 as ->. injection H12 as ->.
  injection H13 as ->. injection H14 as ->. reflexivity.
Qed.

(** What [load] makes of the pairs that [store] writes for a storable
    record. *)
Lemma assign_all_stored (r fresh : TaggerOptions) :
  storable r ->
  assign_all (List.combine store_field_names (store_fields r)) fresh = r.
Proof.
  intros Hr. apply record_ext. intros f.
  cbn [List.combine store_field_names store_fields].
  assert (Hother : forall (n m : string) (x : IEEE.float) (l : list (string * IEEE.float)),
             String.eqb n m = false ->
             List.Forall (fun p => fst p <> m) l ->
             List.Forall (fun p => fst p <> m) ((n, x) :: l)).
  { intros n m x l Hn Hl. constructor; [ | exact Hl].
    cbn [fst]. intros ->. rewrite String.eqb_refl in Hn. discriminate. }
  destruct f.
  - etransitivity;
      [ apply (assign_all_last F_estimator _ []); repeat (apply Hother; [reflexivity | ]); constructor | ].
    cbn [cast get_field]. f_equal. apply FloatFacts.uint_of_float_of_Z, Hr.
  - etransitivity;
      [ apply (assign_all_last F_inference _ [_]); repeat (apply Hother; [reflexivity | ]); constructor | ].
    cbn [cast get_field]. f_equal. apply FloatFacts.uint_of_float_of_Z, Hr.
  - etransitivity;
      [ apply (assign_all_last F_suffix_length _ [_; _]); repeat (apply Hother; [reflexivity | ]); constructor | ].
    cbn [cast get_field]. f_equal. apply FloatFacts.uint_of_float_of_Z, Hr.
  - etransitivity;
      [ apply (assign_all_last F_degree _ [_; _; _]); repeat (apply Hother; [reflexivity | ]); constructor | ].
    cbn [cast get_field]. f_equal. apply FloatFacts.uint_of_float_of_Z, Hr.
  - etransitivity;
      [ apply (assign_all_last F_max_train_passes _ [_; _; _; _]); repeat (apply Hother; [reflexivity | ]); constructor | ].
    cbn [cast get_field]. f_equal. apply FloatFacts.uint_of_float_of_Z, Hr.
  - etransitivity;
      [ apply (assign_all_last F_max_lemmatizer_passes _ [_; _; _; _; _]); repeat (apply Hother; [reflexivity | ]); constructor | ].
    cbn [cast get_field]. f_equal. apply FloatFacts.uint_of_float_of_Z, Hr.
  - etransitivity;
      [ apply (assign_all_last F_max_useless_passes _ [_; _; _; _; _; _]); repeat (apply Hother; [reflexivity | ]); constructor | ].
    cbn [cast get_field]. f_equal. apply FloatFacts.uint_of_float_of_Z, Hr.
  - etransitivity;
      [ apply (assign_all_last F_guess_mass _ [_; _; _; _; _; _; _]); repeat (apply Hother; [reflexivity | ]); constructor | ].
    reflexivity.
  - etransitivity;
      [ apply (assign_all_last F_beam _ [_; _; _; _; _; _; _; _]); repeat (apply Hother; [reflexivity | ]); constructor | ].
    cbn [cast get_field]. f_equal. apply FloatFacts.sint_of_float_of_Z, Hr.
  - etransitivity;
      [ apply (assign_all_last F_beam_mass _ [_; _; _; _; _; _; _; _; _]); repeat (apply Hother; [reflexivity | ]); constructor | ].
    reflexivity.
  - etransitivity;
      [ apply (assign_all_last F_regularization _ [_; _; _; _; _; _; _; _; _; _]); repeat (apply Hother; [reflexivity | ]); constructor | ].
    cbn [cast get_field]. f_equal. apply FloatFacts.uint_of_float_of_Z, Hr.
  - etransitivity;
      [ apply (assign_all_last F_delta _ [_; _; _; _; _; _; _; _; _; _; _]); repeat (apply Hother; [reflexivity | ]); constructor | ].
    reflexivity.
  - etransitivity;
      [ apply (assign_all_last F_sigma _ [_; _; _; _; _; _; _; _; _; _; _; _]); repeat (apply Hother; [reflexivity | ]); constructor | ].
    reflexivity.
  - etransitivity;
      [ apply (assign_all_last F_use_label_dictionary _ [_; _; _; _; _; _; _; _; _; _; _; _; _]); repeat (apply Hother; [reflexivity | ]); constructor | ].
    cbn [cast get_field]. f_equal. apply roundtrip_bool.
Qed.

(** C3, as the claim states it, fails: a suffix length of 2^24 + 1 is
    written as the [float] 2^24, and the record read back is not equal
    to the one written. *)
Lemma long_suffix_is_not_read_back :
  load_outcome (store_then_load (io := RefIO.io) Samples.long_suffix defaults) = Return tt /\
  suffix_length (this_after (store_then_load (io := RefIO.io) Samples.long_suffix defaults)) = 16777216 /\
  operator_eq (mk_object 1 Samples.long_suffix)
              (mk_object 2 (this_after (store_then_load (io := RefIO.io) Samples.long_suffix defaults)))
    = false.
Proof. repeat split; vm_compute; reflexivity. Qed.

(** C3, amended. For a reader and a writer that read back what was
    written, and a record whose integer fields (enumerations, counts,
    beam) are of magnitude at most 2^24 and whose [float] fields are
    finite, [store] followed by [load] into any record, without byte
    reversal, throws nothing and gives back the record, field by field;
    the two are then equal under [operator==]. *)
Theorem store_then_load_gives_back {io : VectorIO} (r fresh : TaggerOptions) :
  reads_back io ->
  storable r ->
  load_outcome (store_then_load r fresh) = Return tt /\
  this_after (store_then_load r fresh) = r /\
  (forall a b : N,
     operator_eq (mk_object a r) (mk_object b (this_after (store_then_load r fresh))) = true).
Proof.
  intros Hio Hr.
  assert (Hload : load_outcome (store_then_load r fresh) = Return tt /\
                  this_after (store_then_load r fresh) = r).
  { unfold store_then_load, store. rewrite load_unfold. unfold read_vectors.
    destruct (Hio store_field_names (store_fields r)) as (i1 & i2 & -> & -> & ->).
    cbn [List.length store_field_names store_fields Nat.eqb negb load_outcome this_after].
    split; [reflexivity | ]. now apply assign_all_stored. }
  destruct Hload as [H1 H2]. split; [exact H1 | split; [exact H2 | ]].
  intros a b. rewrite H2. destruct Hr. now apply operator_eq_same.
Qed.

Lemma defaults_storable : storable defaults.
Proof. constructor; vm_compute; try reflexivity; split; discriminate. Qed.

(** The test at the end of [main], on the record of the defaults. *)
Lemma defaults_are_read_back :
  load_outcome (store_then_load (io := RefIO.io) defaults (set_degree 0 defaults)) = Return tt /\
  this_after (store_then_load (io := RefIO.io) defaults (set_degree 0 defaults)) = defaults /\
  (forall a b : N,
     operator_eq (mk_object a defaults)
       (mk_object b (this_after (store_then_load (io := RefIO.io) defaults (set_degree 0 defaults)))) = true).
Proof.
  apply (store_then_load_gives_back (io := RefIO.io) defaults (set_degree 0 defaults)).
  - exact reference_reads_back.
  - exact defaults_storable.
Defined.

(** C2. [operator==] does not look at [max_useless_passes]: two objects
    that hold 3 and 4 there, and the same elsewhere, compare equal. *)
Theorem operator_eq_misses_max_useless_passes :
  operator_eq Samples.three_passes Samples.four_passes = true /\
  max_useless_passes (contents Samples.three_passes) = 3 /\
  max_useless_passes (contents Samples.four_passes) = 4.
Proof. repeat split; vm_compute; reflexivity. Qed.

(* ================================================================== *)
(** * Further properties *)

(** ** [despace] and [strip] *)




Lemma starts_with_app (pat rest : string) : starts_with pat (pat ++ rest) = true.
Proof.
  induction pat as [ | c pat IH]; [reflexivity | ].
  cbn [String.append starts_with]. now rewrite Ascii.eqb_refl, IH.
Qed.

Lemma starts_with_split (pat str : string) :
  starts_with pat str = true -> str = pat ++ substr str (String.length pat).
Proof.
  revert str. induction pat as [ | c pat IH]; intros str H; [destruct str; reflexivity | ].
  destruct str as [ | d str]; [discriminate | ].
  cbn [starts_with] in H. apply andb_true_iff in H as [Hc H].
  apply Ascii.eqb_eq in Hc. subst d. cbn [String.length substr String.append].
  f_equal. now apply IH.
Qed.

Lemma find_first (str pat : string) :
  forall pos : nat,
    find str pat = Some pos ->
    String.length (take pos str) = pos /\
    str = take pos str ++ pat ++ substr str (pos + String.length pat) /\
    (forall before after : string,
       str = before ++ pat ++ after -> (pos <= String.length before)%nat).
Proof.
  induction str as [ | c str IH]; intros pos; cbn [find].
  - destruct (starts_with pat EmptyString) eqn:E; [ | discriminate].
    intros [= <-]. split; [reflexivity | ]. split; [ | intros; lia].
    cbn [take String.append Nat.add]. now apply starts_with_split.
  - destruct (starts_with pat (String c str)) eqn:E.
    + intros [= <-]. split; [reflexivity | ]. split; [ | intros; lia].
      cbn [take String.append Nat.add]. now apply starts_with_split.
    + destruct (find str pat) as [q | ]; [ | discriminate].
      intros [= <-]. destruct (IH q eq_refl) as (H1 & H2 & H3).
      split; [cbn [take String.length]; now rewrite H1 | ].
      split.
      * cbn [take String.append Nat.add substr]. f_equal. exact H2.
      * intros before after Hs. destruct before as [ | b before].
        -- cbn [String.append] in Hs. rewrite Hs, starts_with_app in E. discriminate.
        -- cbn [String.append] in Hs. injection Hs as _ Hs.
           specialize (H3 before after Hs). cbn [String.length]. lia.
Qed.

Lemma find_none (str pat : string) :
  find str pat = None -> forall before after : string, str <> before ++ pat ++ after.
Proof.
  induction str as [ | c str IH]; cbn [find]; intros H before after Hs.
  - destruct (starts_with pat EmptyString) eqn:E; [discriminate | ].
    destruct before; [ | discriminate Hs]. cbn [String.append] in Hs.
    rewrite Hs, starts_with_app in E. discriminate.
  - destruct (starts_with pat (String c str)) eqn:E; [discriminate | ].
    destruct (find str pat) as [q | ] eqn:F; [discriminate | ].
    destruct before as [ | b before].
    + cbn [String.append] in Hs. rewrite Hs, starts_with_app in E. discriminate.
    + cbn [String.append] in Hs. injection Hs as _ Hs. exact (IH eq_refl before after Hs).
Qed.

(** X2. When the prefix occurs in the string, [strip] gives what follows
    its first occurrence: the string is a text without earlier
    occurrence, the prefix, and the result of [strip]. An identifier is
    found in a line exactly when the line holds it somewhere. *)
Theorem strip_gives_rest_of_first_occurrence (str prefix : string) :
  (found str prefix = true ->
   exists before : string,
     str = before ++ prefix ++ strip str prefix /\
     (forall before' after' : string,
        str = before' ++ prefix ++ after' ->
        (String.length before <= String.length before')%nat)) /\
  (found str prefix = false ->
   forall before after : string, str <> before ++ prefix ++ after).
Proof.
  unfold found, strip. split.
  - destruct (find str prefix) as [pos | ] eqn:F; [intros _ | discriminate].
    destruct (find_first str prefix pos F) as (H1 & H2 & H3).
    exists (take pos str). split; [exact H2 | ]. now rewrite H1.
  - destruct (find str prefix) as [pos | ] eqn:F; [discriminate | intros _].
    now apply find_none.
Qed.

(** The line [x delta = 2 y], searched for [delta=] after [despace]. *)
Lemma strip_witness :
  exists before : string,
    "xdelta=2y" = before ++ "delta=" ++ strip "xdelta=2y" "delta=" /\
    (forall before' after' : string,
       "xdelta=2y" = before' ++ "delta=" ++ after' ->
       (String.length before <= String.length before')%nat).
Proof.
  apply (proj1 (strip_gives_rest_of_first_occurrence "xdelta=2y" "delta=")).
  reflexivity.
Defined.


(** ** One line of the text *)

Lemma field_eqb_true (a b : field) : field_eqb a b = true -> a = b.
Proof. destruct a, b; simpl; congruence. Qed.

Lemma field_eqb_same (a : field) : field_eqb a a = true.
Proof. destruct a; reflexivity. Qed.

Lemma bind_return {A B : Type} (r : result A) (k : A -> B) (b : B) :
  (x <- r ;; Return (k x)) = Return b -> exists a, r = Return a /\ b = k a.
Proof. destruct r as [a | e]; cbn [bind]; [intros [= <-]; eauto | discriminate]. Qed.

(** What an assignment stores depends on the text alone, and the other
    fields stay. *)
Lemma parse_into_frame (f : field) (text : string) (this this' : TaggerOptions) :
  parse_into f text this = Return this' ->
  (forall g : field, g <> f -> get_field g this' = get_field g this) /\
  (forall that that' : TaggerOptions,
     parse_into f text that = Return that' -> get_field f that' = get_field f this').
Proof.
  intros H. split.
  - intros g Hg.
    destruct f; cbn [parse_into] in H;
      try (apply bind_return in H as (v & _ & ->));
      try (injection H as <-);
      destruct g; try reflexivity; contradiction Hg; reflexivity.
  - intros that that' H'.
    destruct f; cbn [parse_into] in H, H';
      try (apply bind_return in H as (v & Hv & ->);
           apply bind_return in H' as (v' & Hv' & ->);
           rewrite Hv in Hv'; injection Hv' as <-; reflexivity).
    injection H as <-. injection H' as <-. reflexivity.
Qed.

(** The outcome of a line, by what the line is. *)
Lemma process_line_cases (line : string) (this : TaggerOptions) :
  (skipped line = true /\ process_line (despace line) this = Return this) \/
  (exists f, line_sets line f = true /\
             process_line (despace line) this = parse_into f (value_text line f) this) \/
  (unrecognized line = true /\ process_line (despace line) this = Throw SyntaxError).
Proof.
  unfold skipped, line_sets, unrecognized, value_text, process_line.
  destruct (despace line) as [ | c r] eqn:E; [left; split; reflexivity | ].
  destruct (Ascii.eqb c "#"); [left; split; reflexivity | ].
  right. rewrite assign_line_table. cbn [negb andb].
  destruct (selected (String c r)) as [f | ].
  - left. exists f. rewrite field_eqb_same. split; reflexivity.
  - right. split; reflexivity.
Qed.

Lemma line_sets_unique (line : string) (f g : field) :
  line_sets line f = true -> line_sets line g = true -> f = g.
Proof.
  unfold line_sets. destruct (despace line) as [ | c r]; [discriminate | ].
  destruct (Ascii.eqb c "#"); [discriminate | ]. cbn [negb andb].
  destruct (selected (String c r)) as [h | ]; [ | discriminate].
  intros H1 H2. apply field_eqb_true in H1, H2. congruence.
Qed.

(** X3. A line that the constructor passes changes at most one field: a
    blank line or a comment changes none, and an assignment changes the
    field it sets and no other. *)
Theorem line_changes_one_field (line : string) (this this' : TaggerOptions) :
  process_line (despace line) this = Return this' ->
  (skipped line = true /\ this' = this) \/
  (exists f : field,
     line_sets line f = true /\
     forall g : field, g <> f -> get_field g this' = get_field g this).
Proof.
  intros H. destruct (process_line_cases line this) as [[Hs E] | [(f & Hf & E) | [_ E]]].
  - left. split; [exact Hs | ]. rewrite E in H. now injection H.
  - right. exists f. split; [exact Hf | ]. rewrite E in H.
    exact (proj1 (parse_into_frame f (value_text line f) this this' H)).
  - rewrite E in H. discriminate.
Qed.

(** The line [degree = 7], met with the record of the defaults. *)
Lemma line_changes_one_field_witness :
  (skipped "degree = 7" = true /\ set_degree 7 defaults = defaults) \/
  (exists f : field,
     line_sets "degree = 7" f = true /\
     forall g : field, g <> f -> get_field g (set_degree 7 defaults) = get_field g defaults).
Proof.
  apply (line_changes_one_field "degree = 7" defaults (set_degree 7 defaults)).
  reflexivity.
Defined.

(** A line that does not set [f] and is passed leaves [f] as it was. *)
Lemma other_line_keeps_field (f : field) (line : string) (this this' : TaggerOptions) :
  line_sets line f = false ->
  process_line (despace line) this = Return this' ->
  get_field f this' = get_field f this.
Proof.
  intros Hf H.
  destruct (process_line_cases line this) as [[_ E] | [(g & Hg & E) | [_ E]]];
    rewrite E in H.
  - now injection H as <-.
  - apply (proj1 (parse_into_frame g (value_text line g) this this' H)).
    intros ->. rewrite Hg in Hf. discriminate.
  - discriminate.
Qed.

Lemma run_lines_keep_field (f : field) (ls : list string) :
  List.Forall (fun l => line_sets l f = false) ls ->
  forall (this r : TaggerOptions) (c c' : Z),
    run_lines ls this c = (Return r, c') -> get_field f r = get_field f this.
Proof.
  induction 1 as [ | l ls Hl _ IH]; intros this r c c' H.
  - cbn [run_lines] in H. injection H as <- _. reflexivity.
  - cbn [run_lines] in H.
    destruct (process_line (despace l) this) as [this' | e] eqn:E; [ | discriminate].
    rewrite (IH _ _ _ _ H). now apply (other_line_keeps_field f l this this').
Qed.

Lemma run_lines_app (ls ls' : list string) :
  forall (this : TaggerOptions) (c : Z),
    run_lines (List.app ls ls') this c =
    match run_lines ls this c with
    | (Return r, c') => run_lines ls' r c'
    | (Throw e, c') => (Throw e, c')
    end.
Proof.
  induction ls as [ | l ls IH]; intros this c; [reflexivity | ].
  cbn [List.app run_lines].
  destruct (process_line (despace l) this) as [this' | e]; [apply IH | reflexivity].
Qed.

(** X4. A key that no line of the text sets keeps its default: when the
    constructor returns a record, each field for which the text has no
    assignment holds the value of the member initialiser. *)
Theorem omitted_key_keeps_default (text : string) (counter : Z) (f : field) :
  List.Forall (fun l => line_sets l f = false) (lines_read text) ->
  exists end_ : parse_end,
    TaggerOptions_of_stream (istringstream text) counter = Some end_ /\
    forall r : TaggerOptions,
      outcome end_ = Return r -> get_field f r = get_field f defaults.
Proof.
  intros H. destruct (constructor_lines text counter) as [i' E].
  eexists. split; [exact E | ]. cbn [outcome]. intros r Hr.
  apply (run_lines_keep_field f _ H defaults r counter
           (snd (run_lines (lines_read text) defaults counter))).
  rewrite <- Hr. now destruct (run_lines (lines_read text) defaults counter).
Qed.

(** The five lines of the test set no [degree]. *)
Lemma omitted_key_witness :
  exists end_ : parse_end,
    TaggerOptions_of_stream (istringstream (unlines Samples.five_lines)) 0 = Some end_ /\
    forall r : TaggerOptions,
      outcome end_ = Return r -> get_field F_degree r = get_field F_degree defaults.
Proof.
  apply (omitted_key_keeps_default (unlines Samples.five_lines) 0 F_degree).
  repeat constructor.
Defined.

(** X5. When several lines set the same key, the last one decides: if
    the constructor returns a record, the field holds what its last
    assignment in the text stores. *)
Theorem last_assignment_wins (text : string) (counter : Z) (f : field)
  (before after : list string) (line : string) (stored : TaggerOptions) :
  lines_read text = List.app before (line :: after) ->
  line_sets line f = true ->
  List.Forall (fun l => line_sets l f = false) after ->
  process_line (despace line) defaults = Return stored ->
  exists end_ : parse_end,
    TaggerOptions_of_stream (istringstream text) counter = Some end_ /\
    forall r : TaggerOptions,
      outcome end_ = Return r -> get_field f r = get_field f stored.
Proof.
  intros Hlines Hf Hafter Hstored.
  destruct (constructor_lines text counter) as [i' E].
  eexists. split; [exact E | ]. cbn [outcome]. intros r Hr.
  rewrite Hlines, run_lines_app in Hr.
  destruct (run_lines before defaults counter) as [[r1 | e] c1]; [ | discriminate].
  cbn [run_lines] in Hr.
  destruct (process_line (despace line) r1) as [r2 | e] eqn:E2; [ | discriminate].
  destruct (run_lines after r2 (incr c1)) as [out c3] eqn:E3. cbn [fst] in Hr. subst out.
  rewrite (run_lines_keep_field f after Hafter r2 r (incr c1) c3 E3).
  rewrite (line_sets_process line f r1 Hf) in E2.
  rewrite (line_sets_process line f defaults Hf) in Hstored.
  exact (proj2 (parse_into_frame f (value_text line f) defaults stored Hstored) r1 r2 E2).
Qed.

(** Two assignments of [degree], and a blank line after them. *)
Lemma last_assignment_witness :
  exists end_ : parse_end,
    TaggerOptions_of_stream (istringstream (unlines [ "degree=4"; "degree=5"; " " ])) 0 =
    Some end_ /\
    forall r : TaggerOptions,
      outcome end_ = Return r -> get_field F_degree r = get_field F_degree (set_degree 5 defaults).
Proof.
  apply (last_assignment_wins (unlines [ "degree=4"; "degree=5"; " " ]) 0 F_degree
           [ "degree=4" ] [ " "; "" ] "degree=5" (set_degree 5 defaults)).
  - reflexivity.
  - reflexivity.
  - repeat constructor.
  - reflexivity.
Defined.

Lemma run_lines_despace (ls1 : list string) :
  forall (ls2 : list string) (this : TaggerOptions) (c : Z),
    List.map despace ls1 = List.map despace ls2 ->
    run_lines ls1 this c = run_lines ls2 this c.
Proof.
  induction ls1 as [ | l1 ls1 IH]; intros [ | l2 ls2] this c H; try discriminate;
    [reflexivity | ].
  cbn [List.map] in H. injection H as Hl H. cbn [run_lines]. rewrite Hl.
  destruct (process_line (despace l2) this); [now apply IH | reflexivity].
Qed.

(** X6. Spaces, tabs and carriage returns count nowhere in a line: two
    texts whose lines are the same once these characters are dropped end
    the constructor the same way, with the same record or the same
    exception, and the same counter. *)
Theorem blanks_do_not_count (text1 text2 : string) (counter : Z) :
  List.map despace (lines_read text1) = List.map despace (lines_read text2) ->
  exists end1 end2 : parse_end,
    TaggerOptions_of_stream (istringstream text1) counter = Some end1 /\
    TaggerOptions_of_stream (istringstream text2) counter = Some end2 /\
    outcome end1 = outcome end2 /\
    counter_after end1 = counter_after end2.
Proof.
  intros H.
  destruct (constructor_lines text1 counter) as [i1 E1].
  destruct (constructor_lines text2 counter) as [i2 E2].
  eexists. eexists. split; [exact E1 | ]. split; [exact E2 | ].
  cbn [outcome counter_after]. rewrite (run_lines_despace _ _ defaults counter H).
  split; reflexivity.
Qed.

(** The same two assignments, once with blanks and once without. *)
Lemma blanks_do_not_count_witness :
  exists end1 end2 : parse_end,
    TaggerOptions_of_stream (istringstream (unlines [ " degree = 7 "; "sigma=	1" ])) 0 =
      Some end1 /\
    TaggerOptions_of_stream (istringstream (unlines [ "degree=7"; "sig ma = 1" ])) 0 =
      Some end2 /\
    outcome end1 = outcome end2 /\
    counter_after end1 = counter_after end2.
Proof.
  apply (blanks_do_not_count (unlines [ " degree = 7 "; "sigma=	1" ])
                             (unlines [ "degree=7"; "sig ma = 1" ]) 0).
  reflexivity.
Defined.

(** ** The binary record, for any record *)

Section CodecFurther.

Context {io : VectorIO}.

Lemma combine_not_named (name : string) (names : list string) :
  ~ List.In name names ->
  forall values : list IEEE.float,
    List.Forall (fun p => fst p <> name) (List.combine names values).
Proof.
  induction names as [ | n names IH]; intros Hin values; [constructor | ].
  destruct values as [ | v values]; [constructor | ].
  cbn [List.combine]. constructor.
  - cbn [fst]. intros ->. apply Hin. now left.
  - apply IH. intros H. apply Hin. now right.
Qed.

(** X7. [load] touches only the fields that the record names: a field
    whose name is not among the names read keeps the value it had,
    whether [load] returns or throws. *)
Theorem load_keeps_unnamed_fields (this : TaggerOptions) (i : bin_istream)
  (msg_out : string) (reverse_bytes : bool) (f : field) :
  ~ List.In (field_name f) (fst (fst (read_vectors i reverse_bytes))) ->
  get_field f (this_after (load this i msg_out reverse_bytes)) = get_field f this.
Proof.
  intros Hin. rewrite load_unfold.
  destruct (read_vectors i reverse_bytes) as [[names values] i2]. cbn [fst] in Hin.
  destruct (fail i2); [reflexivity | ].
  destruct (negb (List.length names =? List.length values)%nat); [reflexivity | ].
  cbn [this_after]. apply assign_all_other. now apply combine_not_named.
Qed.

Lemma diagnostics_of_store : diagnostics store_field_names = EmptyString.
Proof. reflexivity. Qed.

Lemma names_differ (n m : string) (x : IEEE.float) (l : list (string * IEEE.float)) :
  String.eqb n m = false ->
  List.Forall (fun p => fst p <> m) l ->
  List.Forall (fun p => fst p <> m) ((n, x) :: l).
Proof.
  intros Hn Hl. constructor; [ | exact Hl].
  cbn [fst]. intros ->. rewrite String.eqb_refl in Hn. discriminate.
Qed.

(** What [load] makes of the pairs that [store] writes, field by
    field. *)
Lemma assign_all_store_fields (r fresh : TaggerOptions) (f : field) :
  get_field f (assign_all (List.combine store_field_names (store_fields r)) fresh) =
  cast f (stored_value f r).
Proof.
  cbn [List.combine store_field_names store_fields].
  destruct f.
  - etransitivity;
      [ apply (assign_all_last F_estimator _ []); repeat (apply names_differ; [reflexivity | ]); constructor | ].
    reflexivity.
  - etransitivity;
      [ apply (assign_all_last F_inference _ [_]); repeat (apply names_differ; [reflexivity | ]); constructor | ].
    reflexivity.
  - etransitivity;
      [ apply (assign_all_last F_suffix_length _ [_; _]); repeat (apply names_differ; [reflexivity | ]); constructor | ].
    reflexivity.
  - etransitivity;
      [ apply (assign_all_last F_degree _ [_; _; _]); repeat (apply names_differ; [reflexivity | ]); constructor | ].
    reflexivity.
  - etransitivity;
      [ apply (assign_all_last F_max_train_passes _ [_; _; _; _]); repeat (apply names_differ; [reflexivity | ]); constructor | ].
    reflexivity.
  - etransitivity;
      [ apply (assign_all_last F_max_lemmatizer_passes _ [_; _; _; _; _]); repeat (apply names_differ; [reflexivity | ]); constructor | ].
    reflexivity.
  - etransitivity;
      [ apply (assign_all_last F_max_useless_passes _ [_; _; _; _; _; _]); repeat (apply names_differ; [reflexivity | ]); constructor | ].
    reflexivity.
  - etransitivity;
      [ apply (assign_all_last F_guess_mass _ [_; _; _; _; _; _; _]); repeat (apply names_differ; [reflexivity | ]); constructor | ].
    reflexivity.
  - etransitivity;
      [ apply (assign_all_last F_beam _ [_; _; _; _; _; _; _; _]); repeat (apply names_differ; [reflexivity | ]); constructor | ].
    reflexivity.
  - etransitivity;
      [ apply (assign_all_last F_beam_mass _ [_; _; _; _; _; _; _; _; _]); repeat (apply names_differ; [reflexivity | ]); constructor | ].
    reflexivity.
  - etransitivity;
      [ apply (assign_all_last F_regularization _ [_; _; _; _; _; _; _; _; _; _]); repeat (apply names_differ; [reflexivity | ]); constructor | ].
    reflexivity.
  - etransitivity;
      [ apply (assign_all_last F_delta _ [_; _; _; _; _; _; _; _; _; _; _]); repeat (apply names_differ; [reflexivity | ]); constructor | ].
    reflexivity.
  - etransitivity;
      [ apply (assign_all_last F_sigma _ [_; _; _; _; _; _; _; _; _; _; _; _]); repeat (apply names_differ; [reflexivity | ]); constructor | ].
    reflexivity.
  - etransitivity;
      [ apply (assign_all_last F_use_label_dictionary _ [_; _; _; _; _; _; _; _; _; _; _; _; _]); repeat (apply names_differ; [reflexivity | ]); constructor | ].
    reflexivity.
Qed.

(** X8. [store] followed by [load], for any record at all and a reader
    that reads back what was written: [load] does not throw and writes
    no message; every field of the record loaded into is overwritten,
    with the stored [float] cast to the type of the field, so nothing
    of the old contents is left; the four [float] fields and the flag
    come back as they were, whatever they hold. *)
Theorem store_then_load_any_record (r fresh : TaggerOptions) :
  reads_back io ->
  load_outcome (store_then_load r fresh) = Return tt /\
  msg_out_after (store_then_load r fresh) = EmptyString /\
  (forall f : field,
     get_field f (this_after (store_then_load r fresh)) = cast f (stored_value f r)) /\
  (forall other : TaggerOptions,
     this_after (store_then_load r other) = this_after (store_then_load r fresh)) /\
  (forall f : field,
     reads_float f = true \/ f = F_use_label_dictionary ->
     get_field f (this_after (store_then_load r fresh)) = get_field f r).
Proof.
  intros Hio.
  assert (Hload : forall fresh' : TaggerOptions,
             store_then_load r fresh' =
             mk_load_end (Return tt)
               (assign_all (List.combine store_field_names (store_fields r)) fresh')
               EmptyString
               (in_after (store_then_load r fresh'))).
  { intros fresh'. unfold store_then_load, store. rewrite load_unfold. unfold read_vectors.
    destruct (Hio store_field_names (store_fields r)) as (i1 & i2 & -> & -> & ->).
    reflexivity. }
  rewrite (Hload fresh). cbn [load_outcome msg_out_after this_after].
  split; [reflexivity | ]. split; [reflexivity | ].
  split; [intros f; apply assign_all_store_fields | ].
  split.
  - intros other. rewrite (Hload other). cbn [this_after].
    apply record_ext. intros f. now rewrite !assign_all_store_fields.
  - intros f Hf. rewrite assign_all_store_fields.
    destruct Hf as [Hf | ->]; [destruct f; try discriminate; reflexivity | ].
    cbn [cast stored_value get_field]. f_equal. apply roundtrip_bool.
Qed.

End CodecFurther.

(** A record with a name [load] does not know: [sigma] is not named. *)
Lemma load_keeps_unnamed_witness :
  get_field F_sigma
    (this_after (load (io := RefIO.io) defaults Samples.with_unknown_name EmptyString false)) =
  get_field F_sigma defaults.
Proof.
  apply (load_keeps_unnamed_fields (io := RefIO.io) defaults Samples.with_unknown_name
           EmptyString false F_sigma).
  simpl. intros [H | [H | [H | H]]]; try discriminate; exact H.
Defined.

(** The record with the long suffix length, with the reference reader. *)
Lemma store_then_load_any_witness :
  load_outcome (store_then_load (io := RefIO.io) Samples.long_suffix defaults) = Return tt /\
  msg_out_after (store_then_load (io := RefIO.io) Samples.long_suffix defaults) = EmptyString /\
  (forall f : field,
     get_field f (this_after (store_then_load (io := RefIO.io) Samples.long_suffix defaults)) =
     cast f (stored_value f Samples.long_suffix)) /\
  (forall other : TaggerOptions,
     this_after (store_then_load (io := RefIO.io) Samples.long_suffix other) =
     this_after (store_then_load (io := RefIO.io) Samples.long_suffix defaults)) /\
  (forall f : field,
     reads_float f = true \/ f = F_use_label_dictionary ->
     get_field f (this_after (store_then_load (io := RefIO.io) Samples.long_suffix defaults)) =
     get_field f Samples.long_suffix).
Proof.
  apply (store_then_load_any_record (io := RefIO.io) Samples.long_suffix defaults).
  exact reference_reads_back.
Defined.

(** ** The tolerance of [float_eq] and [operator==] *)

Module EqFacts.

Import IEEE.

Lemma binary_round_aux_abs (prec emax : Z) (s s' : bool) (m e : Z) (l : location) :
  SFabs (binary_round_aux prec emax s m e l) = SFabs (binary_round_aux prec emax s' m e l).
Proof.
  unfold binary_round_aux.
  destruct (shr_fexp prec emax m e l) as [mrs' e'].
  destruct (shr_fexp prec emax _ e' loc_Exact) as [mrs'' e''].
  destruct (shr_m mrs'') as [ | p | p]; try reflexivity.
  destruct (e'' <=? emax - prec); reflexivity.
Qed.

Lemma binary_round_abs (prec emax : Z) (s s' : bool) (m : positive) (e : Z) :
  SFabs (binary_round prec emax s m e) = SFabs (binary_round prec emax s' m e).
Proof.
  unfold binary_round. destruct (shl_align m e _) as [mz ez].
  apply binary_round_aux_abs.
Qed.

Lemma binary_normalize_abs (prec emax : Z) (m e : Z) (sz sz' : bool) :
  SFabs (binary_normalize prec emax (- m) e sz) = SFabs (binary_normalize prec emax m e sz').
Proof.
  destruct m as [ | p | p]; cbn [Z.opp binary_normalize]; try reflexivity;
    apply binary_round_abs.
Qed.

Lemma cond_Zopp_negb (s : bool) (m : Z) : cond_Zopp (negb s) m = - cond_Zopp s m.
Proof. destruct s; cbn; lia. Qed.

Lemma double_of_float_abs (x y : float) :
  SFabs x = SFabs y -> SFabs (double_of_float x) = SFabs (double_of_float y).
Proof.
  destruct x as [s | s | | s m e], y as [s' | s' | | s' m' e']; cbn [SFabs];
    try discriminate; try reflexivity.
  intros [= <- <-]. unfold double_of_float, round_double.
  destruct s, s'; try reflexivity.
  - apply (binary_normalize_abs double_prec double_emax (Zpos m) e true false).
  - symmetry. apply (binary_normalize_abs double_prec double_emax (Zpos m) e true false).
Qed.

Lemma float_sub_abs (x y : float) : SFabs (float_sub x y) = SFabs (float_sub y x).
Proof.
  unfold float_sub.
  destruct x as [s | s | | s m e], y as [s' | s' | | s' m' e']; cbn [SFsub SFabs];
    try reflexivity.
  - destruct s, s'; reflexivity.
  - destruct s, s'; reflexivity.
  - rewrite (Z.min_comm e' e).
    replace (cond_Zopp s' (Zpos (fst (shl_align m' e' (Z.min e e')))) -
             cond_Zopp s (Zpos (fst (shl_align m e (Z.min e e')))))
      with (- (cond_Zopp s (Zpos (fst (shl_align m e (Z.min e e')))) -
               cond_Zopp s' (Zpos (fst (shl_align m' e' (Z.min e e')))))) by lia.
    symmetry. apply binary_normalize_abs.
Qed.

Lemma float_eq_sym (x y : float) : float_eq x y = float_eq y x.
Proof.
  unfold float_eq, fabs.
  now rewrite (double_of_float_abs _ _ (float_sub_abs x y)).
Qed.

Lemma float_eq_finite (x y : float) :
  float_eq x y = true -> is_finite x = true /\ is_finite y = true.
Proof.
  destruct x as [s | s | | s m e], y as [s' | s' | | s' m' e'];
    try (intros _; split; reflexivity);
    unfold float_eq, float_sub; cbn [SFsub];
    try (destruct s, s'); cbn; discriminate.
Qed.

Lemma float_eq_same (x : float) : float_eq x x = is_finite x.
Proof.
  destruct (is_finite x) eqn:E.
  - now apply FloatFacts.float_eq_refl.
  - destruct (float_eq x x) eqn:E'; [ | reflexivity].
    apply float_eq_finite in E' as [E' _]. congruence.
Qed.

End EqFacts.

(** X9. [float_eq] does not depend on the order of its arguments, and
    it holds of finite numbers only: a NaN or an infinity equals
    nothing, itself included, so a number equals itself exactly when it
    is finite. *)
Theorem float_eq_symmetric_and_finite (x y : IEEE.float) :
  float_eq x y = float_eq y x /\
  (float_eq x y = true -> IEEE.is_finite x = true /\ IEEE.is_finite y = true) /\
  float_eq x x = IEEE.is_finite x.
Proof.
  split; [apply EqFacts.float_eq_sym | ].
  split; [apply EqFacts.float_eq_finite | apply EqFacts.float_eq_same].
Qed.

(** Two finite numbers less than 0.001 apart. *)
Lemma float_eq_witness :
  IEEE.is_finite (IEEE.float_of_Z 1) = true /\
  IEEE.is_finite (IEEE.float_of_double (IEEE.double_of_decimal false 10001 (-4))) = true.
Proof.
  apply (proj1 (proj2 (float_eq_symmetric_and_finite
                         (IEEE.float_of_Z 1)
                         (IEEE.float_of_double (IEEE.double_of_decimal false 10001 (-4)))))).
  vm_compute. reflexivity.
Defined.

(** X10. [operator==] gives the same answer in both directions. An
    object equals itself whatever it holds; a copy at another address
    equals the original exactly when the four [float] fields of the
    record are finite, so a record that holds a NaN or an infinity
    differs from its own copy. *)
Theorem operator_eq_symmetric_and_copies (this another : object) (r : TaggerOptions)
  (a b : N) :
  operator_eq this another = operator_eq another this /\
  operator_eq this this = true /\
  operator_eq (mk_object a r) (mk_object b r) = ((a =? b)%N || floats_finite r)%bool.
Proof.
  split; [ | split].
  - unfold operator_eq. rewrite (N.eqb_sym (address another)).
    destruct (address this =? address another)%N; [reflexivity | ].
    cbv zeta.
    rewrite (Z.eqb_sym (estimator (contents another))),
            (Z.eqb_sym (inference (contents another))),
            (Z.eqb_sym (suffix_length (contents another))),
            (Z.eqb_sym (degree (contents another))),
            (Z.eqb_sym (max_train_passes (contents another))),
            (Z.eqb_sym (max_lemmatizer_passes (contents another))),
            (Z.eqb_sym (beam (contents another))),
            (Z.eqb_sym (regularization (contents another))),
            (EqFacts.float_eq_sym (guess_mass (contents another))),
            (EqFacts.float_eq_sym (beam_mass (contents another))),
            (EqFacts.float_eq_sym (delta (contents another))),
            (EqFacts.float_eq_sym (sigma (contents another))).
    f_equal. destruct (use_label_dictionary (contents this)),
                      (use_label_dictionary (contents another)); reflexivity.
  - unfold operator_eq. now rewrite N.eqb_refl.
  - unfold operator_eq, floats_finite. cbn [address contents].
    destruct (a =? b)%N; [reflexivity | ]. cbv zeta.
    rewrite !Z.eqb_refl, !EqFacts.float_eq_same, Bool.eqb_reflx.
    cbn [orb andb]. rewrite !Bool.andb_true_r. reflexivity.
Qed.

(** ** The readers of the values *)

Lemma to_sint_range (z : Z) : CInt.INT_MIN <= CInt.to_sint z <= CInt.INT_MAX.
Proof.
  unfold CInt.to_sint, CInt.INT_MIN, CInt.INT_MAX, CInt.UINT_MOD.
  pose proof (Z.mod_pos_bound (z - - 2 ^ 31) (2 ^ 32) ltac:(lia)). lia.
Qed.

Lemma to_sint_small (z : Z) : CInt.INT_MIN <= z <= CInt.INT_MAX -> CInt.to_sint z = z.
Proof.
  unfold CInt.to_sint, CInt.INT_MIN, CInt.INT_MAX, CInt.UINT_MOD. intros H.
  rewrite Z.mod_small by lia. lia.
Qed.

Lemma to_sint_to_uint (z : Z) : CInt.to_sint (CInt.to_uint z) = CInt.to_sint z.
Proof.
  unfold CInt.to_sint, CInt.to_uint, CInt.INT_MIN, CInt.UINT_MOD. f_equal.
  rewrite Zminus_mod_idemp_l. reflexivity.
Qed.

Lemma atoi_range (s : string) : CInt.INT_MIN <= Libc.atoi s <= CInt.INT_MAX.
Proof. apply to_sint_range. Qed.

Lemma get_int_signed (s : string) : CInt.to_sint (get_int s) = Libc.atoi s.
Proof.
  unfold get_int. rewrite to_sint_to_uint. apply to_sint_small, atoi_range.
Qed.

(** X11. The beam is read without a range check: a line that sets
    [beam] never throws and stores what [atoi] reads, sign and all; the
    return type [unsigned int] of [get_int] changes nothing. A negative
    literal gives the negative number. *)
Theorem beam_takes_any_sign (line : string) (this : TaggerOptions) :
  line_sets line F_beam = true ->
  process_line (despace line) this =
    Return (set_beam (Libc.atoi (value_text line F_beam)) this) /\
  CInt.INT_MIN <= Libc.atoi (value_text line F_beam) <= CInt.INT_MAX /\
  (forall ds : string,
     value_text line F_beam = String "-" ds ->
     all_digits ds = true -> 0 <= decimal_value ds <= 2 ^ 31 ->
     process_line (despace line) this = Return (set_beam (- decimal_value ds) this)).
Proof.
  intros H. rewrite (line_sets_process line F_beam this H). cbn [parse_into].
  rewrite get_int_signed. split; [reflexivity | ]. split; [apply atoi_range | ].
  intros ds -> Hd Hv. now rewrite atoi_negative_literal.
Qed.

(** The line [beam = -20]. *)
Lemma beam_takes_any_sign_witness :
  process_line (despace "beam = -20") defaults = Return (set_beam (- decimal_value "20") defaults).
Proof.
  apply (proj2 (proj2 (beam_takes_any_sign "beam = -20" defaults eq_refl)) "20").
  - reflexivity.
  - reflexivity.
  - vm_compute. split; discriminate.
Defined.

Lemma get_uint_value (s : string) (v : Z) :
  get_uint s = Return v -> v = Libc.atoi s /\ 0 <= Libc.atoi s <= CInt.INT_MAX.
Proof.
  unfold get_uint. pose proof (atoi_range s) as Hr.
  destruct (Z.ltb_spec (Libc.atoi s) 0) as [Hn | Hn]; [discriminate | ].
  intros [= <-]. split; [ | lia].
  unfold CInt.to_uint, CInt.UINT_MOD. unfold CInt.INT_MAX in Hr.
  apply Z.mod_small. lia.
Qed.

(** X12. What a line stores in a field read with [get_uint], when it
    passes: the number [atoi] reads, which lies between 0 and [INT_MAX];
    for [use_label_dictionary] the flag is set exactly when that number
    is not 0. *)
Theorem unsigned_field_holds_atoi (f : field) (line : string) (this this' : TaggerOptions) :
  reads_uint f = true ->
  line_sets line f = true ->
  process_line (despace line) this = Return this' ->
  0 <= Libc.atoi (value_text line f) <= CInt.INT_MAX /\
  get_field f this' =
    match f with
    | F_use_label_dictionary => V_bool (negb (Libc.atoi (value_text line f) =? 0))
    | _ => V_int (Libc.atoi (value_text line f))
    end.
Proof.
  intros Hf Hl H. rewrite (line_sets_process line f this Hl) in H.
  assert (Hp : exists v : Z,
             get_uint (value_text line f) = Return v /\
             get_field f this' =
               match f with
               | F_use_label_dictionary => V_bool (CInt.to_bool v)
               | _ => V_int v
               end).
  { destruct f; try discriminate Hf; cbn [parse_into] in H;
      apply bind_return in H as (v & Hv & ->); exists v; split;
      try exact Hv; reflexivity. }
  destruct Hp as (v & Hv & Hget).
  apply get_uint_value in Hv as [-> Hr]. split; [exact Hr | exact Hget].
Qed.

(** The line [use_label_dictionary = 2] switches the flag on. *)
Lemma unsigned_field_witness :
  0 <= Libc.atoi (value_text "use_label_dictionary = 2" F_use_label_dictionary) <= CInt.INT_MAX /\
  get_field F_use_label_dictionary (set_use_label_dictionary true defaults) =
    V_bool (negb (Libc.atoi (value_text "use_label_dictionary = 2" F_use_label_dictionary) =? 0)).
Proof.
  apply (unsigned_field_holds_atoi F_use_label_dictionary "use_label_dictionary = 2"
           defaults (set_use_label_dictionary true defaults)); reflexivity.
Defined.

Lemma found_at_0_starts_with (str pat : string) : found_at_0 str pat = starts_with pat str.
Proof.
  unfold found_at_0. destruct str as [ | c r]; cbn [find];
    destruct (starts_with pat _); try reflexivity.
  destruct (find r pat); reflexivity.
Qed.

(** X13. The three enumeration readers compare their tokens with the
    head of the value, in the order of the source: the first token that
    the value starts with decides, whatever follows it, and a value that
    starts with none of the tokens is a syntax error. *)
Theorem enum_value_is_a_token_prefix (f : field) (line : string) (this : TaggerOptions) :
  reads_enum f = true ->
  line_sets line f = true ->
  match List.find (fun t => starts_with (fst t) (value_text line f)) (enum_tokens f) with
  | Some t =>
      exists this' : TaggerOptions,
        process_line (despace line) this = Return this' /\
        get_field f this' = V_int (snd t)
  | None => process_line (despace line) this = Throw SyntaxError
  end.
Proof.
  intros Hf Hl. rewrite (line_sets_process line f this Hl).
  destruct f; try discriminate Hf;
    cbn [parse_into enum_tokens List.find fst snd];
    unfold get_estimator, get_inference, get_regularization;
    rewrite !found_at_0_starts_with;
    repeat (destruct (starts_with _ (value_text line _));
            [eexists; split; reflexivity | ]);
    reflexivity.
Qed.

(** A token followed by more text, and a token in lower case. *)
Lemma enum_value_witness :
  (exists this' : TaggerOptions,
     process_line (despace "estimator = MLE") defaults = Return this' /\
     get_field F_estimator this' = V_int ML) /\
  process_line (despace "estimator = ml") defaults = Throw SyntaxError.
Proof.
  split.
  - apply (enum_value_is_a_token_prefix F_estimator "estimator = MLE" defaults);
      reflexivity.
  - apply (enum_value_is_a_token_prefix F_estimator "estimator = ml" defaults);
      reflexivity.
Defined.

(** ** How the constructor ends *)

Lemma parse_into_exn (f : field) (text : string) (this : TaggerOptions) (e : exn) :
  parse_into f text this = Throw e -> e = SyntaxError \/ e = NumericalRangeError.
Proof.
  destruct f; cbn [parse_into];
    unfold get_estimator, get_inference, get_regularization, get_uint, get_float;
    repeat match goal with
           | |- context [if ?b then _ else _] => destruct b
           end;
    cbn [bind]; intros [= <-]; auto.
Qed.

Lemma process_line_exn (line : string) (this : TaggerOptions) (e : exn) :
  process_line line this = Throw e -> e = SyntaxError \/ e = NumericalRangeError.
Proof.
  unfold process_line. destruct line as [ | c r]; [discriminate | ].
  destruct (Ascii.eqb c "#"); [discriminate | ].
  rewrite assign_line_table. destruct (selected (String c r)) as [f | ].
  - apply parse_into_exn.
  - intros [= <-]. now left.
Qed.

Lemma read_line_text (s : string) :
  match read_line s with
  | (l, Some rest) => s = l ++ String LF rest
  | (l, None) => s = l
  end.
Proof.
  induction s as [ | c r IH]; cbn [read_line]; [reflexivity | ].
  destruct (Ascii.eqb_spec c LF) as [-> | _]; [reflexivity | ].
  destruct (read_line r) as [l [rest | ]]; cbn iota beta in IH |- *;
    cbn [append]; now rewrite <- IH.
Qed.

Lemma read_line_one_line (s : string) : one_line (fst (read_line s)) = true.
Proof.
  induction s as [ | c r IH]; cbn [read_line]; [reflexivity | ].
  destruct (Ascii.eqb c LF) eqn:E; [reflexivity | ].
  destruct (read_line r) as [l rest]. cbn [fst one_line] in *. now rewrite E.
Qed.

Lemma returns_accepted (l : string) (this this' : TaggerOptions) :
  process_line (despace l) this = Return this' -> accepted l = true.
Proof.
  intros H. unfold accepted.
  destruct (process_line (despace l) defaults) as [d | e] eqn:E; [reflexivity | ].
  rewrite (process_line_throw _ _ this _ E) in H. discriminate.
Qed.

Lemma unlines_cons_app (l : string) (ls : list string) (rest : string) :
  unlines (l :: ls) ++ rest = l ++ String LF (unlines ls ++ rest).
Proof. unfold unlines. cbn [List.fold_right]. now rewrite append_assoc. Qed.

(** The loop on a fresh stream, followed to its end: where the stream
    and the counter are left. *)
Lemma parse_loop_trace (fuel : nat) :
  forall (b : string) (this : TaggerOptions) (c : Z),
    (String.length b + 2 <= fuel)%nat ->
    exists end_ : parse_end,
      parse_loop fuel this (mk_istream b false false) c = Some end_ /\
      match outcome end_ with
      | Return _ =>
          stream_after end_ = mk_istream EmptyString true true /\
          counter_after end_ = Nat.iter (List.length (lines_read b)) incr c
      | Throw e =>
          (e = SyntaxError \/ e = NumericalRangeError) /\
          exists (valid : list string) (bad : string),
            List.Forall (fun l => one_line l = true /\ accepted l = true) valid /\
            one_line bad = true /\
            (forall this' : TaggerOptions, process_line (despace bad) this' = Throw e) /\
            counter_after end_ = Nat.iter (S (List.length valid)) incr c /\
            ((exists rest : string,
                b = unlines valid ++ bad ++ String LF rest /\
                stream_after end_ = mk_istream rest false false) \/
             (b = unlines valid ++ bad /\
              stream_after end_ = mk_istream EmptyString true false))
      end.
Proof.
  induction fuel as [ | fuel IH]; intros b this c Hfuel; [lia | ].
  cbn [parse_loop good_for_loop failbit negb].
  unfold getline. cbn [eofbit failbit buffer orb].
  pose proof (read_line_split b) as Hs. pose proof (read_line_text b) as Ht.
  pose proof (read_line_one_line b) as Ho. pose proof (lines_read_step b) as Hl.
  destruct (read_line b) as [l [rest | ]]; cbn [fst] in Ho.
  - destruct (process_line (despace l) this) as [this' | e] eqn:E.
    + destruct Hs as [_ Hlen].
      destruct (IH rest this' (incr c) ltac:(lia)) as (end_ & -> & H).
      exists end_. split; [reflexivity | ].
      destruct (outcome end_) as [r | e].
      * destruct H as [H1 H2]. split; [exact H1 | ].
        rewrite Hl, H2. cbn [List.length]. apply iter_incr_succ.
      * destruct H as (He & valid & bad & Hv & Hb & Hthrow & Hc & Hstream).
        split; [exact He | ]. exists (l :: valid), bad.
        split; [constructor; [split; [exact Ho | exact (returns_accepted _ _ _ E)] | exact Hv] | ].
        split; [exact Hb | ]. split; [exact Hthrow | ].
        split; [rewrite Hc; cbn [List.length]; apply iter_incr_succ | ].
        destruct Hstream as [(rest' & Hr & Hst) | [Hr Hst]].
        -- left. exists rest'. split; [ | exact Hst].
           rewrite unlines_cons_app, <- Hr. exact Ht.
        -- right. split; [ | exact Hst].
           rewrite unlines_cons_app, <- Hr. exact Ht.
    + eexists. split; [reflexivity | ]. cbn [outcome stream_after counter_after].
      split; [exact (process_line_exn _ _ _ E) | ]. exists [], l.
      split; [constructor | ]. split; [exact Ho | ].
      split; [intros this'; exact (process_line_throw _ this this' _ E) | ].
      split; [reflexivity | ]. left. exists rest. split; [exact Ht | reflexivity].
  - destruct Hs as [_ Hlen]. destruct l as [ | a l].
    + cbn [despace process_line String.length Nat.eqb].
      destruct fuel as [ | fuel]; [simpl in *; lia | ].
      cbn [parse_loop good_for_loop failbit negb]. eexists. split; [reflexivity | ].
      cbn [outcome stream_after counter_after]. split; [reflexivity | ].
      cbn iota in Hl. rewrite Hl. reflexivity.
    + cbn [String.length Nat.eqb].
      destruct (process_line (despace (String a l)) this) as [this' | e] eqn:E.
      * destruct fuel as [ | fuel]; [simpl in *; lia | ].
        cbn [parse_loop good_for_loop failbit negb]. unfold getline.
        cbn [eofbit failbit buffer orb despace process_line].
        destruct fuel as [ | fuel]; [simpl in *; lia | ].
        cbn [parse_loop good_for_loop failbit negb]. eexists. split; [reflexivity | ].
        cbn [outcome stream_after counter_after]. split; [reflexivity | ].
        cbn iota in Hl. rewrite Hl. reflexivity.
      * eexists. split; [reflexivity | ]. cbn [outcome stream_after counter_after].
        split; [exact (process_line_exn _ _ _ E) | ]. exists [], (String a l).
        split; [constructor | ]. split; [exact Ho | ].
        split; [intros this'; exact (process_line_throw _ this this' _ E) | ].
        split; [reflexivity | ]. right. split; [exact Ht | reflexivity].
Qed.

Lemma constructor_trace (text : string) (counter : Z) :
  exists end_ : parse_end,
    TaggerOptions_of_stream (istringstream text) counter = Some end_ /\
    match outcome end_ with
    | Return _ =>
        stream_after end_ = mk_istream EmptyString true true /\
        counter_after end_ = Nat.iter (List.length (lines_read text)) incr counter
    | Throw e =>
        (e = SyntaxError \/ e = NumericalRangeError) /\
        exists (valid : list string) (bad : string),
          List.Forall (fun l => one_line l = true /\ accepted l = true) valid /\
          one_line bad = true /\
          (forall this' : TaggerOptions, process_line (despace bad) this' = Throw e) /\
          counter_after end_ = Nat.iter (S (List.length valid)) incr counter /\
          ((exists rest : string,
              text = unlines valid ++ bad ++ String LF rest /\
              stream_after end_ = mk_istream rest false false) \/
           (text = unlines valid ++ bad /\
            stream_after end_ = mk_istream EmptyString true false))
    end.
Proof.
  unfold TaggerOptions_of_stream, istringstream, rounds_bound. cbn [buffer].
  apply parse_loop_trace. lia.
Qed.

(** X14. The constructor comes to an end on every text. When it returns
    a record it has read the whole text and leaves the stream empty,
    with [eofbit] and [failbit] set. When it throws, the exception is a
    [SyntaxError] or a [NumericalRangeError]; the text is then some
    lines that pass, the line that is refused, and either a line feed
    and more text, or nothing. In the first case the stream is left in
    working order and holds exactly the text after that line feed; in
    the second it is left empty, with [eofbit] set and [failbit] not. *)
Theorem constructor_ends (text : string) (counter : Z) :
  exists end_ : parse_end,
    TaggerOptions_of_stream (istringstream text) counter = Some end_ /\
    (forall r : TaggerOptions,
       outcome end_ = Return r ->
       stream_after end_ = mk_istream EmptyString true true) /\
    (forall e : exn,
       outcome end_ = Throw e ->
       (e = SyntaxError \/ e = NumericalRangeError) /\
       exists (valid : list string) (bad : string),
         List.Forall (fun l => one_line l = true /\ accepted l = true) valid /\
         one_line bad = true /\
         process_line (despace bad) defaults = Throw e /\
         ((exists rest : string,
             text = unlines valid ++ bad ++ String LF rest /\
             stream_after end_ = mk_istream rest false false) \/
          (text = unlines valid ++ bad /\
           stream_after end_ = mk_istream EmptyString true false))).
Proof.
  destruct (constructor_trace text counter) as (end_ & E & H).
  exists end_. split; [exact E | ].
  destruct (outcome end_) as [r | e].
  - split; [intros _ _; exact (proj1 H) | discriminate].
  - split; [discriminate | ]. intros e' [= <-].
    destruct H as (He & valid & bad & Hv & Hb & Hthrow & _ & Hstream).
    split; [exact He | ]. exists valid, bad.
    split; [exact Hv | ]. split; [exact Hb | ]. split; [apply Hthrow | exact Hstream].
Qed.

(** The five lines of the test alone, and the text of the test whose
    sixth line is misspelt: the stream is left with the line after
    it. *)
Lemma constructor_ends_witness :
  (exists end_ : parse_end,
     TaggerOptions_of_stream (istringstream (unlines Samples.five_lines)) 0 = Some end_ /\
     stream_after end_ = mk_istream EmptyString true true) /\
  (exists end_ : parse_end,
     TaggerOptions_of_stream
       (istringstream (unlines Samples.five_lines ++ Samples.misspelt_line
                         ++ Samples.after_misspelt_line)) 0 = Some end_ /\
     outcome end_ = Throw SyntaxError /\
     failbit (stream_after end_) = false /\
     stream_after end_ =
       mk_istream ("max_train_passes =6" ++ String LF EmptyString) false false).
Proof.
  split.
  - destruct (constructor_ends (unlines Samples.five_lines) 0) as (end_ & E & Hr & _).
    exists end_. split; [exact E | ].
    destruct (outcome end_) as [r | e] eqn:O; [exact (Hr r eq_refl) | ].
    vm_compute in E. injection E as <-. discriminate O.
  - destruct (constructor_ends (unlines Samples.five_lines ++ Samples.misspelt_line
                                  ++ Samples.after_misspelt_line) 0) as (end_ & E & _ & Ht).
    assert (O : outcome end_ = Throw SyntaxError)
      by (vm_compute in E; injection E as <-; reflexivity).
    assert (S : stream_after end_ =
                mk_istream ("max_train_passes =6" ++ String LF EmptyString) false false)
      by (vm_compute in E; injection E as <-; reflexivity).
    destruct (Ht _ O) as (_ & valid & bad & _ & _ & _ & Hs).
    exists end_. split; [exact E | ]. split; [exact O | ]. split; [ | exact S].
    destruct Hs as [(rest & _ & ->) | [_ ->]]; reflexivity.
Defined.

(** ** The counter in closed form *)

Lemma iter_incr_closed (n : nat) (c : Z) :
  Nat.iter (S n) incr c = CInt.to_uint (c + Z.of_nat (S n)).
Proof.
  induction n as [ | n IH].
  - cbn [Nat.iter]. unfold incr. reflexivity.
  - change (Nat.iter (S (S n)) incr c) with (incr (Nat.iter (S n) incr c)).
    rewrite IH. unfold incr, CInt.to_uint, CInt.UINT_MOD.
    rewrite Zplus_mod_idemp_l. f_equal. lia.
Qed.

Lemma split_lines_length (s : string) : List.length (split_lines s) = S (line_feeds s).
Proof.
  induction s as [ | c r IH]; [reflexivity | ].
  cbn [split_lines line_feeds]. destruct (Ascii.eqb c LF).
  - cbn [List.length]. now rewrite IH.
  - revert IH. destruct (split_lines r) as [ | l ls]; intros IH;
      [discriminate IH | exact IH].
Qed.

Lemma split_lines_last (s : string) :
  match List.last (split_lines s) EmptyString with
  | EmptyString => unfinished s = false
  | String _ _ => unfinished s = true
  end.
Proof.
  induction s as [ | c r IH]; [reflexivity | ].
  cbn [split_lines unfinished]. destruct (Ascii.eqb c LF) eqn:Ec.
  - rewrite last_cons_not_nil by apply split_lines_not_nil.
    destruct r; [reflexivity | exact IH].
  - pose proof (split_lines_not_nil r) as Hn.
    destruct (split_lines r) as [ | l ls] eqn:El; [congruence | ].
    destruct ls as [ | l' ls].
    + cbn [List.last] in *. destruct r as [ | c' r']; [reflexivity | ].
      destruct l; [ | exact IH].
      cbn [split_lines] in El. pose proof (split_lines_not_nil r') as Hn'.
      destruct (Ascii.eqb c' LF); [injection El as El; congruence | ].
      destruct (split_lines r'); discriminate.
    + rewrite last_cons_not_nil by discriminate.
      rewrite last_cons_not_nil in IH by discriminate.
      destruct r; [discriminate El | exact IH].
Qed.

Lemma lines_read_length (text : string) :
  List.length (lines_read text) =
  (S (line_feeds text) + (if unfinished text then 1 else 0))%nat.
Proof.
  unfold lines_read. pose proof (split_lines_last text) as H.
  destruct (List.last (split_lines text) EmptyString); rewrite H.
  - rewrite split_lines_length. lia.
  - rewrite List.length_app, split_lines_length. reflexivity.
Qed.

(** X15. The counter of the caller is added to, not set, and it wraps
    at 2^32. When the constructor returns a record, it has added the
    number of line feeds of the text and one, and one more when the
    text is not empty and does not end with a line feed; for the empty
    text that is 1. When it throws, the text is [k] lines that pass,
    the line that is refused, and then nothing or a line feed and more
    text, and it has added [k + 1]. *)
Theorem counter_is_added_to (text : string) (counter : Z) :
  exists end_ : parse_end,
    TaggerOptions_of_stream (istringstream text) counter = Some end_ /\
    (forall r : TaggerOptions,
       outcome end_ = Return r ->
       counter_after end_ =
       CInt.to_uint
         (counter + Z.of_nat (S (line_feeds text) + (if unfinished text then 1 else 0)))) /\
    (forall e : exn,
       outcome end_ = Throw e ->
       exists (valid : list string) (bad tail : string),
         text = unlines valid ++ bad ++ tail /\
         ends_line tail = true /\
         List.Forall (fun l => one_line l = true /\ accepted l = true) valid /\
         one_line bad = true /\
         process_line (despace bad) defaults = Throw e /\
         counter_after end_ = CInt.to_uint (counter + Z.of_nat (S (List.length valid)))).
Proof.
  destruct (constructor_trace text counter) as (end_ & E & H).
  exists end_. split; [exact E | ].
  destruct (outcome end_) as [r | e].
  - split; [ | discriminate]. intros _ _. destruct H as [_ H].
    rewrite H, lines_read_length. apply iter_incr_closed.
  - split; [discriminate | ]. intros e' [= <-].
    destruct H as (_ & valid & bad & Hv & Hb & Hthrow & Hc & Hstream).
    destruct Hstream as [(rest & -> & _) | [-> _]].
    + exists valid, bad, (String LF rest).
      split; [reflexivity | ]. split; [reflexivity | ].
      split; [exact Hv | ]. split; [exact Hb | ]. split; [apply Hthrow | ].
      rewrite Hc. apply iter_incr_closed.
    + exists valid, bad, EmptyString.
      split; [now rewrite append_nil_r | ]. split; [reflexivity | ].
      split; [exact Hv | ]. split; [exact Hb | ]. split; [apply Hthrow | ].
      rewrite Hc. apply iter_incr_closed.
Qed.

(** The empty text and a line without line feed, and the empty text
    met with the counter at its last value. *)
Lemma counter_is_added_to_witness :
  (exists end_ : parse_end,
     TaggerOptions_of_stream (istringstream EmptyString) 7 = Some end_ /\
     counter_after end_ = 8) /\
  (exists end_ : parse_end,
     TaggerOptions_of_stream (istringstream "degree=3") 7 = Some end_ /\
     counter_after end_ = 9) /\
  (exists end_ : parse_end,
     TaggerOptions_of_stream (istringstream EmptyString) 4294967295 = Some end_ /\
     counter_after end_ = 0).
Proof.
  destruct (counter_is_added_to EmptyString 7) as (e1 & E1 & H1 & _).
  destruct (counter_is_added_to "degree=3" 7) as (e2 & E2 & H2 & _).
  destruct (counter_is_added_to EmptyString 4294967295) as (e3 & E3 & H3 & _).
  assert (O1 : outcome e1 = Return defaults)
    by (vm_compute in E1; injection E1 as <-; reflexivity).
  assert (O2 : outcome e2 = Return (set_degree 3 defaults))
    by (vm_compute in E2; injection E2 as <-; reflexivity).
  assert (O3 : outcome e3 = Return defaults)
    by (vm_compute in E3; injection E3 as <-; reflexivity).
  split; [ | split].
  - exists e1. split; [exact E1 | ]. rewrite (H1 _ O1). reflexivity.
  - exists e2. split; [exact E2 | ]. rewrite (H2 _ O2). reflexivity.
  - exists e3. split; [exact E3 | ]. rewrite (H3 _ O3). reflexivity.
Defined.

(** ** Values that are not numbers, and text after a number *)

Lemma atoi_no_number (s : string) : may_start_number s = false -> Libc.atoi s = 0.
Proof.
  destruct s as [ | c r]; [reflexivity | ].
  destruct c as [b0 b1 b2 b3 b4 b5 b6 b7].
  destruct b0, b1, b2, b3, b4, b5, b6, b7; intros H;
    try (vm_compute in H; discriminate H); vm_compute; reflexivity.
Qed.

Lemma atof_no_number (s : string) :
  may_start_number s = false -> Libc.atof s = S754_zero false.
Proof.
  destruct s as [ | c r]; [reflexivity | ].
  destruct c as [b0 b1 b2 b3 b4 b5 b6 b7].
  destruct b0, b1, b2, b3, b4, b5, b6, b7; intros H;
    try (vm_compute in H; discriminate H); vm_compute; reflexivity.
Qed.

(** X16. A value that does not start like a number is not refused. Take
    a line made of the identifier of a numerical field (any field but
    the three enumerations) and a value that holds no equals sign and
    that, once its blanks are dropped, is empty or starts with a
    character that begins no number (not a digit, white space, a sign,
    a point, or the letters i and n in either case). The line passes
    and the value is read as zero: the integer fields get 0, the
    [float] fields [+0.0], the flag is switched off, and the other
    fields stay. *)
Theorem value_without_number_reads_as_zero (f : field) (v : string) (this : TaggerOptions) :
  reads_enum f = false ->
  no_equals v = true ->
  may_start_number (despace v) = false ->
  exists this' : TaggerOptions,
    process_line (despace (field_id f ++ v)) this = Return this' /\
    get_field f this' =
      match f with
      | F_guess_mass | F_beam_mass | F_delta | F_sigma => V_float (S754_zero false)
      | F_use_label_dictionary => V_bool false
      | _ => V_int 0
      end /\
    (forall g : field, g <> f -> get_field g this' = get_field g this).
Proof.
  intros Hf Hv Hn. destruct (line_sets_plain f v Hv) as [Hl Ht].
  rewrite (line_sets_process _ f this Hl), Ht.
  assert (Hp : exists this' : TaggerOptions,
             parse_into f (despace v) this = Return this' /\
             get_field f this' =
               match f with
               | F_guess_mass | F_beam_mass | F_delta | F_sigma => V_float (S754_zero false)
               | F_use_label_dictionary => V_bool false
               | _ => V_int 0
               end).
  { destruct f; try discriminate Hf; cbn [parse_into];
      unfold get_uint, get_int, get_float;
      rewrite ?(atoi_no_number _ Hn), ?(atof_no_number _ Hn);
      eexists; split; reflexivity. }
  destruct Hp as (this' & Hp & Hget). exists this'.
  split; [exact Hp | ]. split; [exact Hget | ].
  exact (proj1 (parse_into_frame f (despace v) this this' Hp)).
Qed.

(** The line [degree=two]. *)
Lemma value_without_number_witness :
  exists this' : TaggerOptions,
    process_line (despace (field_id F_degree ++ "two")) defaults = Return this' /\
    get_field F_degree this' = V_int 0 /\
    (forall g : field, g <> F_degree -> get_field g this' = get_field g defaults).
Proof.
  apply (value_without_number_reads_as_zero F_degree "two" defaults); reflexivity.
Defined.

Lemma read_digits_app (ds rest : string) :
  all_digits ds = true -> starts_with_digit rest = false ->
  forall acc : Z,
    Libc.read_digits 10 (ds ++ rest) acc =
    (decimal_from ds acc, Z.of_nat (String.length ds), rest).
Proof.
  intros Hd Hr. induction ds as [ | c ds IH]; intros acc.
  - cbn [append decimal_from String.length Z.of_nat].
    destruct rest as [ | c r]; [reflexivity | ].
    cbn [starts_with_digit] in Hr. unfold is_digit in Hr.
    cbn [Libc.read_digits]. unfold Libc.digit_value. rewrite Hr.
    cbn [andb Z.eqb]. reflexivity.
  - cbn [all_digits] in Hd. apply andb_true_iff in Hd as [Hc Hd].
    cbn [append Libc.read_digits decimal_from]. unfold Libc.digit_value. rewrite Hc.
    rewrite (IH Hd). cbn [String.length]. f_equal. f_equal. lia.
Qed.

Lemma atoi_app (ds rest : string) :
  all_digits ds = true -> ds <> EmptyString -> starts_with_digit rest = false ->
  Libc.atoi (ds ++ rest) = Libc.atoi ds.
Proof.
  intros Hd Hne Hr. unfold Libc.atoi, Libc.strtol.
  destruct ds as [ | c ds]; [congruence | ].
  pose proof Hd as Hd'. cbn [all_digits] in Hd'. apply andb_true_iff in Hd' as [Hc _].
  cbn [append]. rewrite !(digit_not_space_nor_sign c _ Hc).
  change (String c (ds ++ rest)) with (String c ds ++ rest).
  rewrite (read_digits_app _ _ Hd Hr), (read_digits_length _ Hd). reflexivity.
Qed.

Lemma no_equals_app (a b : string) :
  no_equals a = true -> no_equals b = true -> no_equals (a ++ b) = true.
Proof.
  intros Ha Hb. induction a as [ | c a IH]; [exact Hb | ].
  cbn [no_equals append] in *. apply andb_true_iff in Ha as [Hc Ha].
  now rewrite Hc, IH.
Qed.

Lemma parse_into_atoi (f : field) (t1 t2 : string) (this : TaggerOptions) :
  reads_uint f = true \/ f = F_beam ->
  Libc.atoi t1 = Libc.atoi t2 ->
  parse_into f t1 this = parse_into f t2 this.
Proof.
  intros [Hf | ->] H.
  - destruct f; try discriminate Hf; cbn [parse_into]; unfold get_uint; now rewrite H.
  - cbn [parse_into]. unfold get_int. now rewrite H.
Qed.

(** X17. The integer readers stop at the first character that is not a
    digit, and what follows is dropped without a word. Take a line made
    of the identifier of a field read with [get_uint] or [get_int], a
    run of at least one digit, and more text that holds no equals sign
    and that, once its blanks are dropped, does not start with a digit.
    The line is read as the line with the digits alone, so [3.9] is 3
    and [1e3] is 1. *)
Theorem text_after_digits_is_ignored (f : field) (ds rest : string) (this : TaggerOptions) :
  reads_uint f = true \/ f = F_beam ->
  all_digits ds = true -> ds <> EmptyString ->
  no_equals rest = true ->
  starts_with_digit (despace rest) = false ->
  process_line (despace (field_id f ++ ds ++ rest)) this =
  process_line (despace (field_id f ++ ds)) this.
Proof.
  intros Hf Hd Hne Hr Hs. destruct (digits_plain ds Hd) as [Hde Hdd].
  destruct (line_sets_plain f (ds ++ rest) (no_equals_app _ _ Hde Hr)) as [Hl Ht].
  destruct (line_sets_plain f ds Hde) as [Hl' Ht'].
  rewrite (line_sets_process _ f this Hl), (line_sets_process _ f this Hl'), Ht, Ht'.
  rewrite despace_app, Hdd. apply (parse_into_atoi f _ _ this Hf).
  now apply atoi_app.
Qed.

(** The line [degree=3.9] is read as [degree=3]. *)
Lemma text_after_digits_witness :
  process_line (despace (field_id F_degree ++ "3" ++ ".9")) defaults =
  process_line (despace (field_id F_degree ++ "3")) defaults.
Proof.
  apply (text_after_digits_is_ignored F_degree "3" ".9" defaults).
  - left. reflexivity.
  - reflexivity.
  - discriminate.
  - reflexivity.
  - reflexivity.
Defined.

(** ** The place of the identifier in the line *)

Lemma field_id_name (f : field) : field_id f = field_name f ++ "=".
Proof. destruct f; reflexivity. Qed.

Lemma field_name_no_equals (f : field) : no_equals (field_name f) = true.
Proof. destruct f; reflexivity. Qed.

(** Two texts cut at their first equals sign. *)
Lemma first_equals_unique (a b x y : string) :
  no_equals a = true -> no_equals b = true ->
  a ++ String "=" x = b ++ String "=" y -> a = b /\ x = y.
Proof.
  revert b. induction a as [ | c a IH]; intros [ | d b] Ha Hb H; cbn [append] in H.
  - injection H as ->. split; reflexivity.
  - injection H as <- _. cbn [no_equals] in Hb. discriminate.
  - injection H as -> _. cbn [no_equals] in Ha. discriminate.
  - injection H as -> H. cbn [no_equals] in Ha, Hb.
    apply andb_true_iff in Ha as [_ Ha]. apply andb_true_iff in Hb as [_ Hb].
    destruct (IH b Ha Hb H) as [-> ->]. split; reflexivity.
Qed.

Lemma length_append (a b : string) :
  String.length (a ++ b) = (String.length a + String.length b)%nat.
Proof. induction a as [ | c a IH]; [reflexivity | ]. cbn [append String.length]. now rewrite IH. Qed.

(** No name of a field is the end of a longer one. *)
Lemma field_name_not_suffix (f g : field) (c : ascii) (junk : string) :
  String c junk ++ field_name f <> field_name g.
Proof.
  intros H.
  assert (Hlen : String.length (field_name g) =
                 (S (String.length junk) + String.length (field_name f))%nat).
  { rewrite <- H, length_append. reflexivity. }
  assert (Hsub : substr (field_name g)
                   (String.length (field_name g) - String.length (field_name f)) =
                 field_name f).
  { replace (String.length (field_name g) - String.length (field_name f))%nat
      with (String.length (String c junk)) by (cbn [String.length]; lia).
    rewrite <- H. apply substr_app. }
  assert (Hlt : (String.length (field_name f) <? String.length (field_name g))%nat = true)
    by (apply Nat.ltb_lt; lia).
  clear H Hlen.
  destruct f, g; vm_compute in Hlt; try discriminate Hlt; vm_compute in Hsub;
    discriminate Hsub.
Qed.

(** After text without equals sign, an identifier is not read at the
    head of the line. *)
Lemma starts_with_after_junk (f g : field) (c : ascii) (junk : string) :
  no_equals (String c junk) = true ->
  starts_with (field_id g) (String c junk ++ field_id f) = false.
Proof.
  intros Hj. destruct (starts_with (field_id g) _) eqn:E; [exfalso | reflexivity].
  apply starts_with_split in E.
  remember (substr (String c junk ++ field_id f) (String.length (field_id g))) as rest
    eqn:Hrest. clear Hrest.
  assert (E' : (String c junk ++ field_name f) ++ String "=" EmptyString =
               field_name g ++ String "=" rest).
  { rewrite append_assoc. rewrite <- (field_id_name f), E, (field_id_name g).
    now rewrite append_assoc. }
  apply first_equals_unique in E' as [E' _].
  - exact (field_name_not_suffix f g c junk E').
  - apply no_equals_app; [exact Hj | apply field_name_no_equals].
  - apply field_name_no_equals.
Qed.

Lemma find_field_id (f g : field) : found (field_id f) (field_id g) = field_eqb g f.
Proof. destruct f, g; vm_compute; reflexivity. Qed.

Lemma find_after_junk (f g : field) (junk : string) :
  no_equals junk = true ->
  find (junk ++ field_id f) (field_id g) =
  if field_eqb g f then Some (String.length junk) else None.
Proof.
  induction junk as [ | c junk IH]; intros Hj.
  - cbn [append String.length]. destruct f, g; vm_compute; reflexivity.
  - pose proof (starts_with_after_junk f g c junk Hj) as Hs.
    cbn [append] in Hs |- *. cbn [find]. rewrite Hs.
    cbn [no_equals] in Hj. apply andb_true_iff in Hj as [_ Hj].
    rewrite (IH Hj). destruct (field_eqb g f); reflexivity.
Qed.

Lemma selected_after_junk (f : field) (junk : string) :
  no_equals junk = true -> selected (junk ++ field_id f) = Some f.
Proof.
  intros Hj. unfold selected, found, all_fields. cbn [List.find].
  rewrite !(find_after_junk f _ junk Hj). destruct f; reflexivity.
Qed.

(** X18. The identifier need not start the line: the loop looks for it
    anywhere. A line made of text without equals sign, not a comment,
    then an identifier and a value sets the field of the identifier to
    that value, as the line without the leading text does. *)
Theorem key_may_follow_other_text (f : field) (junk v : string) (this : TaggerOptions) :
  no_equals junk = true ->
  no_equals v = true ->
  starts_comment (despace junk) = false ->
  line_sets (junk ++ field_id f ++ v) f = true /\
  value_text (junk ++ field_id f ++ v) f = despace v /\
  process_line (despace (junk ++ field_id f ++ v)) this =
  process_line (despace (field_id f ++ v)) this.
Proof.
  intros Hj Hv Hc.
  pose proof (no_equals_despace junk Hj) as Hdj.
  pose proof (no_equals_despace v Hv) as Hdv.
  assert (Hid : despace (field_id f) = field_id f) by (destruct f; reflexivity).
  assert (Hl : line_sets (junk ++ field_id f ++ v) f = true /\
               value_text (junk ++ field_id f ++ v) f = despace v).
  { unfold line_sets, value_text. rewrite !despace_app, Hid.
    rewrite <- append_assoc.
    pose proof (selected_app_no_equals (despace junk ++ field_id f) (despace v) Hdv) as Hsel.
    rewrite selected_after_junk in Hsel by exact Hdj.
    split.
    - destruct ((despace junk ++ field_id f) ++ despace v) as [ | c r] eqn:E.
      + destruct (despace junk); [destruct f | ]; discriminate E.
      + rewrite Hsel, field_eqb_same, andb_true_r.
        destruct (despace junk) as [ | c' j'].
        * destruct f; injection E as <- _; reflexivity.
        * cbn [append] in E. injection E as <- _. cbn [starts_comment] in Hc.
          now rewrite Hc.
    - unfold strip.
      rewrite (find_app_no_equals (field_id f) (despace junk ++ field_id f) (despace v)
                 (field_id_ends_with_equals f) Hdv).
      rewrite (find_after_junk f f (despace junk) Hdj), field_eqb_same.
      rewrite append_assoc, <- length_append, <- append_assoc. apply substr_app. }
  destruct Hl as [Hl Ht]. split; [exact Hl | ]. split; [exact Ht | ].
  destruct (line_sets_plain f v Hv) as [Hl' Ht'].
  now rewrite (line_sets_process _ f this Hl), (line_sets_process _ f this Hl'), Ht, Ht'.
Qed.

(** The line [old_degree = 7] sets [degree]. *)
Lemma key_may_follow_other_text_witness :
  line_sets ("old_" ++ field_id F_degree ++ " 7") F_degree = true /\
  value_text ("old_" ++ field_id F_degree ++ " 7") F_degree = despace " 7" /\
  process_line (despace ("old_" ++ field_id F_degree ++ " 7")) defaults =
  process_line (despace (field_id F_degree ++ " 7")) defaults.
Proof.
  apply (key_may_follow_other_text F_degree "old_" " 7" defaults); reflexivity.
Defined.
